(** * Reliance XR panel bridge: decoder, protocol client, reconciler

    A shallow embedding of [src/platform.js] (class [RelianceXRPlatform]) and
    of the protocol client it requires (class [XRApi]), followed by the
    properties of the specification that were checked against them.

    Layout:
    - [JS]        the JavaScript primitives the source relies on;
    - [XRApi]     bit-field decoder, login and request framing;
    - [Platform]  the poll cycle, the snapshot and the pulse timers;
    - [Flight]    the event-loop view of [login] / [ensureLoggedIn];
    - [Decoder], [Client], [Reconciler], [SingleFlight], [Pulse]
                  the vocabulary in which the properties are stated;
    - [Scenario]  a concrete panel;
    - the properties, component by component.

    Further on, [Accessories] and [Lifecycle] embed the accessory cache, the
    target state handler and the start-up callback of the platform; [Bytes],
    [Protocol] and [Watch] add to the vocabulary, [Cases] to the panel; and
    the further properties (X1, X2, ...) close the file. *)

From Stdlib Require Import ZArith Lia Bool Ascii String List.
From Stdlib Require DecimalString.
From stdpp Require Import base option list strings gmap.
Import ListNotations.

Set Warnings "-register-all".

Local Open Scope string_scope.
Local Open Scope Z_scope.

(* ===================================================================== *)
(** ** JavaScript primitives *)
(* ===================================================================== *)

Module JS.

(** A JavaScript string is a sequence of code units.  The panel speaks
    Latin-1, so a code unit is an [ascii] (0..255). *)

(** Numbers.  The source only ever computes with small integers (indices,
    masks, bytes) and with the [NaN] that [parseInt] and [Number] produce
    on garbage; [Int z] stands for the integral double [z]
    (exact for |z| <= 2^53, which covers everything the panel can send). *)
Inductive number : Type :=
  | NaN
  | Int (z : Z).

Definition number_eqb (a b : number) : bool :=
  match a, b with
  | NaN, _ | _, NaN => false          (* NaN === NaN is false *)
  | Int x, Int y => Z.eqb x y
  end.

(** [a !== b] on numbers. *)
Definition number_neqb (a b : number) : bool := negb (number_eqb a b).

(** ToInt32: NaN goes to 0, integers wrap modulo 2^32 into [-2^31, 2^31). *)
Definition wrap32 (z : Z) : Z := (z + 2^31) mod 2^32 - 2^31.

Definition toInt32 (a : number) : Z :=
  match a with
  | NaN => 0
  | Int z => wrap32 z
  end.

(** ToUint32 followed by [& 31], the shift count of [<<]. *)
Definition shiftCount (a : number) : Z :=
  match a with
  | NaN => 0
  | Int z => z mod 32
  end.

(** [a << b] *)
Definition shl (a b : number) : number :=
  Int (wrap32 (Z.shiftl (toInt32 a) (shiftCount b))).

(** [a & b] *)
Definition band (a b : number) : number :=
  Int (Z.land (toInt32 a) (toInt32 b)).

(** [a % b]: the sign follows the dividend; [x % 0] is NaN. *)
Definition rem (a b : number) : number :=
  match a, b with
  | Int x, Int y => if Z.eqb y 0 then NaN else Int (Z.rem x y)
  | _, _ => NaN
  end.

Definition add (a b : number) : number :=
  match a, b with
  | Int x, Int y => Int (x + y)
  | _, _ => NaN
  end.

Definition sub (a b : number) : number :=
  match a, b with
  | Int x, Int y => Int (x - y)
  | _, _ => NaN
  end.

Definition mul (a b : number) : number :=
  match a, b with
  | Int x, Int y => Int (x * y)
  | _, _ => NaN
  end.

(** [Math.floor(a / b)] for a non-zero divisor. *)
Definition floorDiv (a b : number) : number :=
  match a, b with
  | Int x, Int y => if Z.eqb y 0 then NaN else Int (x / y)
  | _, _ => NaN
  end.

(** *** Strings *)

Definition strlen (s : string) : Z := Z.of_nat (String.length s).

(** Index arguments of [substring]: NaN is 0, then clamp to [0, len]. *)
Definition clampIndex (len : Z) (i : number) : Z :=
  match i with
  | NaN => 0
  | Int z => Z.max 0 (Z.min z len)
  end.

(** [s.substring(a, b)]: clamp both ends, swap them if out of order. *)
Definition substring (s : string) (a b : number) : string :=
  let len := strlen s in
  let a' := clampIndex len a in
  let b' := clampIndex len b in
  let from := Z.min a' b' in
  let to := Z.max a' b' in
  String.substring (Z.to_nat from) (Z.to_nat (to - from)) s.

(** [s.slice(0, n)] for a non-negative [n]. *)
Definition slice0 (s : string) (n : nat) : string := String.substring 0 n s.

Definition code (c : ascii) : Z := Z.of_nat (nat_of_ascii c).

(** WhiteSpace and LineTerminator code units below 256: TAB, LF, VT, FF, CR,
    SP and NBSP.  This is what [parseInt] trims and what [\s] matches. *)
Definition isWhiteSpace (c : ascii) : bool :=
  let n := code c in
  ((9 <=? n) && (n <=? 13)) || (n =? 32) || (n =? 160).

(** Value of a hexadecimal digit, upper or lower case. *)
Definition hexDigit (c : ascii) : option Z :=
  let n := code c in
  if (48 <=? n) && (n <=? 57) then Some (n - 48)
  else if (97 <=? n) && (n <=? 102) then Some (n - 87)
  else if (65 <=? n) && (n <=? 70) then Some (n - 55)
  else None.

Definition isHexDigit (c : ascii) : bool :=
  match hexDigit c with Some _ => true | None => false end.

Fixpoint trimStart (s : string) : string :=
  match s with
  | String c s' => if isWhiteSpace c then trimStart s' else s
  | EmptyString => s
  end.

(** Reads the longest prefix of hex digits; [acc] is [None] until the first
    digit has been seen. *)
Fixpoint hexPrefix (s : string) (acc : option Z) : option Z :=
  match s with
  | String c s' =>
      match hexDigit c with
      | Some d => hexPrefix s' (Some (16 * default 0 acc + d))
      | None => acc
      end
  | EmptyString => acc
  end.

Definition stripSign (s : string) : Z * string :=
  match s with
  | String "-" s' => (-1, s')
  | String "+" s' => (1, s')
  | _ => (1, s)
  end.

Definition strip0x (s : string) : string :=
  match s with
  | String "0" (String "x" s') => s'
  | String "0" (String "X" s') => s'
  | _ => s
  end.

(** [parseInt(s, 16)]: trim, sign, optional [0x], longest run of digits;
    NaN when that run is empty. *)
Definition parseInt16 (s : string) : number :=
  let '(sign, s1) := stripSign (trimStart s) in
  match hexPrefix (strip0x s1) None with
  | Some v => Int (sign * v)
  | None => NaN
  end.

(** [c.toLowerCase()] on a Latin-1 code unit. *)
Definition lowerChar (c : ascii) : ascii :=
  let n := code c in
  if ((65 <=? n) && (n <=? 90))
     || ((192 <=? n) && (n <=? 222) && negb (n =? 215))
  then ascii_of_nat (Z.to_nat (n + 32))
  else c.

Fixpoint toLowerCase (s : string) : string :=
  match s with
  | String c s' => String (lowerChar c) (toLowerCase s')
  | EmptyString => EmptyString
  end.

(** [s.includes(needle)] *)
Fixpoint includes (s needle : string) : bool :=
  String.prefix needle s ||
  match s with
  | String _ s' => includes s' needle
  | EmptyString => false
  end.

(** Truthiness of a string: only the empty string is falsy. *)
Definition truthyStr (s : string) : bool :=
  match s with
  | EmptyString => false
  | String _ _ => true
  end.

End JS.

(* ===================================================================== *)
(** ** Values, errors and effects *)
(* ===================================================================== *)

(** What [JSON.parse] can return, plus [undefined] for a missing field.
    The fields of an object carry distinct keys, as [JSON.parse] leaves
    them. *)
Inductive value : Type :=
  | VUndefined
  | VNull
  | VBool (b : bool)
  | VNum (n : JS.number)
  | VStr (s : string)
  | VArr (items : list value)
  | VObj (fields : list (string * value)).

(** ToBoolean *)
Definition truthy (v : value) : bool :=
  match v with
  | VUndefined | VNull => false
  | VBool b => b
  | VNum JS.NaN => false
  | VNum (JS.Int z) => negb (z =? 0)
  | VStr s => JS.truthyStr s
  | VArr _ | VObj _ => true
  end.

(** Everything the source throws or lets escape. *)
Inductive error : Type :=
  | HostUndefined                              (* baseUrl *)
  | LoginNotAccepted                           (* login: login page again *)
  | LoginNoSess                                (* login: no sess token *)
  | InvalidJSON (path snippet : string)        (* request *)
  | PanelError (path payload : string)         (* request *)
  | TransportError (msg : string)              (* fetch / res.text() rejects *)
  | TypeError.                                 (* property of null, call of a non-function *)

Inductive result (A : Type) : Type :=
  | Ok (a : A)
  | Throw (e : error).
Arguments Ok {A} a.
Arguments Throw {A} e.

Definition isOk {A} (r : result A) : bool :=
  match r with Ok _ => true | Throw _ => false end.

(** [v.k] for the two field names the source reads, [error] and
    [bankstates]: reading a field of [null] or [undefined] throws, an object
    yields the field or [undefined], primitives and arrays have no such
    field. *)
Fixpoint lookupField (k : string) (fields : list (string * value)) : value :=
  match fields with
  | (k', v) :: rest => if String.eqb k k' then v else lookupField k rest
  | [] => VUndefined
  end.

Definition getField (v : value) (k : string) : result value :=
  match v with
  | VUndefined | VNull => Throw TypeError
  | VObj fields => Ok (lookupField k fields)
  | _ => Ok VUndefined
  end.

(** The HomeKit side, as far as the platform touches it. *)
Module Hap.

Inductive service : Type :=
  | SecuritySystem | GarageDoorOpener | AlarmEvents | DoorEvents.

Inductive characteristic : Type :=
  | SecuritySystemCurrentState
  | SecuritySystemTargetState
  | StatusFault
  | MotionDetected
  | CurrentDoorState
  | TargetDoorState.

Inductive setting : Type :=
  | DISARMED | STAY_ARM | AWAY_ARM          (* current and target state *)
  | DISARM                                   (* target state *)
  | NO_FAULT | GENERAL_FAULT
  | Motion (b : bool)
  | OPEN | CLOSED.

#[global] Instance service_eq_dec : EqDecision service.
Proof. solve_decision. Defined.

End Hap.

Record httpRequest : Type := {
  url : string;
  httpMethod : string;
  body : option string
}.

(** What a call does to the outside, in order. *)
Inductive effect : Type :=
  | Fetch (req : httpRequest)
  | Sleep (ms : Z)
  | LogInfo (msg : string)
  | LogWarn (msg : string)
  | UpdateCharacteristic (s : Hap.service) (c : Hap.characteristic) (v : Hap.setting)
  | SetTimeout (id : nat) (ms : Z)
  | ClearTimeout (id : nat).

(** The answer of the panel to one [fetch] followed by [res.text()]. *)
Inductive reply : Type :=
  | Body (text : string)
  | Unreachable (msg : string).

(** What a timer does when it fires: the closure built in [pulseMotion]. *)
Inductive callback : Type :=
  | ResetMotion (s : Hap.service) (key : string).

Record timer : Type := {
  tid : nat;
  due : Z;
  action : callback
}.

(** The environment: the panel answers the n-th request with [net n];
    Node keeps the pending timers. *)
Record world : Type := {
  net : nat -> reply;
  served : nat;
  now : Z;
  pending : list timer;
  nextTimer : nat
}.

(** The runtime functions that are not part of the repository. *)
Class Runtime : Type := {
  JSON_parse : string -> option value;
  JSON_stringify : value -> string
}.

(** *** Calls: state, exceptions and emitted effects *)

Record outcome (S A : Type) : Type := {
  res : result A;
  post : S;
  emitted : list effect
}.
Arguments res {S A} o.
Arguments post {S A} o.
Arguments emitted {S A} o.

Definition M (S A : Type) : Type := S -> outcome S A.

Definition ret {S A} (a : A) : M S A :=
  fun s => {| res := Ok a; post := s; emitted := [] |}.

Definition throw {S A} (e : error) : M S A :=
  fun s => {| res := Throw e; post := s; emitted := [] |}.

Definition bind {S A B} (m : M S A) (k : A -> M S B) : M S B :=
  fun s =>
    let o := m s in
    match res o with
    | Ok a =>
        let o' := k a (post o) in
        {| res := res o'; post := post o'; emitted := emitted o ++ emitted o' |}
    | Throw e => {| res := Throw e; post := post o; emitted := emitted o |}
    end.

Notation "x <- m ;; k" := (bind m (fun x => k))
  (at level 100, m at next level, right associativity).
Notation "m ;; k" := (bind m (fun _ => k))
  (at level 100, right associativity).

Definition get {S} : M S S :=
  fun s => {| res := Ok s; post := s; emitted := [] |}.

Definition modify {S} (f : S -> S) : M S unit :=
  fun s => {| res := Ok tt; post := f s; emitted := [] |}.

Definition emit {S} (e : effect) : M S unit :=
  fun s => {| res := Ok tt; post := s; emitted := [e] |}.

Definition liftResult {S A} (r : result A) : M S A :=
  match r with Ok a => ret a | Throw e => throw e end.

(** [try { m } catch (e) { h e }] *)
Definition tryCatch {S A} (m : M S A) (h : error -> M S A) : M S A :=
  fun s =>
    let o := m s in
    match res o with
    | Ok a => o
    | Throw e =>
        let o' := h e (post o) in
        {| res := res o'; post := post o'; emitted := emitted o ++ emitted o' |}
    end.

(* ===================================================================== *)
(** ** class XRApi *)
(* ===================================================================== *)

Module XRApi.
Import JS.

(** *** Bankstate decode helpers *)

(** [_hexByteAt(bankstates, startIndex)].  Calling [substring] on anything
    but a string is a TypeError. *)
Definition _hexByteAt (bankstates : value) (startIndex : number) : result number :=
  match bankstates with
  | VStr s =>
      let hex := substring s startIndex (add startIndex (Int 2)) in
      if negb (truthyStr hex) || negb (Nat.eqb (String.length hex) 2)
      then Ok (Int 0)
      else Ok (parseInt16 hex)
  | _ => Throw TypeError
  end.

Definition resultBind {A B} (r : result A) (k : A -> result B) : result B :=
  match r with
  | Ok a => k a
  | Throw e => Throw e
  end.

Notation "'let*' x := r 'in' k" := (resultBind r (fun x => k))
  (at level 100, x name, r at next level, k at level 200, right associativity).

(** [decodeAreaModeFromBankstates(bankstates, areaIndex)]; [areaIndex] is
    already a number at every call site. *)
Definition decodeAreaModeFromBankstates (bankstates : value) (areaIndex : number)
    : result string :=
  if negb (truthy bankstates) then Ok "UNKNOWN"
  else
    let i := areaIndex in
    let mask := shl (Int 1) (rem i (Int 8)) in
    let* stpartial := _hexByteAt bankstates (Int 4) in
    let* starm := _hexByteAt bankstates (Int 6) in
    let* stexit1 := _hexByteAt bankstates (Int 8) in
    let* stexit2 := _hexByteAt bankstates (Int 10) in
    let isExit := number_neqb (band stexit1 mask) (Int 0)
                  || number_neqb (band stexit2 mask) (Int 0) in
    let isAway := number_neqb (band starm mask) (Int 0) in
    let isStay := number_neqb (band stpartial mask) (Int 0) in
    if isAway then Ok "AWAY"
    else if isStay then Ok "STAY"
    else if negb isExit then Ok "DISARMED"
    else Ok "DISARMED".

Definition getZoneStateBanks (bankstates : value) : value := bankstates.

(** [isZoneOpenFromBanks(bankstates, zoneNumber, zoneOpenBank, zoneOpenWhenSet)] *)
Definition isZoneOpenFromBanks (bankstates : value) (zoneNumber zoneOpenBank : number)
    (zoneOpenWhenSet : bool) : result bool :=
  if negb (truthy bankstates) then Ok false
  else
    let z := zoneNumber in
    let zi := sub z (Int 1) in
    let mask := shl (Int 1) (rem zi (Int 8)) in
    let byteStart :=
      add (mul (Int 2) (floorDiv zi (Int 8))) (mul zoneOpenBank (Int 0)) in
    let* byte := _hexByteAt bankstates byteStart in
    let bitSet := number_neqb (band byte mask) (Int 0) in
    Ok (if zoneOpenWhenSet then bitSet else negb bitSet).

(** *** Login page and session token recognition *)

Definition looksLikeLoginHtml (text : string) : bool :=
  if negb (truthyStr text) then false
  else
    let t := toLowerCase text in
    includes t "xgen :: secure network"
    || includes t "/login.htm"
    || includes t "lgname"
    || includes t "lgpin".

(** Case folding of the [/i] flag: only ASCII letters fold onto ASCII. *)
Definition foldCase (c : ascii) : ascii :=
  let n := code c in
  if (97 <=? n) && (n <=? 122) then ascii_of_nat (Z.to_nat (n - 32)) else c.

(** One literal pattern character at the head of the text. *)
Definition eatChar (p : ascii) (s : string) : option string :=
  match s with
  | String c s' => if Ascii.eqb (foldCase c) (foldCase p) then Some s' else None
  | EmptyString => None
  end.

Fixpoint eatLit (lit s : string) : option string :=
  match lit with
  | EmptyString => Some s
  | String p lit' => s' ← eatChar p s; eatLit lit' s'
  end.

(** [[A-F0-9]{n}] under [/i]: the digits and the rest of the text. *)
Fixpoint eatHex (n : nat) (s : string) : option (string * string) :=
  match n with
  | O => Some (EmptyString, s)
  | S n' =>
      match s with
      | String c s' =>
          if isHexDigit c
          then '(digits, rest) ← eatHex n' s'; Some (String c digits, rest)
          else None
      | EmptyString => None
      end
  end.

Definition dquote : ascii := ascii_of_nat 34.

(** An optional double quote, greedy.  Skipping a quote that is there cannot
    help, since a quote is no hex digit. *)
Definition eatOptQuote (s : string) : string :=
  match eatChar dquote s with
  | Some s' => s'
  | None => s
  end.

(** The first pattern of [extractSessFromHtml], anchored at the head of the
    text: getSession() { return Q<16 hex digits>Q ; } with optional white
    space between the tokens, Q the double quote, letters in either case.
    Each run of white space is followed by a character that is not white
    space, so taking the whole run is the only way to match. *)
Definition matchGetSession (s : string) : option string :=
  s ← eatLit "getSession()" s;
  s ← eatLit "{" (trimStart s);
  s ← eatLit "return" (trimStart s);
  s ← eatChar dquote (trimStart s);
  '(tok, s) ← eatHex 16 s;
  s ← eatChar dquote s;
  s ← eatLit ";" (trimStart s);
  _ ← eatLit "}" (trimStart s);
  Some tok.

(** The fallback pattern, anchored at the head of the text:
    sess = Q<16 hex digits>Q with both quotes optional. *)
Definition matchSessAssign (s : string) : option string :=
  s ← eatLit "sess" s;
  s ← eatLit "=" (trimStart s);
  '(tok, _) ← eatHex 16 (eatOptQuote (trimStart s));
  Some tok.

(** [html.match(re)]: the leftmost position where the pattern matches. *)
Fixpoint search (anchored : string -> option string) (s : string) : option string :=
  match anchored s with
  | Some tok => Some tok
  | None =>
      match s with
      | String _ s' => search anchored s'
      | EmptyString => None
      end
  end.

Definition extractSessFromHtml (html : string) : option string :=
  if negb (truthyStr html) then None
  else
    match search matchGetSession html with
    | Some m1 => Some m1
    | None =>
        match search matchSessAssign html with
        | Some m2 => Some m2
        | None => None
        end
    end.

(** *** Request framing *)

(** [String(n)] for the numbers of the model: the digits of an integer that
    a double holds exactly (up to 2^53 either way).  For larger integers
    [String] rounds the digits and, from 1e21 on, writes an exponent, which
    this definition does not. *)
Definition numberToString (n : number) : string :=
  match n with
  | NaN => "NaN"
  | Int z => Stdlib.Numbers.DecimalString.NilZero.string_of_int (Z.to_int z)
  end.

Definition isUnreserved (c : ascii) : bool :=
  let n := code c in
  ((48 <=? n) && (n <=? 57)) || ((65 <=? n) && (n <=? 90))
  || ((97 <=? n) && (n <=? 122))
  || includes "-_.!~*'()" (String c EmptyString).

Definition hexChar (n : Z) : ascii :=
  match String.get (Z.to_nat n) "0123456789ABCDEF" with
  | Some c => c
  | None => "0"%char
  end.

Definition percent (byte : Z) : string :=
  String "%" (String (hexChar (byte / 16)) (String (hexChar (byte mod 16)) EmptyString)).

(** [encodeURIComponent]: unreserved characters stay, every other code unit
    is written as the escaped bytes of its UTF-8 form. *)
Fixpoint encodeURIComponent (s : string) : string :=
  match s with
  | String c s' =>
      let n := code c in
      (if isUnreserved c then String c EmptyString
       else if n <? 128 then percent n
       else percent (192 + n / 64) ++ percent (128 + n mod 64))
      ++ encodeURIComponent s'
  | EmptyString => EmptyString
  end.

(** The fields of [this]; [host], [username] and [pin] come from the
    configuration.  Of [host] the source reads the truth value before it
    writes it into a URL, so a missing host is the empty string here; a
    missing user name or pin goes through [encodeURIComponent], which reads
    it as the text undefined.  [loggingIn] is kept by the event-loop view
    below: along one call that nothing interleaves with it is null on entry
    and null again on exit. *)
Record api : Type := {
  host : string;
  username : string;
  pin : string;
  sess : option string
}.

Definition setSess (v : option string) (a : api) : api :=
  {| host := host a; username := username a; pin := pin a; sess := v |}.

(** [if (this.sess)] *)
Definition hasSess (a : api) : bool :=
  match sess a with
  | Some s => truthyStr s
  | None => false
  end.

(** [String(this.sess)] inside a template *)
Definition sessString (a : api) : string :=
  match sess a with
  | Some s => s
  | None => "null"
  end.

Definition baseUrl (path : string) : M api string :=
  a <- get ;;
  if negb (truthyStr (host a)) then throw HostUndefined
  else ret ("http://" ++ host a ++ path).

(** The body of the async closure of [login], up to its [fetch]... *)
Definition loginRequest : M api httpRequest :=
  modify (setSess None) ;;
  url <- baseUrl "/login.cgi" ;;
  a <- get ;;
  let body := "lgname=" ++ encodeURIComponent (username a)
              ++ "&lgpin=" ++ encodeURIComponent (pin a) in
  ret {| url := url; httpMethod := "POST"; body := Some body |}.

(** ... and from the text of the response on. *)
Definition loginFinish (text : string) : M api unit :=
  match extractSessFromHtml text with
  | None =>
      if looksLikeLoginHtml text then throw LoginNotAccepted
      else throw LoginNoSess
  | Some s =>
      modify (setSess (Some s)) ;;
      emit (LogInfo ("[Reliance XR] Logged in successfully. sess=" ++ s))
  end.

(** *** One call at a time

    The state is [this] and the world; the awaits of a call are taken at
    once, in program order. *)

Definition X : Type := api * world.

Definition liftApi {A} (m : M api A) : M X A :=
  fun x =>
    let o := m (fst x) in
    {| res := res o; post := (post o, snd x); emitted := emitted o |}.

Definition answer (w : world) : reply := net w (served w).

Definition consume (w : world) : world :=
  {| net := net w; served := S (served w); now := now w;
     pending := pending w; nextTimer := nextTimer w |}.

(** [await this.fetch(url, ...)] followed by [await res.text()] *)
Definition fetch (req : httpRequest) : M X string :=
  fun x =>
    {| res := match answer (snd x) with
              | Body text => Ok text
              | Unreachable msg => Throw (TransportError msg)
              end;
       post := (fst x, consume (snd x));
       emitted := [Fetch req] |}.

(** [login()] with no other login under way: the marker is null, the
    closure runs from its beginning to its end, and [finally] leaves the
    marker null again. *)
Definition login : M X unit :=
  req <- liftApi loginRequest ;;
  text <- fetch req ;;
  liftApi (loginFinish text).

Definition ensureLoggedIn : M X unit :=
  a <- liftApi get ;;
  if hasSess a then ret tt else login.

(** [if (data)] *)
Definition hasData (data : option string) : bool :=
  match data with
  | Some d => truthyStr d
  | None => false
  end.

Definition withSess (a : api) (data : option string) : string :=
  let field := "sess=" ++ encodeURIComponent (sessString a) in
  match data with
  | Some d => if truthyStr d then field ++ "&" ++ d else field
  | None => field
  end.

(** The method and body [request] settles on: anything but a GET carries
    the session field, and so does a GET with data, which becomes a POST. *)
Definition frame (a : api) (url method : string) (data : option string)
    : httpRequest :=
  if negb (String.eqb method "GET")
  then {| url := url; httpMethod := method; body := Some (withSess a data) |}
  else if hasData data
  then {| url := url; httpMethod := "POST"; body := Some (withSess a data) |}
  else {| url := url; httpMethod := method; body := None |}.

Section Request.
Context `{Runtime}.

(** What follows the login-page test in [request]. *)
Definition parseResponse (path text : string) (expectJson : bool) : M X value :=
  if negb expectJson then ret (VStr text)
  else
    match JSON_parse text with
    | None => throw (InvalidJSON path (slice0 text 120))
    | Some parsed =>
        if truthy parsed
        then
          perr <- liftResult (getField parsed "error") ;;
          if truthy perr then throw (PanelError path (JSON_stringify perr))
          else ret parsed
        else ret parsed
    end.

(** [request(path, { method, data, expectJson, retry })].  The flag [retry]
    is the number of retries left: one when it is set, none when it is not;
    the recursive call passes [retry: false]. *)
Fixpoint requestN (retries : nat) (path method : string) (data : option string)
    (expectJson : bool) : M X value :=
  ensureLoggedIn ;;
  url <- liftApi (baseUrl path) ;;
  a <- liftApi get ;;
  text <- fetch (frame a url method data) ;;
  match retries with
  | S retries' =>
      if looksLikeLoginHtml text
      then
        emit (LogWarn ("[Reliance XR] Session/login HTML returned for " ++ path
                       ++ ". Re-logging in and retrying...")) ;;
        emit (Sleep 200) ;;
        login ;;
        requestN retries' path method data expectJson
      else parseResponse path text expectJson
  | O => parseResponse path text expectJson
  end.

Definition request (path method : string) (data : option string)
    (expectJson retry : bool) : M X value :=
  requestN (if retry then 1%nat else 0%nat) path method data expectJson.

Definition status (areaIndex : number) : M X value :=
  request "/user/status.json" "POST"
    (Some ("arsel=" ++ encodeURIComponent (numberToString areaIndex)))
    true true.

Definition keyFunction (fnum areaIndex : number) : M X value :=
  let i := areaIndex in
  let mask := shl (Int 1) (rem i (Int 8)) in
  let start := floorDiv i (Int 8) in
  request "/user/keyfunction.cgi" "POST"
    (Some ("fnum=" ++ encodeURIComponent (numberToString fnum)
           ++ "&start=" ++ encodeURIComponent (numberToString start)
           ++ "&mask=" ++ encodeURIComponent (numberToString mask)))
    true true.

End Request.

End XRApi.

(* ===================================================================== *)
(** ** class RelianceXRPlatform *)
(* ===================================================================== *)

Module Platform.
Import JS.

(** The fields of [this] that the poll cycle reads or writes.  A service
    field is [None] while it is null. *)
Record platform : Type := {
  (* configuration *)
  areaIndex : number;
  rollerDoorName : string;
  rollerDoorZone : number;
  zoneOpenBank : number;
  zoneOpenWhenSet : bool;
  enableEventNotifications : bool;
  eventPulseMs : number;
  (* internals *)
  xr : XRApi.api;
  securityService : option Hap.service;
  garageService : option Hap.service;
  alarmEventService : option Hap.service;
  doorEventService : option Hap.service;
  cachedMode : string;
  cachedDoorOpen : option bool;
  _eventResetTimers : gmap string nat
}.

Definition setXr (v : XRApi.api) (p : platform) : platform :=
  {| areaIndex := areaIndex p; rollerDoorName := rollerDoorName p;
     rollerDoorZone := rollerDoorZone p; zoneOpenBank := zoneOpenBank p;
     zoneOpenWhenSet := zoneOpenWhenSet p;
     enableEventNotifications := enableEventNotifications p;
     eventPulseMs := eventPulseMs p; xr := v;
     securityService := securityService p; garageService := garageService p;
     alarmEventService := alarmEventService p;
     doorEventService := doorEventService p;
     cachedMode := cachedMode p; cachedDoorOpen := cachedDoorOpen p;
     _eventResetTimers := _eventResetTimers p |}.

Definition setCachedMode (v : string) (p : platform) : platform :=
  {| areaIndex := areaIndex p; rollerDoorName := rollerDoorName p;
     rollerDoorZone := rollerDoorZone p; zoneOpenBank := zoneOpenBank p;
     zoneOpenWhenSet := zoneOpenWhenSet p;
     enableEventNotifications := enableEventNotifications p;
     eventPulseMs := eventPulseMs p; xr := xr p;
     securityService := securityService p; garageService := garageService p;
     alarmEventService := alarmEventService p;
     doorEventService := doorEventService p;
     cachedMode := v; cachedDoorOpen := cachedDoorOpen p;
     _eventResetTimers := _eventResetTimers p |}.

Definition setCachedDoorOpen (v : option bool) (p : platform) : platform :=
  {| areaIndex := areaIndex p; rollerDoorName := rollerDoorName p;
     rollerDoorZone := rollerDoorZone p; zoneOpenBank := zoneOpenBank p;
     zoneOpenWhenSet := zoneOpenWhenSet p;
     enableEventNotifications := enableEventNotifications p;
     eventPulseMs := eventPulseMs p; xr := xr p;
     securityService := securityService p; garageService := garageService p;
     alarmEventService := alarmEventService p;
     doorEventService := doorEventService p;
     cachedMode := cachedMode p; cachedDoorOpen := v;
     _eventResetTimers := _eventResetTimers p |}.

Definition setTimers (v : gmap string nat) (p : platform) : platform :=
  {| areaIndex := areaIndex p; rollerDoorName := rollerDoorName p;
     rollerDoorZone := rollerDoorZone p; zoneOpenBank := zoneOpenBank p;
     zoneOpenWhenSet := zoneOpenWhenSet p;
     enableEventNotifications := enableEventNotifications p;
     eventPulseMs := eventPulseMs p; xr := xr p;
     securityService := securityService p; garageService := garageService p;
     alarmEventService := alarmEventService p;
     doorEventService := doorEventService p;
     cachedMode := cachedMode p; cachedDoorOpen := cachedDoorOpen p;
     _eventResetTimers := v |}.

Definition setServices (sec gar alarm door : option Hap.service) (p : platform)
    : platform :=
  {| areaIndex := areaIndex p; rollerDoorName := rollerDoorName p;
     rollerDoorZone := rollerDoorZone p; zoneOpenBank := zoneOpenBank p;
     zoneOpenWhenSet := zoneOpenWhenSet p;
     enableEventNotifications := enableEventNotifications p;
     eventPulseMs := eventPulseMs p; xr := xr p;
     securityService := sec; garageService := gar;
     alarmEventService := alarm; doorEventService := door;
     cachedMode := cachedMode p; cachedDoorOpen := cachedDoorOpen p;
     _eventResetTimers := _eventResetTimers p |}.

(** The state of a call: [this] and the world. *)
Definition P : Type := platform * world.

Definition getThis : M P platform :=
  fun s => {| res := Ok (fst s); post := s; emitted := [] |}.

Definition modifyThis (f : platform -> platform) : M P unit :=
  modify (fun s : P => (f (fst s), snd s)).

(** A call into [this.xr]. *)
Definition liftXr {A} (m : M XRApi.X A) : M P A :=
  fun s =>
    let o := m (xr (fst s), snd s) in
    {| res := res o;
       post := (setXr (fst (post o)) (fst s), snd (post o));
       emitted := emitted o |}.

(** *** Node timers *)

(** The delay Node gives a timer: the argument when it lies in
    [1, 2^31 - 1], one millisecond otherwise. *)
Definition timerDelay (ms : number) : Z :=
  match ms with
  | Int z => if (1 <=? z) && (z <=? 2147483647) then z else 1
  | NaN => 1
  end.

(** [setTimeout(cb, ms)] returns the handle of the new timer. *)
Definition setTimeout (cb : callback) (ms : number) : M P nat :=
  fun s =>
    let w := snd s in
    let t := {| tid := nextTimer w; due := now w + timerDelay ms; action := cb |} in
    {| res := Ok (nextTimer w);
       post := (fst s,
                {| net := net w; served := served w; now := now w;
                   pending := pending w ++ [t];
                   nextTimer := S (nextTimer w) |});
       emitted := [SetTimeout (nextTimer w) (timerDelay ms)] |}.

Definition cancel (id : nat) (ts : list timer) : list timer :=
  filter (fun t => tid t ≠ id) ts.

(** [clearTimeout(handle)] *)
Definition clearTimeout (id : nat) : M P unit :=
  fun s =>
    let w := snd s in
    {| res := Ok tt;
       post := (fst s,
                {| net := net w; served := served w; now := now w;
                   pending := cancel id (pending w);
                   nextTimer := nextTimer w |});
       emitted := [ClearTimeout id] |}.

(** *** Notifications and level state *)

Definition pulseMotion (service : option Hap.service) (key : string) : M P unit :=
  match service with
  | None => ret tt
  | Some svc =>
      emit (UpdateCharacteristic svc Hap.MotionDetected (Hap.Motion true)) ;;
      this <- getThis ;;
      match _eventResetTimers this !! key with
      | Some existing => clearTimeout existing
      | None => ret tt
      end ;;
      t <- setTimeout (ResetMotion svc key) (eventPulseMs this) ;;
      modifyThis (fun p => setTimers (<[key := t]> (_eventResetTimers p)) p)
  end.

(** The closure handed to [setTimeout] in [pulseMotion], when it runs. *)
Definition runCallback (cb : callback) : M P unit :=
  match cb with
  | ResetMotion svc key =>
      emit (UpdateCharacteristic svc Hap.MotionDetected (Hap.Motion false)) ;;
      modifyThis (fun p => setTimers (delete key (_eventResetTimers p)) p)
  end.

Definition setMode (mode : string) : M P unit :=
  let mode := if negb (truthyStr mode) then "UNKNOWN" else mode in
  this <- getThis ;;
  if String.eqb mode (cachedMode this) then ret tt
  else
    modifyThis (setCachedMode mode) ;;
    emit (LogInfo ("[Reliance XR] MODE CHANGED => " ++ mode)) ;;
    pulseMotion (alarmEventService this) "alarm" ;;
    match securityService this with
    | None => ret tt
    | Some svc =>
        let cur :=
          if String.eqb mode "DISARMED" then Hap.DISARMED
          else if String.eqb mode "STAY" then Hap.STAY_ARM
          else if String.eqb mode "AWAY" then Hap.AWAY_ARM
          else Hap.DISARMED in
        let tgt :=
          if String.eqb mode "DISARMED" then Hap.DISARM
          else if String.eqb mode "STAY" then Hap.STAY_ARM
          else if String.eqb mode "AWAY" then Hap.AWAY_ARM
          else Hap.DISARM in
        emit (UpdateCharacteristic svc Hap.SecuritySystemCurrentState cur) ;;
        emit (UpdateCharacteristic svc Hap.SecuritySystemTargetState tgt) ;;
        emit (UpdateCharacteristic svc Hap.StatusFault Hap.NO_FAULT)
    end.

(** [this.cachedDoorOpen === isOpen]: null equals no boolean. *)
Definition sameDoor (cached : option bool) (isOpen : bool) : bool :=
  match cached with
  | Some b => Bool.eqb b isOpen
  | None => false
  end.

Definition setGarageOpen (isOpen : bool) : M P unit :=
  this <- getThis ;;
  if sameDoor (cachedDoorOpen this) isOpen then ret tt
  else
    modifyThis (setCachedDoorOpen (Some isOpen)) ;;
    emit (LogInfo ("[Reliance XR] " ++ rollerDoorName this ++ " => "
                   ++ (if isOpen then "OPEN" else "CLOSED"))) ;;
    pulseMotion (doorEventService this) "door" ;;
    match garageService this with
    | None => ret tt
    | Some svc =>
        let cur := if isOpen then Hap.OPEN else Hap.CLOSED in
        let tgt := if isOpen then Hap.OPEN else Hap.CLOSED in
        emit (UpdateCharacteristic svc Hap.CurrentDoorState cur) ;;
        emit (UpdateCharacteristic svc Hap.TargetDoorState tgt)
    end.

(** *** The poll cycle *)

(** [this.rollerDoorZone && this.rollerDoorZone > 0] *)
Definition doorConfigured (p : platform) : bool :=
  match rollerDoorZone p with
  | Int z => negb (z =? 0) && (0 <? z)
  | NaN => false
  end.

Section Poll.
Context `{Runtime}.

Definition pollOnce : M P unit :=
  this <- getThis ;;
  a <- liftXr (XRApi.status (areaIndex this)) ;;
  bankstates <- liftResult (getField a "bankstates") ;;
  mode <- liftResult (XRApi.decodeAreaModeFromBankstates bankstates (areaIndex this)) ;;
  setMode mode ;;
  if doorConfigured this
  then
    let banks := XRApi.getZoneStateBanks bankstates in
    isOpen <- liftResult (XRApi.isZoneOpenFromBanks banks (rollerDoorZone this)
                            (zoneOpenBank this) (zoneOpenWhenSet this)) ;;
    setGarageOpen isOpen
  else ret tt.

(** [e.message || e] for the errors the client raises with a message of
    its own.  The message of a [TypeError] is the engine's and is not
    modelled, and an empty message makes the source fall back on the error
    itself; no statement below reads the text in those two cases. *)
Definition message (e : error) : string :=
  match e with
  | HostUndefined =>
      "XRApi: host is undefined. Check your config.json "
      ++ String XRApi.dquote "host" ++ String XRApi.dquote
           " value and that the plugin is loading."
  | LoginNotAccepted =>
      "Login not accepted (panel returned login page again). "
      ++ "Check username/pin AND that this user has web/area permissions."
  | LoginNoSess => "Login failed (no sess token found in HTML)."
  | InvalidJSON path snippet => "Invalid JSON from " ++ path ++ ": " ++ snippet
  | PanelError path payload => "Panel error response from " ++ path ++ ": " ++ payload
  | TransportError msg => msg
  | TypeError => "TypeError"
  end.

(** The catch block of [pollOnceSafe]. *)
Definition onPollError (e : error) : M P unit :=
  emit (LogWarn ("[Reliance XR] Poll error: " ++ message e)) ;;
  modifyThis (fun p => setXr (XRApi.setSess None (xr p)) p) ;;
  this <- getThis ;;
  match securityService this with
  | Some svc => emit (UpdateCharacteristic svc Hap.StatusFault Hap.GENERAL_FAULT)
  | None => ret tt
  end.

Definition pollOnceSafe : M P unit := tryCatch pollOnce onPollError.

End Poll.

(** The service fields after a run of [setupAccessories] in which no call
    of the HAP library raises: [getService(..) || addService(..)] then
    yields the service, the two event sensors exist only with
    [enableEventNotifications], the door services only with a door zone.
    (A run in which [addService] raises, as it does on a cached accessory
    that holds the sensor under another name, is not this definition; the
    start-up callback below takes the set-up as a parameter for that
    reason.) *)
Definition setupAccessories : M P unit :=
  this <- getThis ;;
  let events := enableEventNotifications this in
  modifyThis (setServices (Some Hap.SecuritySystem) (garageService this)
                (if events then Some Hap.AlarmEvents else alarmEventService this)
                (doorEventService this)) ;;
  (if events
   then emit (UpdateCharacteristic Hap.AlarmEvents Hap.MotionDetected (Hap.Motion false))
   else ret tt) ;;
  if doorConfigured this
  then
    this <- getThis ;;
    modifyThis (setServices (securityService this) (Some Hap.GarageDoorOpener)
                  (alarmEventService this)
                  (if events then Some Hap.DoorEvents else doorEventService this)) ;;
    if events
    then emit (UpdateCharacteristic Hap.DoorEvents Hap.MotionDetected (Hap.Motion false))
    else ret tt
  else ret tt.

(** *** Time passing between calls *)

(** The pending timer that expires first; among equals, the older one. *)
Fixpoint earliest (ts : list timer) : option timer :=
  match ts with
  | [] => None
  | t :: ts' =>
      match earliest ts' with
      | Some t' => if due t' <? due t then Some t' else Some t
      | None => Some t
      end
  end.

Definition setClock (time : Z) (ts : list timer) (w : world) : world :=
  {| net := net w; served := served w; now := time;
     pending := ts; nextTimer := nextTimer w |}.

(** Runs the timers that expire up to [until], in order of expiry. *)
Fixpoint runTimers (fuel : nat) (until : Z) : M P unit :=
  fun s =>
    let w := snd s in
    match fuel, earliest (pending w) with
    | S fuel', Some t =>
        if due t <=? until
        then
          let w' := setClock (Z.max (now w) (due t)) (cancel (tid t) (pending w)) w in
          (runCallback (action t) ;; runTimers fuel' until) (fst s, w')
        else ret tt (fst s, setClock until (pending w) w)
    | _, _ => ret tt (fst s, setClock until (pending w) w)
    end.

(** [dt] milliseconds go by with no call in progress.  A callback of this
    program starts no timer, so one round per pending timer is enough. *)
Definition advance (dt : Z) : M P unit :=
  fun s => runTimers (length (pending (snd s))) (now (snd s) + dt) s.

End Platform.

(* ===================================================================== *)
(** ** The event loop around [login] *)
(* ===================================================================== *)

(** Several calls of [ensureLoggedIn] can be under way at once: an async
    function runs up to its first pending [await] and gives the thread back.
    This module follows [this.loggingIn] through such a run.  A task calls
    [ensureLoggedIn] some number of times; when a task ends, the microtasks
    run to completion before the next task starts. *)
Module Flight.
Import XRApi.

(** The promise of the async closure of [login]. *)
Inductive promise : Type :=
  | Pending
  | Settled (r : result unit).

(** The promise a caller of [ensureLoggedIn] holds. *)
Inductive caller : Type :=
  | Waiting
  | Returned (r : result unit).

Record loop : Type := {
  this : api;
  loggingIn : option promise;            (* null, or the closure's promise *)
  callers : list caller                   (* oldest first *)
}.

Definition setThis (a : api) (l : loop) : loop :=
  {| this := a; loggingIn := loggingIn l; callers := callers l |}.

Definition setLoggingIn (p : option promise) (l : loop) : loop :=
  {| this := this l; loggingIn := p; callers := callers l |}.

Definition addCaller (c : caller) (l : loop) : loop :=
  {| this := this l; loggingIn := loggingIn l; callers := callers l ++ [c] |}.

(** Runs a piece of the closure on [this]. *)
Definition onThis {A} (m : M api A) : M loop (result A) :=
  fun l =>
    let o := m (this l) in
    {| res := Ok (res o); post := setThis (post o) l; emitted := emitted o |}.

(** [login()], as far as it runs at once.  With the marker set it returns
    the marked promise.  Otherwise the closure starts: it clears the token
    and either sends the login request and waits for the answer, or has
    thrown already; its promise becomes the marker, and the caller waits. *)
Definition login : M loop unit :=
  l <- get ;;
  match loggingIn l with
  | Some _ => ret tt
  | None =>
      r <- onThis loginRequest ;;
      match r with
      | Ok req => emit (Fetch req) ;; modify (setLoggingIn (Some Pending))
      | Throw e => modify (setLoggingIn (Some (Settled (Throw e))))
      end
  end.

(** One call of [ensureLoggedIn()]. *)
Definition ensureLoggedIn : M loop unit :=
  l <- get ;;
  if hasSess (this l) then modify (addCaller (Returned (Ok tt)))
  else login ;; modify (addCaller Waiting).

(** The panel answers the login request: the closure runs to its end and
    its promise settles. *)
Definition answerLogin (r : reply) : M loop unit :=
  l <- get ;;
  match loggingIn l with
  | Some Pending =>
      match r with
      | Body text =>
          r <- onThis (loginFinish text) ;;
          modify (setLoggingIn (Some (Settled r)))
      | Unreachable msg =>
          modify (setLoggingIn (Some (Settled (Throw (TransportError msg)))))
      end
  | _ => ret tt
  end.

Definition settle (r : result unit) (c : caller) : caller :=
  match c with
  | Waiting => Returned r
  | Returned r' => Returned r'
  end.

(** The microtasks: once the marked promise has settled, the call that
    started the closure passes its [await] and its [finally] clears the
    marker; every waiting caller gets the promise's outcome. *)
Definition drain : M loop unit :=
  l <- get ;;
  match loggingIn l with
  | Some (Settled r) =>
      modify (fun l => {| this := this l; loggingIn := None;
                          callers := map (settle r) (callers l) |})
  | _ => ret tt
  end.

Fixpoint times (n : nat) (m : M loop unit) : M loop unit :=
  match n with
  | O => ret tt
  | S n' => m ;; times n' m
  end.

Inductive event : Type :=
  | Calls (n : nat)          (* a task that calls ensureLoggedIn n times *)
  | Answer (r : reply).      (* the task that delivers the panel's answer *)

Definition step (e : event) : M loop unit :=
  match e with
  | Calls n => times n ensureLoggedIn ;; drain
  | Answer r => answerLogin r ;; drain
  end.

Fixpoint run (es : list event) : M loop unit :=
  match es with
  | [] => ret tt
  | e :: es' => step e ;; run es'
  end.

(** The login requests among the effects. *)
Definition isFetch (e : effect) : bool :=
  match e with Fetch _ => true | _ => false end.

Definition attempts (es : list effect) : nat := length (filter isFetch es).


End Flight.

(* ===================================================================== *)
(** ** The accessory cache and the callbacks of the platform *)
(* ===================================================================== *)

(** [configureAccessory] and [getOrCreateAccessory] of class
    RelianceXRPlatform, on the array [this.accessories]. *)
Module Accessories.

(** A platform accessory, as far as [getOrCreateAccessory] reads and writes
    it.  Accessories are only ever appended to [this.accessories], so the
    index of an accessory in that array stands for the object. *)
Record accessory : Type := {
  UUID : string;
  displayName : string
}.

Definition rename (name : string) (a : accessory) : accessory :=
  {| UUID := UUID a; displayName := name |}.

(** [this.accessories.find((a) => a.UUID === uuid)], as the index of the
    first match. *)
Fixpoint find (uuid : string) (accs : list accessory) : option nat :=
  match accs with
  | [] => None
  | a :: rest => if String.eqb (UUID a) uuid then Some 0%nat else S <$> find uuid rest
  end.

Section Cache.
(** [UUIDGen.generate] of the HAP library. *)
Variable generate : string -> string.

Definition configureAccessory (acc : accessory) : M (list accessory) unit :=
  modify (fun accs => (accs ++ [acc])%list).

(** [getOrCreateAccessory(displayName, stableId)] returns the accessory and
    [isNew]. *)
Definition getOrCreateAccessory (name stableId : string)
    : M (list accessory) (nat * bool) :=
  let uuid := generate stableId in
  accs <- get ;;
  match find uuid accs with
  | Some existing =>
      modify (alter (rename name) existing) ;;
      ret (existing, false)
  | None =>
      modify (fun accs => (accs ++ [{| UUID := uuid; displayName := name |}])%list) ;;
      ret (length accs, true)
  end.

End Cache.

End Accessories.

(** The handler of the target state and the callback of
    [didFinishLaunching]. *)
Module Lifecycle.
Import JS Platform.

(** The members of [Characteristic.SecuritySystemTargetState] that the
    handler compares with; the HAP library gives them their values. *)
Record SecuritySystemTargetState : Type := {
  DISARM : Z;
  STAY_ARM : Z;
  AWAY_ARM : Z
}.

(** [value === n] for a number [n] *)
Definition strictEq (v : value) (n : Z) : bool :=
  match v with
  | VNum m => number_eqb m (Int n)
  | _ => false
  end.


Section Handlers.
Context `{Runtime}.
Variable target : SecuritySystemTargetState.

Definition handleSecurityTargetSet (v : value) : M P unit :=
  this <- getThis ;;
  if strictEq v (DISARM target)
  then
    emit (LogInfo "[Reliance XR] Sending keyFunction fnum=0") ;;
    liftXr (XRApi.keyFunction (Int 0) (areaIndex this)) ;;
    ret tt
  else if strictEq v (STAY_ARM target)
  then
    emit (LogInfo "[Reliance XR] Sending keyFunction fnum=1") ;;
    liftXr (XRApi.keyFunction (Int 1) (areaIndex this)) ;;
    ret tt
  else if strictEq v (AWAY_ARM target)
  then
    emit (LogInfo "[Reliance XR] Sending keyFunction fnum=15") ;;
    liftXr (XRApi.keyFunction (Int 15) (areaIndex this)) ;;
    ret tt
  else ret tt.


End Handlers.

End Lifecycle.

(* ===================================================================== *)
(** ** The vocabulary of the properties *)
(* ===================================================================== *)

Module Decoder.
Import JS XRApi.

(** [1 << (areaIndex % 8)] *)
Definition areaMask (areaIndex : number) : number := shl (Int 1) (rem areaIndex (Int 8)).

(** Whether the byte at a character offset has a bit of the mask set. *)
Definition bitAt (blob : string) (offset : Z) (mask : number) : bool :=
  match _hexByteAt (VStr blob) (Int offset) with
  | Ok byte => number_neqb (band byte mask) (Int 0)
  | Throw _ => false
  end.

Definition fullArmBit (blob : string) (areaIndex : number) : bool :=
  bitAt blob 6 (areaMask areaIndex).

Definition partialArmBit (blob : string) (areaIndex : number) : bool :=
  bitAt blob 4 (areaMask areaIndex).

Definition exitDelayBit (blob : string) (areaIndex : number) : bool :=
  bitAt blob 8 (areaMask areaIndex) || bitAt blob 10 (areaMask areaIndex).

(** An offset at which the blob has no two characters. *)
Definition outOfRange (blob : string) (offset : number) : Prop :=
  match offset with
  | NaN => True
  | Int z => z < 0 \/ strlen blob < z + 2
  end.

End Decoder.

Module Client.
Import JS XRApi.

(** The requests among the effects, in order. *)
Fixpoint requests (es : list effect) : list httpRequest :=
  match es with
  | [] => []
  | Fetch r :: es' => r :: requests es'
  | _ :: es' => requests es'
  end.

Definition urlOf (a : api) (path : string) : string := "http://" ++ host a ++ path.

(** The request [login] sends for the credentials of [a]. *)
Definition loginForm (a : api) : httpRequest :=
  {| url := urlOf a "/login.cgi"; httpMethod := "POST";
     body := Some ("lgname=" ++ encodeURIComponent (username a)
                   ++ "&lgpin=" ++ encodeURIComponent (pin a)) |}.

(** What [login] throws on a page without a token. *)
Definition loginError (text : string) : error :=
  if looksLikeLoginHtml text then LoginNotAccepted else LoginNoSess.

(** [login], by the answer of the panel. *)
Definition loginOutcome (a : api) (w : world) : outcome X unit :=
  match answer w with
  | Unreachable msg =>
      {| res := Throw (TransportError msg);
         post := (setSess None a, consume w);
         emitted := [Fetch (loginForm a)] |}
  | Body text =>
      match extractSessFromHtml text with
      | Some tok =>
          {| res := Ok tt;
             post := (setSess (Some tok) a, consume w);
             emitted := [Fetch (loginForm a);
                         LogInfo ("[Reliance XR] Logged in successfully. sess=" ++ tok)] |}
      | None =>
          {| res := Throw (loginError text);
             post := (setSess None a, consume w);
             emitted := [Fetch (loginForm a)] |}
      end
  end.

End Client.

Module Reconciler.
Import JS Platform.

(** What the accessory layer gets to see: characteristic updates and the
    timers of a pulse. *)
Definition isNotification (e : effect) : bool :=
  match e with
  | UpdateCharacteristic _ _ _ | SetTimeout _ _ | ClearTimeout _ => true
  | _ => false
  end.

(** The level state of the security system. *)
Definition isSecurityState (e : effect) : bool :=
  match e with
  | UpdateCharacteristic _ Hap.SecuritySystemCurrentState _ => true
  | UpdateCharacteristic _ Hap.SecuritySystemTargetState _ => true
  | _ => false
  end.

(** The mode [setMode] works with: a falsy argument reads UNKNOWN. *)
Definition normalized (mode : string) : string :=
  if negb (truthyStr mode) then "UNKNOWN" else mode.

Definition snapshot (p : platform) : string * option bool :=
  (cachedMode p, cachedDoorOpen p).

Definition settings (p : platform) : number * number * number * bool :=
  (areaIndex p, rollerDoorZone p, zoneOpenBank p, zoneOpenWhenSet p).

(** A call that emits no notification. *)
Definition quiet {S A} (m : M S A) : Prop :=
  forall s, List.filter isNotification (emitted (m s)) = [].

(** What a poll that gets through leaves in the snapshot. *)
Definition decodedInto `{Runtime} (s s' : P) : Prop :=
  exists a b mode,
    res (liftXr (XRApi.status (areaIndex (fst s))) s) = Ok a
    /\ getField a "bankstates" = Ok b
    /\ XRApi.decodeAreaModeFromBankstates b (areaIndex (fst s)) = Ok mode
    /\ cachedMode (fst s') = normalized mode
    /\ if doorConfigured (fst s)
       then exists isOpen,
           XRApi.isZoneOpenFromBanks b (rollerDoorZone (fst s))
             (zoneOpenBank (fst s)) (zoneOpenWhenSet (fst s)) = Ok isOpen
           /\ cachedDoorOpen (fst s') = Some isOpen
       else cachedDoorOpen (fst s') = cachedDoorOpen (fst s).

End Reconciler.

Module SingleFlight.
Import JS XRApi.

(** No call yet. *)
Definition idle (a : api) : Flight.loop :=
  {| Flight.this := a; Flight.loggingIn := None; Flight.callers := [] |}.

(** [k] callers wait for the one login under way. *)
Definition inFlight (a : api) (k : nat) : Flight.loop :=
  {| Flight.this := setSess None a;
     Flight.loggingIn := Some Flight.Pending;
     Flight.callers := repeat Flight.Waiting k |}.

Definition afterCalls (a : api) (k : nat) : Flight.loop :=
  match k with
  | O => idle a
  | S _ => inFlight a k
  end.

(** How the one attempt ends, by the answer of the panel. *)
Definition verdict (r : reply) : result unit :=
  match r with
  | Body text =>
      match extractSessFromHtml text with
      | Some _ => Ok tt
      | None => Throw (Client.loginError text)
      end
  | Unreachable msg => Throw (TransportError msg)
  end.

End SingleFlight.

Module Pulse.
Import JS Platform.

Definition keyOf (t : timer) : string :=
  match action t with ResetMotion _ key => key end.

Definition signalOf (t : timer) : Hap.service :=
  match action t with ResetMotion svc _ => svc end.

(** The pending resets of one key. *)
Definition timersFor (key : string) (ts : list timer) : list timer :=
  filter (fun t => keyOf t = key) ts.

(** The pulse duration in force. *)
Definition pulseMs (s : P) : Z := timerDelay (eventPulseMs (fst s)).

(** The registry and the pending timers agree: a pending reset is the one
    registered under its key, a handle is registered under one key only and
    was handed out earlier, and a handle names one timer. *)
Record registered (s : P) : Prop := {
  reg_pending : forall t, t ∈ pending (snd s) ->
                _eventResetTimers (fst s) !! keyOf t = Some (tid t);
  reg_inj : forall k k' id, _eventResetTimers (fst s) !! k = Some id ->
            _eventResetTimers (fst s) !! k' = Some id -> k = k';
  reg_old : forall k id, _eventResetTimers (fst s) !! k = Some id ->
            (id < nextTimer (snd s))%nat;
  reg_handle : forall t t', t ∈ pending (snd s) -> t' ∈ pending (snd s) ->
               tid t = tid t' -> t = t'
}.

(** The signal [svc] is pulsed under [key] only, as the two call sites of
    [pulseMotion] have it. *)
Definition ownSignal (s : P) (svc : Hap.service) (key : string) : Prop :=
  forall t, t ∈ pending (snd s) -> signalOf t = svc -> keyOf t = key.

(** The timer a pulse starts. *)
Definition pulseTimer (s : P) (svc : Hap.service) (key : string) : timer :=
  {| tid := nextTimer (snd s); due := now (snd s) + pulseMs s;
     action := ResetMotion svc key |}.

Definition cancelOld (old : option nat) (ts : list timer) : list timer :=
  match old with
  | Some id => cancel id ts
  | None => ts
  end.

(** The state in which the callback of [t] has run. *)
Definition fired (t : timer) (s : P) : P :=
  post (runCallback (action t)
          (fst s, setClock (Z.max (now (snd s)) (due t))
                    (cancel (tid t) (pending (snd s))) (snd s))).

(** What the callback of [t] tells the accessory layer. *)
Definition resetOf (t : timer) : effect :=
  UpdateCharacteristic (signalOf t) Hap.MotionDetected (Hap.Motion false).

End Pulse.

(** Bytes of the blob, as the statements about the decoders read them. *)
Module Bytes.
Import JS.

(** The byte written as two hexadecimal digits at a character offset. *)
Definition byteOf (blob : string) (offset : nat) : option Z :=
  match String.get offset blob, String.get (S offset) blob with
  | Some c1, Some c2 =>
      match hexDigit c1, hexDigit c2 with
      | Some v1, Some v2 => Some (16 * v1 + v2)
      | _, _ => None
      end
  | _, _ => None
  end.

(** The bit of a byte that the mask [1 << (areaIndex % 8)] selects: the
    remainder when it is not negative.  A negative remainder puts the mask
    above the byte and selects no bit; [NaN] shifts by 0 and selects bit 0. *)
Definition maskBit (areaIndex : number) : Z :=
  match areaIndex with
  | NaN => 0
  | Int i => Z.rem i 8
  end.

End Bytes.

Module Protocol.
Import JS XRApi.

(** The [error] member that makes a parsed document a panel error: only an
    object has one. *)
Definition panelError (parsed : value) : option value :=
  match parsed with
  | VObj fields =>
      let perr := lookupField "error" fields in
      if truthy perr then Some perr else None
  | _ => None
  end.

(** What [request] makes of a response that is final. *)
Definition reading `{Runtime} (path text : string) (expectJson : bool) : result value :=
  if expectJson
  then
    match JSON_parse text with
    | None => Throw (InvalidJSON path (String.substring 0 120 text))
    | Some parsed =>
        match panelError parsed with
        | Some perr => Throw (PanelError path (JSON_stringify perr))
        | None => Ok parsed
        end
    end
  else Ok (VStr text).

(** What a call into the client leaves alone: the credentials, the panel,
    the clock and the timers.  It only moves on in the answers of the panel. *)
Definition untouched (x x' : X) : Prop :=
  host (fst x') = host (fst x)
  /\ username (fst x') = username (fst x)
  /\ pin (fst x') = pin (fst x)
  /\ net (snd x') = net (snd x)
  /\ now (snd x') = now (snd x)
  /\ pending (snd x') = pending (snd x)
  /\ nextTimer (snd x') = nextTimer (snd x)
  /\ (served (snd x) <= served (snd x'))%nat.

Definition steady {A} (m : M X A) : Prop := forall x, untouched x (post (m x)).

(** A session token as the patterns of [extractSessFromHtml] take it:
    sixteen hexadecimal digits. *)
Definition isToken (tok : string) : bool :=
  (String.length tok =? 16)%nat
  && List.forallb isHexDigit (list_ascii_of_string tok).

(** The numbers that [String] writes out digit by digit as the model does:
    [NaN], and the integers that a double holds exactly, up to 2^53 either
    way.  (Beyond, [String] rounds the digits and, from 1e21 on, writes an
    exponent.) *)
Definition exactNumber (n : number) : Prop :=
  match n with
  | NaN => True
  | Int z => Z.abs z <= 2 ^ 53
  end.

(** How often a character occurs in a text. *)
Fixpoint occurrences (c : ascii) (s : string) : nat :=
  match s with
  | String c' s' => (if Ascii.eqb c c' then 1 else 0) + occurrences c s'
  | EmptyString => 0
  end.

End Protocol.

(** What the accessory layer gets to hear, by kind. *)
Module Watch.
Import JS Platform.

(** The fault flag of the security system. *)
Definition isFault (e : effect) : bool :=
  match e with
  | UpdateCharacteristic _ Hap.StatusFault _ => true
  | _ => false
  end.

(** The traces of a pulse: the motion signal and its timers. *)
Definition isPulse (e : effect) : bool :=
  match e with
  | UpdateCharacteristic _ Hap.MotionDetected _ => true
  | SetTimeout _ _ | ClearTimeout _ => true
  | _ => false
  end.

(** The level state of the door. *)
Definition isDoorState (e : effect) : bool :=
  match e with
  | UpdateCharacteristic _ Hap.CurrentDoorState _ => true
  | UpdateCharacteristic _ Hap.TargetDoorState _ => true
  | _ => false
  end.

(** Everything said about the security system. *)
Definition isSecurityUpdate (e : effect) : bool :=
  match e with
  | UpdateCharacteristic _ Hap.SecuritySystemCurrentState _ => true
  | UpdateCharacteristic _ Hap.SecuritySystemTargetState _ => true
  | UpdateCharacteristic _ Hap.StatusFault _ => true
  | _ => false
  end.

Definition services (p : platform)
    : option Hap.service * option Hap.service * option Hap.service * option Hap.service :=
  (securityService p, garageService p, alarmEventService p, doorEventService p).

(** The timers as the platform and Node hold them. *)
Definition timers (s : P) : gmap string nat * list timer * nat * Z :=
  (_eventResetTimers (fst s), pending (snd s), nextTimer (snd s), now (snd s)).

(** The level state [setMode] reports for a mode. *)
Definition currentStateOf (mode : string) : Hap.setting :=
  if String.eqb mode "STAY" then Hap.STAY_ARM
  else if String.eqb mode "AWAY" then Hap.AWAY_ARM
  else Hap.DISARMED.

Definition targetStateOf (mode : string) : Hap.setting :=
  if String.eqb mode "STAY" then Hap.STAY_ARM
  else if String.eqb mode "AWAY" then Hap.AWAY_ARM
  else Hap.DISARM.

End Watch.

(* ===================================================================== *)
(** ** A panel to try things on *)
(* ===================================================================== *)

Module Scenario.
Import JS XRApi Platform.

Definition q : string := String dquote EmptyString.

(** The page the panel answers with when the session is gone. *)
Definition loginPage : string :=
  "<html><title>xGen :: Secure Network</title><form action=/login.cgi>"
  ++ "<input name=lgname><input name=lgpin></form></html>".

(** The page after a good login. *)
Definition homePage (tok : string) : string :=
  "<script>function getSession(){return " ++ q ++ tok ++ q ++ ";}</script>".

(** The status document for a blob. *)
Definition statusText (blob : string) : string :=
  "{" ++ q ++ "bankstates" ++ q ++ ":" ++ q ++ blob ++ q ++ "}".

Definition statusValue (blob : string) : value := VObj [("bankstates", VStr blob)].

(** Area 0 fully armed; nothing armed; no blob at all. *)
Definition armedBlob : string := "00000001000000000000".
Definition idleBlob : string := "00000000000000000000".

Fixpoint lookupText (text : string) (table : list (string * value)) : option value :=
  match table with
  | (t, v) :: rest => if String.eqb text t then Some v else lookupText text rest
  | [] => None
  end.

(** [JSON.parse] on the documents of this panel; anything else, the pages
    included, is no JSON.  [JSON.stringify] is not reached. *)
Definition runtime : Runtime := {|
  JSON_parse text :=
    lookupText text
      [ (statusText armedBlob, statusValue armedBlob);
        (statusText idleBlob, statusValue idleBlob);
        (statusText "", statusValue "");
        ("{}", VObj []) ];
  JSON_stringify _ := ""
|}.

Definition script (answers : list reply) (n : nat) : reply :=
  nth n answers (Unreachable "ETIMEDOUT").

Definition panel (answers : list reply) : world :=
  {| net := script answers; served := 0; now := 0; pending := []; nextTimer := 0 |}.

Definition loggedOut : api :=
  {| host := "10.0.0.2"; username := "u s"; pin := "1234"; sess := None |}.

Definition loggedIn : api := setSess (Some "AAAAAAAAAAAAAAAA") loggedOut.

(** The panel has dropped the session and drops the next one too. *)
Definition expiredTwice : world :=
  panel [Body loginPage; Body (homePage "0123456789ABCDEF"); Body loginPage].

(** A session that lasts: area 0 armed at the first poll, and then the
    same status again, or a status document without a blob. *)
Definition armedTwice : world :=
  panel [Body (statusText armedBlob); Body (statusText armedBlob)].

Definition armedThenBlank : world :=
  panel [Body (statusText armedBlob); Body "{}"].

(** The platform as its constructor leaves it, with a door on zone 3. *)
Definition constructed (a : api) : platform :=
  {| areaIndex := Int 0; rollerDoorName := "Roller Door";
     rollerDoorZone := Int 3; zoneOpenBank := Int 0; zoneOpenWhenSet := true;
     enableEventNotifications := true; eventPulseMs := Int 1500;
     xr := a;
     securityService := None; garageService := None;
     alarmEventService := None; doorEventService := None;
     cachedMode := "UNKNOWN"; cachedDoorOpen := None;
     _eventResetTimers := ∅ |}.

(** The same after [setupAccessories]. *)
Definition launched (a : api) : platform :=
  {| areaIndex := Int 0; rollerDoorName := "Roller Door";
     rollerDoorZone := Int 3; zoneOpenBank := Int 0; zoneOpenWhenSet := true;
     enableEventNotifications := true; eventPulseMs := Int 1500;
     xr := a;
     securityService := Some Hap.SecuritySystem;
     garageService := Some Hap.GarageDoorOpener;
     alarmEventService := Some Hap.AlarmEvents;
     doorEventService := Some Hap.DoorEvents;
     cachedMode := "UNKNOWN"; cachedDoorOpen := None;
     _eventResetTimers := ∅ |}.

(** Set up, logged in, nothing pending. *)
Definition atRest : P := (launched loggedIn, panel []).

End Scenario.

(** More of the same, for the statements about outages, sensors and
    target states. *)
Module Cases.
Import JS XRApi Platform Scenario.

(** Area 0 armed at the first poll; then the panel is out of reach once,
    and after a new login it reports the same status again. *)
Definition outage : world :=
  panel [Body (statusText armedBlob); Unreachable "ECONNRESET";
         Body (homePage "0123456789ABCDEF"); Body (statusText armedBlob)].

(** The platform after its first poll of that panel. *)
Definition afterFirstPoll : P :=
  post (pollOnceSafe (H := runtime) (launched loggedIn, outage)).

(** The platform with notifications switched off: no event sensor. *)
Definition withoutSensors (a : api) : platform :=
  setServices (Some Hap.SecuritySystem) (Some Hap.GarageDoorOpener) None None
    (launched a).

(** A client whose configuration names no host. *)
Definition noHost : api :=
  {| host := ""; username := "u s"; pin := "1234"; sess := Some "AAAAAAAAAAAAAAAA" |}.

(** The target states as HAP numbers them. *)
Definition hap : Lifecycle.SecuritySystemTargetState :=
  {| Lifecycle.DISARM := 3; Lifecycle.STAY_ARM := 0; Lifecycle.AWAY_ARM := 1 |}.

End Cases.

(* ===================================================================== *)
(** ** Properties *)
(* ===================================================================== *)

Local Open Scope list_scope.

(** Takes a successful chain of pattern pieces apart, piece by piece. *)
Ltac peel E :=
  repeat match type of E with
         | mbind _ ?x = Some _ =>
             let F := fresh "F" in
             destruct x as [? |] eqn:F;
             [cbn [mbind option_bind] in E | discriminate]
         end.

(** *** Calls in general *)

Section Calls.
Context {S : Type}.

Lemma bind_ok {A B} (m : M S A) (k : A -> M S B) (s : S) (a : A) :
  res (m s) = Ok a ->
  bind m k s = {| res := res (k a (post (m s)));
                  post := post (k a (post (m s)));
                  emitted := emitted (m s) ++ emitted (k a (post (m s))) |}.
Proof. intros E. unfold bind. rewrite E. reflexivity. Qed.

Lemma bind_throw {A B} (m : M S A) (k : A -> M S B) (s : S) (e : error) :
  res (m s) = Throw e ->
  bind m k s = {| res := Throw e; post := post (m s); emitted := emitted (m s) |}.
Proof. intros E. unfold bind. rewrite E. reflexivity. Qed.

Lemma bind_silent {A B} (m : M S A) (k : A -> M S B) (s s' : S) (a : A) :
  m s = {| res := Ok a; post := s'; emitted := [] |} -> bind m k s = k a s'.
Proof. intros E. unfold bind. rewrite E. cbn. destruct (k a s'); reflexivity. Qed.

Lemma tryCatch_throw {A} (m : M S A) (h : error -> M S A) (s : S) (e : error) :
  res (m s) = Throw e ->
  res (tryCatch m h s) = res (h e (post (m s)))
  /\ post (tryCatch m h s) = post (h e (post (m s))).
Proof. intros E. unfold tryCatch. rewrite E. split; reflexivity. Qed.

Lemma bind_assoc {A B C} (m : M S A) (k : A -> M S B) (k' : B -> M S C) (s : S) :
  bind (bind m k) k' s = bind m (fun a => bind (k a) k') s.
Proof.
  unfold bind. destruct (res (m s)) as [a | e]; cbn [res post emitted]; [| reflexivity].
  destruct (res (k a (post (m s)))) as [b | e]; cbn [res post emitted]; [| reflexivity].
  rewrite app_assoc. reflexivity.
Qed.


Lemma bind_ret_l {A B} (a : A) (k : A -> M S B) (s : S) :
  bind (ret a) k s = k a s.
Proof. unfold bind, ret. cbn. destruct (k a s); reflexivity. Qed.

Import Reconciler.

Lemma quiet_ret {A} (a : A) : quiet (ret (S := S) a).
Proof. intros s. reflexivity. Qed.

Lemma quiet_throw {A} (e : error) : quiet (throw (S := S) (A := A) e).
Proof. intros s. reflexivity. Qed.

Lemma quiet_liftResult {A} (r : result A) : quiet (liftResult (S := S) r).
Proof. destruct r; [apply quiet_ret | apply quiet_throw]. Qed.

Lemma quiet_get : quiet (get (S := S)).
Proof. intros s. reflexivity. Qed.

Lemma quiet_modify (f : S -> S) : quiet (modify f).
Proof. intros s. reflexivity. Qed.

Lemma quiet_emit (e : effect) : isNotification e = false -> quiet (emit (S := S) e).
Proof. intros E s. cbn. rewrite E. reflexivity. Qed.

Lemma quiet_bind {A B} (m : M S A) (k : A -> M S B) :
  quiet m -> (forall a, quiet (k a)) -> quiet (bind m k).
Proof.
  intros Hm Hk s. unfold bind.
  destruct (res (m s)) as [a | e]; cbn [emitted].
  - rewrite List.filter_app, Hm, Hk. reflexivity.
  - apply Hm.
Qed.

End Calls.

Create HintDb quiet.
#[local] Hint Resolve quiet_ret quiet_throw quiet_liftResult quiet_get quiet_modify
  quiet_bind : quiet.

(** *** The bit-field decoder *)

Section DecoderProofs.
Import JS XRApi Decoder.

Lemma hexByteAt_string (s : string) (i : number) :
  exists n, _hexByteAt (VStr s) i = Ok n.
Proof.
  unfold _hexByteAt.
  destruct (negb _ || negb _); eauto.
Qed.

Lemma truthy_nonempty (s : string) : s <> EmptyString -> truthy (VStr s) = true.
Proof. destruct s; [congruence | reflexivity]. Qed.

(** On a blob that is not empty the decoder reads the two arm bits and
    nothing else. *)
Lemma decode_nonempty (blob : string) (areaIndex : number) :
  blob <> EmptyString ->
  decodeAreaModeFromBankstates (VStr blob) areaIndex =
    Ok (if fullArmBit blob areaIndex then "AWAY"
        else if partialArmBit blob areaIndex then "STAY"
        else "DISARMED")%string.
Proof.
  intros Hne.
  unfold decodeAreaModeFromBankstates, fullArmBit, partialArmBit, bitAt, areaMask.
  rewrite (truthy_nonempty blob Hne). cbn [negb].
  destruct (hexByteAt_string blob (Int 4)) as [b4 ->].
  destruct (hexByteAt_string blob (Int 6)) as [b6 ->].
  destruct (hexByteAt_string blob (Int 8)) as [b8 ->].
  destruct (hexByteAt_string blob (Int 10)) as [b10 ->].
  cbn [resultBind].
  destruct (number_neqb (band b6 _) _); [reflexivity |].
  destruct (number_neqb (band b4 _) _); [reflexivity |].
  destruct (negb _); reflexivity.
Qed.

Lemma decode_string_ok (blob : string) (idx : number) :
  exists mode, decodeAreaModeFromBankstates (VStr blob) idx = Ok mode.
Proof.
  destruct blob as [| c blob]; [exists "UNKNOWN"%string; reflexivity |].
  rewrite decode_nonempty by discriminate. eauto.
Qed.

(** The exit-delay bit alone reads DISARMED. *)
Example decode_exit_delay_only :
  exitDelayBit "00000000400100000000" (Int 0) = true
  /\ decodeAreaModeFromBankstates (VStr "00000000400100000000") (Int 0)
     = Ok "DISARMED"%string.
Proof. split; reflexivity. Qed.

Lemma substring_length (s : string) (n m : nat) :
  String.length (String.substring n m s) = Nat.min m (String.length s - n).
Proof.
  revert n m. induction s as [| c s IH]; intros [| n] [| m];
    cbn [String.substring String.length]; rewrite ?IH; lia.
Qed.

Lemma substring_two (s : string) (n : nat) (c1 c2 : ascii) :
  String.get n s = Some c1 -> String.get (S n) s = Some c2 ->
  String.substring n 2 s = String c1 (String c2 EmptyString).
Proof.
  revert n. induction s as [| c s IH]; intros n H1 H2; [discriminate |].
  destruct n as [| n].
  - cbn [String.get] in H1, H2. injection H1 as ->.
    destruct s as [| c' s']; [discriminate |].
    cbn [String.get] in H2. injection H2 as ->.
    cbn [String.substring]. destruct s'; reflexivity.
  - cbn [String.get] in H1, H2. cbn [String.substring]. apply IH; assumption.
Qed.

Lemma get_some_length (s : string) (n : nat) (c : ascii) :
  String.get n s = Some c -> (n < String.length s)%nat.
Proof.
  revert n. induction s as [| c' s IH]; intros [| n] Hg; simpl in *;
    try discriminate; try lia.
  apply IH in Hg. lia.
Qed.

(** The slice taken by [_hexByteAt] at an offset inside the blob. *)
Lemma slice_in_range (s : string) (z : Z) :
  0 <= z -> z + 2 <= strlen s ->
  substring s (Int z) (add (Int z) (Int 2)) = String.substring (Z.to_nat z) 2 s.
Proof.
  intros Hz Hlen. unfold substring, add, clampIndex.
  replace (Z.min (Z.max 0 (Z.min z (strlen s))) (Z.max 0 (Z.min (z + 2) (strlen s))))
    with z by lia.
  replace (Z.max (Z.max 0 (Z.min z (strlen s))) (Z.max 0 (Z.min (z + 2) (strlen s))))
    with (z + 2) by lia.
  replace (z + 2 - z) with 2 by lia. reflexivity.
Qed.

Lemma slice_out_of_range (s : string) (off : number) :
  outOfRange s off ->
  String.length (substring s off (add off (Int 2))) <> 2%nat.
Proof.
  intros Hout. unfold substring. rewrite substring_length.
  destruct off as [| z]; simpl in *; [lia |].
  unfold strlen in *. lia.
Qed.

Lemma parseInt16_byte (c1 c2 : ascii) (v1 v2 : Z) :
  hexDigit c1 = Some v1 -> hexDigit c2 = Some v2 ->
  parseInt16 (String c1 (String c2 EmptyString)) = Int (16 * v1 + v2).
Proof.
  intros H1 H2.
  destruct c1 as [[] [] [] [] [] [] [] []]; vm_compute in H1; try discriminate;
    injection H1 as <-;
    destruct c2 as [[] [] [] [] [] [] [] []]; vm_compute in H2; try discriminate;
    injection H2 as <-; reflexivity.
Qed.

Lemma parseInt16_no_digit (c1 c2 : ascii) :
  hexDigit c1 = None -> isWhiteSpace c1 = false ->
  c1 <> "+"%char -> c1 <> "-"%char ->
  parseInt16 (String c1 (String c2 EmptyString)) = NaN.
Proof.
  intros Hd Hw Hp Hm.
  destruct c1 as [[] [] [] [] [] [] [] []]; vm_compute in Hd; try discriminate;
    vm_compute in Hw; try discriminate; try congruence; reflexivity.
Qed.

Lemma parseInt16_first_digit (c1 c2 : ascii) (v1 : Z) :
  hexDigit c1 = Some v1 -> hexDigit c2 = None ->
  c2 <> "x"%char -> c2 <> "X"%char ->
  parseInt16 (String c1 (String c2 EmptyString)) = Int v1.
Proof.
  intros H1 H2 Hx HX.
  destruct c1 as [[] [] [] [] [] [] [] []]; vm_compute in H1; try discriminate;
    injection H1 as <-;
    destruct c2 as [[] [] [] [] [] [] [] []]; vm_compute in H2; try discriminate;
    try congruence; reflexivity.
Qed.

Lemma hexByteAt_slice (s : string) (z : Z) (c1 c2 : ascii) :
  0 <= z ->
  String.get (Z.to_nat z) s = Some c1 ->
  String.get (S (Z.to_nat z)) s = Some c2 ->
  _hexByteAt (VStr s) (Int z) = Ok (parseInt16 (String c1 (String c2 EmptyString))).
Proof.
  intros Hz H1 H2. unfold _hexByteAt.
  rewrite slice_in_range; [| assumption |].
  - rewrite (substring_two s _ c1 c2 H1 H2). reflexivity.
  - apply get_some_length in H2. unfold strlen. lia.
Qed.

(** C6, as it fails: the slice zz is no hexadecimal byte, and [_hexByteAt]
    answers NaN for it, not 0. *)
Lemma hexByteAt_malformed_not_zero :
  _hexByteAt (VStr "zz") (Int 0) = Ok NaN
  /\ _hexByteAt (VStr "zz") (Int 0) <> Ok (Int 0).
Proof. split; [reflexivity | discriminate]. Qed.

(** C6, amended.  For every blob and offset: when the two characters at the
    offset are hexadecimal digits, [_hexByteAt] returns the value of the
    byte; when the offset is out of range (negative, not a number, or with
    fewer than two characters left) it returns 0; it never raises; but on two
    characters that are not a hexadecimal byte it returns what [parseInt]
    makes of them and not 0: NaN when the first is neither a digit nor white
    space nor a sign, the value of the first when only the first is a digit
    (and the second no x). *)
Theorem hexByteAt_contract (blob : string) (offset : number) :
  (forall z c1 c2 v1 v2,
      offset = Int z -> 0 <= z ->
      String.get (Z.to_nat z) blob = Some c1 ->
      String.get (S (Z.to_nat z)) blob = Some c2 ->
      hexDigit c1 = Some v1 -> hexDigit c2 = Some v2 ->
      _hexByteAt (VStr blob) offset = Ok (Int (16 * v1 + v2)))
  /\ (outOfRange blob offset -> _hexByteAt (VStr blob) offset = Ok (Int 0))
  /\ (exists n, _hexByteAt (VStr blob) offset = Ok n)
  /\ (forall z c1 c2,
      offset = Int z -> 0 <= z ->
      String.get (Z.to_nat z) blob = Some c1 ->
      String.get (S (Z.to_nat z)) blob = Some c2 ->
      hexDigit c1 = None -> isWhiteSpace c1 = false ->
      c1 <> "+"%char -> c1 <> "-"%char ->
      _hexByteAt (VStr blob) offset = Ok NaN)
  /\ (forall z c1 c2 v1,
      offset = Int z -> 0 <= z ->
      String.get (Z.to_nat z) blob = Some c1 ->
      String.get (S (Z.to_nat z)) blob = Some c2 ->
      hexDigit c1 = Some v1 -> hexDigit c2 = None ->
      c2 <> "x"%char -> c2 <> "X"%char ->
      _hexByteAt (VStr blob) offset = Ok (Int v1)).
Proof.
  repeat split.
  - intros z c1 c2 v1 v2 -> Hz H1 H2 Hv1 Hv2.
    rewrite (hexByteAt_slice blob z c1 c2 Hz H1 H2).
    f_equal. apply parseInt16_byte; assumption.
  - intros Hout. apply slice_out_of_range in Hout.
    unfold _hexByteAt.
    destruct (Nat.eqb_spec (String.length (substring blob offset (add offset (Int 2)))) 2)
      as [E | E]; [contradiction |].
    rewrite orb_true_r. reflexivity.
  - apply hexByteAt_string.
  - intros z c1 c2 -> Hz H1 H2 Hd Hw Hp Hm.
    rewrite (hexByteAt_slice blob z c1 c2 Hz H1 H2).
    f_equal. apply parseInt16_no_digit; assumption.
  - intros z c1 c2 v1 -> Hz H1 H2 Hv1 Hv2 Hx HX.
    rewrite (hexByteAt_slice blob z c1 c2 Hz H1 H2).
    f_equal. apply parseInt16_first_digit; assumption.
Qed.

Lemma hexByteAt_contract_witness :
  _hexByteAt (VStr "00ff1g") (Int 2) = Ok (Int 255)
  /\ _hexByteAt (VStr "00ff1g") (Int 5) = Ok (Int 0)
  /\ _hexByteAt (VStr "00zz") (Int 2) = Ok NaN.
Proof.
  split; [| split].
  - apply (proj1 (hexByteAt_contract "00ff1g" (Int 2)) 2 "f"%char "f"%char 15 15);
      (reflexivity || lia).
  - apply (proj1 (proj2 (hexByteAt_contract "00ff1g" (Int 5)))).
    right. vm_compute. reflexivity.
  - apply (proj1 (proj2 (proj2 (proj2 (hexByteAt_contract "00zz" (Int 2)))))
             2 "z"%char "z"%char);
      (reflexivity || lia || discriminate).
Defined.

(** C7, as it fails: on the empty blob both polarities answer false. *)
Lemma isZoneOpen_empty_blob :
  isZoneOpenFromBanks (VStr "") (Int 1) (Int 0) true = Ok false
  /\ isZoneOpenFromBanks (VStr "") (Int 1) (Int 0) false = Ok false
  /\ false <> negb false.
Proof. repeat split; discriminate. Qed.

(** C7, amended.  For every blob that is not empty, every zone number and
    every bank value, [isZoneOpenFromBanks] with the polarity flag unset is
    the negation of [isZoneOpenFromBanks] with the flag set. *)
Theorem isZoneOpen_polarity (blob : string) (zoneNumber zoneOpenBank : number) :
  blob <> EmptyString ->
  exists bitSet,
    isZoneOpenFromBanks (VStr blob) zoneNumber zoneOpenBank true = Ok bitSet
    /\ isZoneOpenFromBanks (VStr blob) zoneNumber zoneOpenBank false = Ok (negb bitSet).
Proof.
  intros Hne. unfold isZoneOpenFromBanks.
  rewrite (truthy_nonempty blob Hne). cbn [negb].
  match goal with |- context [_hexByteAt (VStr blob) ?i] =>
    destruct (hexByteAt_string blob i) as [byte ->] end.
  cbn [resultBind]. eexists; split; reflexivity.
Qed.

Lemma isZoneOpen_polarity_witness :
  exists bitSet,
    isZoneOpenFromBanks (VStr "0400") (Int 3) (Int 0) true = Ok bitSet
    /\ isZoneOpenFromBanks (VStr "0400") (Int 3) (Int 0) false = Ok (negb bitSet).
Proof. apply (isZoneOpen_polarity "0400" (Int 3) (Int 0)). discriminate. Defined.

(** Once the mode has been decoded, decoding the door zone cannot throw. *)
Lemma decode_ok_zone_ok (b : value) (idx z bank : number) (pol : bool) (mode : string) :
  decodeAreaModeFromBankstates b idx = Ok mode ->
  exists isOpen, isZoneOpenFromBanks b z bank pol = Ok isOpen.
Proof.
  unfold decodeAreaModeFromBankstates, isZoneOpenFromBanks.
  destruct (truthy b); cbn [negb]; [| eauto].
  destruct b; try (cbn; discriminate).
  intros _.
  match goal with |- context [_hexByteAt (VStr s) ?i] =>
    destruct (hexByteAt_string s i) as [byte ->] end.
  cbn. eauto.
Qed.

(** The decoder answers UNKNOWN on a missing or empty blob and on nothing
    else. *)
Lemma decode_unknown_iff (b : value) (idx : number) (mode : string) :
  decodeAreaModeFromBankstates b idx = Ok mode ->
  (mode = "UNKNOWN"%string <-> truthy b = false).
Proof.
  unfold decodeAreaModeFromBankstates.
  destruct (truthy b) eqn:Hb; cbn [negb].
  2: { intros [= <-]. tauto. }
  destruct b; try (cbn; discriminate).
  fold (decodeAreaModeFromBankstates (VStr s) idx) || idtac.
  intros E.
  assert (Hne : s <> EmptyString) by (destruct s; [discriminate | congruence]).
  pose proof (decode_nonempty s idx Hne) as Hd.
  unfold decodeAreaModeFromBankstates in Hd. rewrite Hb in Hd. cbn [negb] in Hd.
  rewrite Hd in E. injection E as <-.
  split; [| discriminate].
  destruct (fullArmBit s idx); [discriminate |].
  destruct (partialArmBit s idx); discriminate.
Qed.

Import Bytes.

(** *** The arm bits, read off the characters of the blob *)

Lemma hexDigit_range (c : ascii) (v : Z) : hexDigit c = Some v -> 0 <= v < 16.
Proof.
  unfold hexDigit. intros E.
  repeat match type of E with
         | (if ?b then _ else _) = _ => destruct b eqn:?
         end; try discriminate; injection E as <-; lia.
Qed.

Lemma byteOf_read (blob : string) (offset : nat) (byte : Z) :
  byteOf blob offset = Some byte ->
  _hexByteAt (VStr blob) (Int (Z.of_nat offset)) = Ok (Int byte) /\ 0 <= byte < 256.
Proof.
  unfold byteOf. intros E.
  destruct (String.get offset blob) as [c1 |] eqn:G1; [| discriminate].
  destruct (String.get (S offset) blob) as [c2 |] eqn:G2; [| discriminate].
  destruct (hexDigit c1) as [v1 |] eqn:H1; [| discriminate].
  destruct (hexDigit c2) as [v2 |] eqn:H2; [| discriminate].
  injection E as <-.
  split.
  - rewrite (hexByteAt_slice blob (Z.of_nat offset) c1 c2);
      rewrite ?Nat2Z.id; try assumption; [| lia].
    f_equal. apply parseInt16_byte; assumption.
  - apply hexDigit_range in H1, H2. lia.
Qed.

(** The mask [1 << k] for a remainder [k] of a division by 8: bit [k] of the
    byte when [k] is not negative; a negative [k] shifts by 32 + k and the
    mask lies above the byte. *)
Lemma mask_of_remainder (byte k : Z) :
  0 <= byte < 256 -> -8 < k < 8 ->
  number_neqb (band (Int byte) (shl (Int 1) (Int k))) (Int 0)
  = if k <? 0 then false else Z.testbit byte k.
Proof.
  intros Hb Hk.
  assert (Hall : List.forallb (fun b =>
            List.forallb (fun k =>
              Bool.eqb (number_neqb (band (Int b) (shl (Int 1) (Int k))) (Int 0))
                       (if k <? 0 then false else Z.testbit b k))
              (List.map (fun n => Z.of_nat n - 7) (List.seq 0 15)))
            (List.map Z.of_nat (List.seq 0 256)) = true)
    by (vm_compute; reflexivity).
  rewrite List.forallb_forall in Hall.
  specialize (Hall byte).
  rewrite List.forallb_forall in Hall.
  apply Bool.eqb_prop, Hall.
  - apply List.in_map_iff. exists (Z.to_nat byte). split; [lia |].
    apply List.in_seq. lia.
  - apply List.in_map_iff. exists (Z.to_nat (k + 7)). split; [lia |].
    apply List.in_seq. lia.
Qed.

Lemma bitAt_byte (blob : string) (offset : nat) (byte i : Z) :
  byteOf blob offset = Some byte ->
  bitAt blob (Z.of_nat offset) (areaMask (Int i))
  = if Z.rem i 8 <? 0 then false else Z.testbit byte (Z.rem i 8).
Proof.
  intros Hb. apply byteOf_read in Hb as [Hread Hrange].
  unfold bitAt, areaMask, rem. rewrite Hread. cbn [Z.eqb].
  apply mask_of_remainder; [assumption |].
  pose proof (Z.rem_bound_abs i 8). lia.
Qed.

Lemma bitAt_number (blob : string) (offset : nat) (byte : Z) (areaIndex : number) :
  byteOf blob offset = Some byte ->
  bitAt blob (Z.of_nat offset) (areaMask areaIndex) = Z.testbit byte (maskBit areaIndex).
Proof.
  intros Hb. destruct areaIndex as [| i].
  - change (areaMask NaN) with (areaMask (Int 0)).
    rewrite (bitAt_byte blob offset byte 0 Hb). reflexivity.
  - rewrite (bitAt_byte blob offset byte i Hb). cbn [maskBit].
    destruct (Z.ltb_spec (Z.rem i 8) 0) as [Hneg | _]; [| reflexivity].
    symmetry. apply Z.testbit_neg_r, Hneg.
Qed.

(** C1. On every status blob that covers the arming bytes (twelve characters
    or more) and for every area index, [decodeAreaModeFromBankstates]
    returns, without raising, one of DISARMED, STAY and AWAY.  Where the two
    arm bytes (characters 4-5 and 6-7) are hexadecimal, the bit that the mask
    [1 << (areaIndex % 8)] selects decides: AWAY when the full-arm byte has
    it, with or without the partial-arm byte having it too; STAY when only the
    partial-arm byte has it; DISARMED when neither has it, whatever the
    exit-delay bytes and the rest of the blob hold.  (Being a function, the
    decoder is deterministic.) *)
Theorem decodeAreaMode_total_and_precedence (blob : string) (areaIndex : number) :
  (12 <= String.length blob)%nat ->
  (exists mode,
      decodeAreaModeFromBankstates (VStr blob) areaIndex = Ok mode
      /\ (mode = "DISARMED" \/ mode = "STAY" \/ mode = "AWAY")%string)
  /\ (forall stpartial starm,
        byteOf blob 4 = Some stpartial ->
        byteOf blob 6 = Some starm ->
        (Z.testbit starm (maskBit areaIndex) = true ->
         Z.testbit stpartial (maskBit areaIndex) = true ->
         decodeAreaModeFromBankstates (VStr blob) areaIndex = Ok "AWAY"%string)
        /\ (Z.testbit starm (maskBit areaIndex) = true ->
            decodeAreaModeFromBankstates (VStr blob) areaIndex = Ok "AWAY"%string)
        /\ (Z.testbit starm (maskBit areaIndex) = false ->
            Z.testbit stpartial (maskBit areaIndex) = true ->
            decodeAreaModeFromBankstates (VStr blob) areaIndex = Ok "STAY"%string)
        /\ (Z.testbit starm (maskBit areaIndex) = false ->
            Z.testbit stpartial (maskBit areaIndex) = false ->
            decodeAreaModeFromBankstates (VStr blob) areaIndex = Ok "DISARMED"%string)).
Proof.
  intros Hlen.
  assert (Hne : blob <> EmptyString)
    by (destruct blob; [simpl in Hlen; lia | congruence]).
  rewrite (decode_nonempty blob areaIndex Hne).
  split.
  - eexists; split; [reflexivity |].
    destruct (fullArmBit blob areaIndex); [auto |].
    destruct (partialArmBit blob areaIndex); auto.
  - intros stpartial starm Hp Ha.
    unfold fullArmBit, partialArmBit.
    change 6 with (Z.of_nat 6). change 4 with (Z.of_nat 4).
    rewrite (bitAt_number blob 6 starm areaIndex Ha),
            (bitAt_number blob 4 stpartial areaIndex Hp).
    repeat split.
    + intros -> _. reflexivity.
    + intros ->. reflexivity.
    + intros -> ->. reflexivity.
    + intros -> ->. reflexivity.
Qed.

Lemma decodeAreaMode_total_and_precedence_witness :
  (12 <= String.length "000001014001")%nat
  /\ XRApi.decodeAreaModeFromBankstates (VStr "000001014001") (JS.Int 0) = Ok "AWAY"%string.
Proof.
  split; [vm_compute; lia |].
  destruct (decodeAreaMode_total_and_precedence "000001014001" (JS.Int 0))
    as [_ Hbits]; [simpl; lia |].
  destruct (Hbits 1 1 eq_refl eq_refl) as (Haway & _).
  apply Haway; reflexivity.
Defined.

End DecoderProofs.

(** *** The protocol client *)

Section ClientProofs.
Import JS XRApi Client.

Lemma requests_app (es es' : list effect) :
  requests (es ++ es') = requests es ++ requests es'.
Proof.
  induction es as [| e es IH]; [reflexivity |].
  destruct e; cbn [requests app]; rewrite IH; reflexivity.
Qed.

Lemma eatHex_length (n : nat) (s tok rest : string) :
  eatHex n s = Some (tok, rest) -> String.length tok = n.
Proof.
  revert s tok rest. induction n as [| n IH]; intros s tok rest E.
  - cbn in E. injection E as <- _. reflexivity.
  - cbn [eatHex] in E. destruct s as [| c s]; [discriminate |].
    destruct (isHexDigit c); [| discriminate].
    destruct (eatHex n s) as [[d r] |] eqn:En; [| discriminate].
    cbn in E. injection E as <- _. cbn. f_equal. eapply IH; eassumption.
Qed.

Lemma matchGetSession_length (s tok : string) :
  matchGetSession s = Some tok -> String.length tok = 16%nat.
Proof.
  unfold matchGetSession. intros E. peel E.
  destruct p as [t r]. peel E.
  injection E as <-. eapply eatHex_length; eassumption.
Qed.

Lemma matchSessAssign_length (s tok : string) :
  matchSessAssign s = Some tok -> String.length tok = 16%nat.
Proof.
  unfold matchSessAssign. intros E. peel E.
  destruct p as [t r]. injection E as <-. eapply eatHex_length; eassumption.
Qed.

Lemma search_found (anchored : string -> option string) (s tok : string) :
  search anchored s = Some tok -> exists s', anchored s' = Some tok.
Proof.
  induction s as [| c s IH]; cbn [search]; intros E.
  - destruct (anchored EmptyString) eqn:F; [| discriminate]. injection E as <-. eauto.
  - destruct (anchored (String c s)) eqn:F.
    + injection E as <-. eauto.
    + auto.
Qed.

(** A token taken from a page is sixteen digits long, hence truthy. *)
Lemma extractSess_length (html tok : string) :
  extractSessFromHtml html = Some tok -> String.length tok = 16%nat.
Proof.
  unfold extractSessFromHtml. destruct (negb (truthyStr html)); [discriminate |].
  destruct (search matchGetSession html) as [m1 |] eqn:E1.
  - intros [= <-]. apply search_found in E1 as [s' E1].
    eapply matchGetSession_length; eassumption.
  - destruct (search matchSessAssign html) as [m2 |] eqn:E2; [| discriminate].
    intros [= <-]. apply search_found in E2 as [s' E2].
    eapply matchSessAssign_length; eassumption.
Qed.

Lemma extractSess_truthy (html tok : string) (a : api) :
  extractSessFromHtml html = Some tok -> hasSess (setSess (Some tok) a) = true.
Proof.
  intros E. apply extractSess_length in E. unfold hasSess. cbn.
  destruct tok; [discriminate | reflexivity].
Qed.

Lemma baseUrl_ok (a : api) (w : world) (path : string) :
  truthyStr (host a) = true ->
  liftApi (baseUrl path) (a, w) =
    {| res := Ok (urlOf a path); post := (a, w); emitted := [] |}.
Proof.
  intros Hh. unfold liftApi, baseUrl, bind. cbn. rewrite Hh. reflexivity.
Qed.

Lemma loginRequest_ok (a : api) :
  truthyStr (host a) = true ->
  loginRequest a =
    {| res := Ok (loginForm a); post := setSess None a; emitted := [] |}.
Proof.
  intros Hh. unfold loginRequest, baseUrl, bind. cbn. rewrite Hh. reflexivity.
Qed.

Lemma login_outcome (a : api) (w : world) :
  truthyStr (host a) = true -> login (a, w) = loginOutcome a w.
Proof.
  intros Hh. unfold login, loginOutcome.
  assert (Hreq : liftApi loginRequest (a, w) =
                 {| res := Ok (loginForm a); post := (setSess None a, w); emitted := [] |}).
  { unfold liftApi. cbn [fst snd]. rewrite (loginRequest_ok a Hh). reflexivity. }
  erewrite bind_ok by (rewrite Hreq; reflexivity).
  rewrite Hreq. cbn [res post emitted app].
  unfold bind, fetch. cbn [res post emitted fst snd app].
  destruct (answer w) as [text | msg]; [| reflexivity].
  unfold liftApi, loginFinish, loginError.
  destruct (extractSessFromHtml text) as [tok |].
  - cbn. reflexivity.
  - destruct (looksLikeLoginHtml text); reflexivity.
Qed.

Lemma ensureLoggedIn_skips (a : api) (w : world) :
  hasSess a = true ->
  ensureLoggedIn (a, w) = {| res := Ok tt; post := (a, w); emitted := [] |}.
Proof.
  intros Hs. unfold ensureLoggedIn, bind, liftApi. cbn. rewrite Hs. reflexivity.
Qed.

Context `{Runtime}.

(** [parseResponse] neither reads nor writes the state. *)
Lemma parseResponse_pure (path text : string) (expectJson : bool) (x : X) :
  post (parseResponse path text expectJson x) = x
  /\ emitted (parseResponse path text expectJson x) = []
  /\ forall x', res (parseResponse path text expectJson x')
                = res (parseResponse path text expectJson x).
Proof.
  unfold parseResponse.
  destruct expectJson; cbn [negb]; [| repeat split; reflexivity].
  destruct (JSON_parse text) as [parsed |]; [| repeat split; reflexivity].
  destruct (truthy parsed); [| repeat split; reflexivity].
  unfold bind. destruct (getField parsed "error") as [perr | e]; cbn;
    [| repeat split; reflexivity].
  destruct (truthy perr); repeat split; reflexivity.
Qed.

(** A call without retry, made with a session: one request, whatever the
    answer looks like. *)
Lemma requestN_last (a : api) (w : world) (path method : string)
    (data : option string) (expectJson : bool) :
  hasSess a = true -> truthyStr (host a) = true ->
  requests (emitted (requestN 0 path method data expectJson (a, w)))
    = [frame a (urlOf a path) method data]
  /\ res (requestN 0 path method data expectJson (a, w)) =
     match answer w with
     | Unreachable msg => Throw (TransportError msg)
     | Body text => res (parseResponse path text expectJson (a, w))
     end.
Proof.
  intros Hs Hh. cbn [requestN].
  erewrite bind_ok by (rewrite ensureLoggedIn_skips by assumption; reflexivity).
  rewrite ensureLoggedIn_skips by assumption. cbn [res post emitted app].
  erewrite bind_ok by (rewrite baseUrl_ok by assumption; reflexivity).
  rewrite baseUrl_ok by assumption. cbn [res post emitted app].
  erewrite bind_ok by reflexivity. cbn [liftApi get res post emitted fst snd app].
  unfold bind, fetch. cbn [res post emitted fst snd].
  destruct (answer w) as [text | msg]; cbn [res emitted]; [| auto].
  destruct (parseResponse_pure path text expectJson (a, consume w)) as (_ & -> & Hres).
  split; [reflexivity | symmetry; apply Hres].
Qed.

(** With a session, [request] starts with its own request. *)
Lemma requestN_with_session (retries : nat) (a : api) (w : world) (path method : string)
    (data : option string) (expectJson : bool) :
  hasSess a = true -> truthyStr (host a) = true ->
  requestN retries path method data expectJson (a, w) =
    bind (fetch (frame a (urlOf a path) method data))
      (fun text =>
         match retries with
         | S retries' =>
             if looksLikeLoginHtml text
             then
               emit (LogWarn ("[Reliance XR] Session/login HTML returned for " +:+ path
                              +:+ ". Re-logging in and retrying...")) ;;
               emit (Sleep 200) ;;
               login ;;
               requestN retries' path method data expectJson
             else parseResponse path text expectJson
         | O => parseResponse path text expectJson
         end) (a, w).
Proof.
  intros Hs Hh.
  destruct retries as [| r]; cbn [requestN];
    rewrite (bind_silent _ _ _ _ _ (ensureLoggedIn_skips a w Hs));
    rewrite (bind_silent _ _ _ _ _ (baseUrl_ok a w path Hh));
    rewrite (bind_silent (liftApi get) _ (a, w) (a, w) a eq_refl);
    reflexivity.
Qed.

(** The retry: a login, then the request once more. *)
Lemma relogin_and_retry (a : api) (w : world) (path method : string)
    (data : option string) (expectJson : bool) :
  hasSess a = true -> truthyStr (host a) = true ->
  let o := bind login (fun _ => requestN 0 path method data expectJson) (a, w) in
  match answer w with
  | Unreachable msg =>
      requests (emitted o) = [loginForm a] /\ res o = Throw (TransportError msg)
  | Body text =>
      match extractSessFromHtml text with
      | None => requests (emitted o) = [loginForm a] /\ res o = Throw (loginError text)
      | Some tok =>
          requests (emitted o) =
            [loginForm a; frame (setSess (Some tok) a) (urlOf a path) method data]
          /\ res o = match net w (1 + served w)%nat with
                     | Unreachable msg => Throw (TransportError msg)
                     | Body retried => res (parseResponse path retried expectJson (a, w))
                     end
      end
  end.
Proof.
  intros Hs Hh o. subst o.
  pose proof (login_outcome a w Hh) as Hl. unfold loginOutcome in Hl.
  destruct (answer w) as [text | msg].
  2: { rewrite bind_throw with (e := TransportError msg) by (rewrite Hl; reflexivity).
       rewrite Hl. split; reflexivity. }
  destruct (extractSessFromHtml text) as [tok |] eqn:Htok.
  2: { rewrite bind_throw with (e := loginError text) by (rewrite Hl; reflexivity).
       rewrite Hl. split; reflexivity. }
  rewrite (bind_ok _ _ _ tt) by (rewrite Hl; reflexivity).
  rewrite Hl. cbn [res post emitted].
  pose proof (extractSess_truthy text tok a Htok) as Hs'.
  destruct (requestN_last (setSess (Some tok) a) (consume w) path method
              data expectJson Hs' Hh) as [Hreqs Hres].
  change (urlOf (setSess (Some tok) a) path) with (urlOf a path) in Hreqs.
  split.
  - rewrite requests_app, Hreqs. reflexivity.
  - rewrite Hres. change (answer (consume w)) with (net w (1 + served w)%nat).
    destruct (net w (1 + served w)%nat) as [retried | msg]; [| reflexivity].
    destruct (parseResponse_pure path retried expectJson (a, w)) as (_ & _ & Hpure).
    apply Hpure.
Qed.


Lemma request_expired (a : api) (w : world) (path method : string)
    (data : option string) (expectJson : bool) (page : string) :
  hasSess a = true -> truthyStr (host a) = true ->
  net w (served w) = Body page -> looksLikeLoginHtml page = true ->
  let o := bind login (fun _ => requestN 0 path method data expectJson) (a, consume w) in
  request path method data expectJson true (a, w) =
    {| res := res o; post := post o;
       emitted := Fetch (frame a (urlOf a path) method data)
                  :: LogWarn ("[Reliance XR] Session/login HTML returned for " +:+ path
                              +:+ ". Re-logging in and retrying...")
                  :: Sleep 200 :: emitted o |}.
Proof.
  intros Hs Hh Hpage Hlogin o. unfold request.
  rewrite (requestN_with_session 1 a w path method data expectJson Hs Hh).
  assert (Hfetch : fetch (frame a (urlOf a path) method data) (a, w) =
                   {| res := Ok page; post := (a, consume w);
                      emitted := [Fetch (frame a (urlOf a path) method data)] |}).
  { unfold fetch, answer. cbn [fst snd]. rewrite Hpage. reflexivity. }
  rewrite (bind_ok _ _ _ page) by (rewrite Hfetch; reflexivity).
  rewrite Hfetch, Hlogin. cbn [res post emitted].
  rewrite (bind_ok _ _ _ tt) by reflexivity. cbn [emit res post emitted].
  rewrite (bind_ok _ _ _ tt) by reflexivity. cbn [emit res post emitted].
  reflexivity.
Qed.

(** C3, amended.  A call made with a session whose first response is a login
    page logs in again exactly once.  If that login fails, the call fails
    with the login's error and the original request is not sent again.  If it
    succeeds, the original request is sent exactly once more, with the new
    token, and whatever comes back is final: there is no third attempt, and
    the response of the retry is not tested for being a login page.  With
    [expectJson] unset the call returns that response as text; with
    [expectJson] set it fails with the invalid-JSON error when the response
    is not JSON, as a login page is not. *)
Theorem request_relogin_once (a : api) (w : world) (path method : string)
    (data : option string) (expectJson : bool) (page : string) :
  hasSess a = true -> truthyStr (host a) = true ->
  net w (served w) = Body page -> looksLikeLoginHtml page = true ->
  let o := request path method data expectJson true (a, w) in
  match net w (1 + served w)%nat with
  | Unreachable msg =>
      requests (emitted o) = [frame a (urlOf a path) method data; loginForm a]
      /\ res o = Throw (TransportError msg)
  | Body text =>
      match extractSessFromHtml text with
      | None =>
          requests (emitted o) = [frame a (urlOf a path) method data; loginForm a]
          /\ res o = Throw (loginError text)
      | Some tok =>
          requests (emitted o) =
            [frame a (urlOf a path) method data; loginForm a;
             frame (setSess (Some tok) a) (urlOf a path) method data]
          /\ match net w (2 + served w)%nat with
             | Unreachable msg => res o = Throw (TransportError msg)
             | Body retried =>
                 res o = res (parseResponse path retried expectJson (a, w))
                 /\ (expectJson = false -> res o = Ok (VStr retried))
                 /\ (expectJson = true -> JSON_parse retried = None ->
                     res o = Throw (InvalidJSON path (slice0 retried 120)))
             end
      end
  end.
Proof.
  intros Hs Hh Hpage Hlogin o. subst o.
  rewrite (request_expired a w path method data expectJson page Hs Hh Hpage Hlogin).
  cbv zeta.
  pose proof (relogin_and_retry a (consume w) path method data expectJson Hs Hh) as Hr.
  cbv zeta in Hr.
  change (answer (consume w)) with (net w (1 + served w)%nat) in Hr.
  change (net (consume w) (1 + served (consume w))%nat)
    with (net w (2 + served w)%nat) in Hr.
  generalize dependent (bind login (fun _ => requestN 0 path method data expectJson)
                          (a, consume w)).
  intros o Hr. cbn [res emitted requests].
  destruct (net w (1 + served w)%nat) as [text | msg].
  2: { destruct Hr as [-> ->]. split; reflexivity. }
  destruct (extractSessFromHtml text) as [tok |].
  2: { destruct Hr as [-> ->]. split; reflexivity. }
  destruct Hr as [-> Hres]. split; [reflexivity |].
  rewrite Hres.
  destruct (net w (2 + served w)%nat) as [retried | msg]; [| reflexivity].
  destruct (parseResponse_pure path retried expectJson (a, w)) as (_ & _ & Hpure).
  rewrite (Hpure (a, consume w)).
  split; [reflexivity |].
  split.
  - intros ->. reflexivity.
  - intros -> Hnone. unfold parseResponse. cbn [negb]. rewrite Hnone. reflexivity.
Qed.

End ClientProofs.

(** C3, as it fails: the first response is a login page, so is the response
    of the retry, and the call, made with [expectJson] unset, returns that
    page instead of failing. *)
Lemma request_returns_login_page :
  XRApi.looksLikeLoginHtml Scenario.loginPage = true
  /\ net Scenario.expiredTwice 0%nat = Body Scenario.loginPage
  /\ net Scenario.expiredTwice 2%nat = Body Scenario.loginPage
  /\ res (XRApi.request (H := Scenario.runtime) "/user/zones.htm" "GET" None false true
            (Scenario.loggedIn, Scenario.expiredTwice))
     = Ok (VStr Scenario.loginPage).
Proof. repeat split; vm_compute; reflexivity. Qed.

Lemma request_relogin_once_witness :
  Client.requests
    (emitted (XRApi.request (H := Scenario.runtime) "/user/status.json" "POST"
                (Some "arsel=0"%string) true true
                (Scenario.loggedIn, Scenario.expiredTwice)))
  = [XRApi.frame Scenario.loggedIn "http://10.0.0.2/user/status.json" "POST"
       (Some "arsel=0"%string);
     Client.loginForm Scenario.loggedIn;
     XRApi.frame (XRApi.setSess (Some "0123456789ABCDEF"%string) Scenario.loggedIn)
       "http://10.0.0.2/user/status.json" "POST" (Some "arsel=0"%string)]
  /\ res (XRApi.request (H := Scenario.runtime) "/user/status.json" "POST"
            (Some "arsel=0"%string) true true
            (Scenario.loggedIn, Scenario.expiredTwice))
     = Throw (InvalidJSON "/user/status.json" (JS.slice0 Scenario.loginPage 120)).
Proof.
  pose proof (request_relogin_once (H := Scenario.runtime) Scenario.loggedIn
                Scenario.expiredTwice "/user/status.json" "POST"
                (Some "arsel=0"%string) true Scenario.loginPage
                eq_refl eq_refl eq_refl eq_refl) as T.
  cbv zeta in T.
  destruct T as [Hreqs (_ & _ & Hfail)].
  split; [exact Hreqs | exact (Hfail eq_refl eq_refl)].
Defined.

(** *** The reconciler *)

Section ReconcilerProofs.
Import JS Platform Reconciler.

Lemma quiet_liftApi {A} (m : M XRApi.api A) : quiet m -> quiet (XRApi.liftApi m).
Proof. intros Hm s. apply Hm. Qed.

Lemma quiet_fetch (req : httpRequest) : quiet (XRApi.fetch req).
Proof. intros s. reflexivity. Qed.

Lemma quiet_baseUrl (path : string) : quiet (XRApi.baseUrl path).
Proof.
  unfold XRApi.baseUrl. apply quiet_bind; [apply quiet_get |].
  intros a. destruct (negb _); auto with quiet.
Qed.

Lemma quiet_login : quiet XRApi.login.
Proof.
  unfold XRApi.login.
  apply quiet_bind.
  { apply quiet_liftApi. unfold XRApi.loginRequest.
    repeat (apply quiet_bind; [auto using quiet_baseUrl with quiet | intros ?]).
    auto with quiet. }
  intros req. apply quiet_bind; [apply quiet_fetch |].
  intros text. apply quiet_liftApi. unfold XRApi.loginFinish.
  destruct (XRApi.extractSessFromHtml text).
  - apply quiet_bind; [auto with quiet |]. intros _. apply quiet_emit. reflexivity.
  - destruct (XRApi.looksLikeLoginHtml text); auto with quiet.
Qed.

Lemma quiet_ensureLoggedIn : quiet XRApi.ensureLoggedIn.
Proof.
  unfold XRApi.ensureLoggedIn.
  apply quiet_bind; [apply quiet_liftApi, quiet_get |].
  intros a. destruct (XRApi.hasSess a); auto using quiet_login with quiet.
Qed.

Context `{Runtime}.

Lemma quiet_parseResponse (path text : string) (expectJson : bool) :
  quiet (XRApi.parseResponse path text expectJson).
Proof.
  unfold XRApi.parseResponse.
  destruct expectJson; cbn [negb]; [| auto with quiet].
  destruct (JSON_parse text) as [parsed |]; [| auto with quiet].
  destruct (truthy parsed); [| auto with quiet].
  apply quiet_bind; [auto with quiet |].
  intros perr. destruct (truthy perr); auto with quiet.
Qed.

(** A request, with its login and its retry, tells the accessory layer
    nothing. *)
Lemma quiet_requestN (retries : nat) (path method : string) (data : option string)
    (expectJson : bool) :
  quiet (XRApi.requestN retries path method data expectJson).
Proof.
  induction retries as [| r IH]; cbn [XRApi.requestN].
  - apply quiet_bind; [apply quiet_ensureLoggedIn | intros _].
    apply quiet_bind; [apply quiet_liftApi, quiet_baseUrl | intros url].
    apply quiet_bind; [apply quiet_liftApi, quiet_get | intros a].
    apply quiet_bind; [apply quiet_fetch | intros text].
    apply quiet_parseResponse.
  - apply quiet_bind; [apply quiet_ensureLoggedIn | intros _].
    apply quiet_bind; [apply quiet_liftApi, quiet_baseUrl | intros url].
    apply quiet_bind; [apply quiet_liftApi, quiet_get | intros a].
    apply quiet_bind; [apply quiet_fetch | intros text].
    destruct (XRApi.looksLikeLoginHtml text); [| apply quiet_parseResponse].
    apply quiet_bind; [apply quiet_emit; reflexivity | intros _].
    apply quiet_bind; [apply quiet_emit; reflexivity | intros _].
    apply quiet_bind; [apply quiet_login | intros _].
    apply IH.
Qed.

Lemma quiet_status (areaIndex : number) : quiet (XRApi.status areaIndex).
Proof. apply quiet_requestN. Qed.

(** A pulse touches neither the snapshot nor the settings, and says nothing
    about the level state. *)
Lemma pulseMotion_this (service : option Hap.service) (key : string) (s : P) :
  res (pulseMotion service key s) = Ok tt
  /\ snapshot (fst (post (pulseMotion service key s))) = snapshot (fst s)
  /\ settings (fst (post (pulseMotion service key s))) = settings (fst s)
  /\ List.filter isSecurityState (emitted (pulseMotion service key s)) = [].
Proof.
  destruct s as [p w]. unfold pulseMotion.
  destruct service as [svc |]; [| repeat split; reflexivity].
  unfold bind; cbn.
  destruct (_eventResetTimers p !! key); cbn; repeat split; reflexivity.
Qed.

Lemma setMode_spec (mode : string) (s : P) :
  res (setMode mode s) = Ok tt
  /\ cachedMode (fst (post (setMode mode s))) = normalized mode
  /\ cachedDoorOpen (fst (post (setMode mode s))) = cachedDoorOpen (fst s)
  /\ settings (fst (post (setMode mode s))) = settings (fst s)
  /\ (normalized mode = cachedMode (fst s) ->
      post (setMode mode s) = s /\ emitted (setMode mode s) = []).
Proof.
  destruct s as [p w].
  unfold setMode. fold (normalized mode).
  rewrite (bind_ok getThis _ (p, w) p eq_refl).
  cbn [getThis res post emitted fst snd].
  destruct (String.eqb (normalized mode) (cachedMode p)) eqn:E.
  { apply String.eqb_eq in E. cbn. repeat split; auto. }
  apply String.eqb_neq in E.
  destruct (pulseMotion_this (alarmEventService p) "alarm"
              (setCachedMode (normalized mode) p, w)) as (Hok & Hsnap & Hset & _).
  erewrite bind_ok by reflexivity. cbn [modifyThis modify res post emitted fst snd].
  erewrite bind_ok by reflexivity. cbn [emit res post emitted fst snd].
  erewrite bind_ok by exact Hok.
  set (s' := post (pulseMotion _ _ _)) in *.
  unfold snapshot, settings in *. cbn [setCachedMode cachedMode cachedDoorOpen
    areaIndex rollerDoorZone zoneOpenBank zoneOpenWhenSet fst] in Hsnap, Hset.
  injection Hsnap as Hm Hd.
  destruct (securityService p); cbn; repeat split; auto; try contradiction.
Qed.

Lemma setGarageOpen_spec (isOpen : bool) (s : P) :
  res (setGarageOpen isOpen s) = Ok tt
  /\ cachedMode (fst (post (setGarageOpen isOpen s))) = cachedMode (fst s)
  /\ cachedDoorOpen (fst (post (setGarageOpen isOpen s))) = Some isOpen
  /\ settings (fst (post (setGarageOpen isOpen s))) = settings (fst s)
  /\ (cachedDoorOpen (fst s) = Some isOpen ->
      post (setGarageOpen isOpen s) = s /\ emitted (setGarageOpen isOpen s) = []).
Proof.
  destruct s as [p w].
  unfold setGarageOpen.
  rewrite (bind_ok getThis _ (p, w) p eq_refl).
  cbn [getThis res post emitted fst snd].
  destruct (sameDoor (cachedDoorOpen p) isOpen) eqn:E.
  { cbn. unfold sameDoor in E.
    destruct (cachedDoorOpen p) as [b |]; [| discriminate].
    apply Bool.eqb_prop in E. subst b. repeat split; auto. }
  assert (Hne : cachedDoorOpen p <> Some isOpen).
  { intros C. rewrite C in E. cbn in E. rewrite Bool.eqb_reflx in E. discriminate. }
  destruct (pulseMotion_this (doorEventService p) "door"
              (setCachedDoorOpen (Some isOpen) p, w)) as (Hok & Hsnap & Hset & _).
  erewrite bind_ok by reflexivity. cbn [modifyThis modify res post emitted fst snd].
  erewrite bind_ok by reflexivity. cbn [emit res post emitted fst snd].
  erewrite bind_ok by exact Hok.
  set (s' := post (pulseMotion _ _ _)) in *.
  unfold snapshot, settings in *. cbn [setCachedDoorOpen cachedMode cachedDoorOpen
    areaIndex rollerDoorZone zoneOpenBank zoneOpenWhenSet fst] in Hsnap, Hset.
  injection Hsnap as Hm Hd.
  destruct (garageService p); cbn; repeat split; auto; try contradiction.
Qed.

(** C10.  When the mode handed to [setMode] reads UNKNOWN, or anything else
    that is not DISARMED, STAY or AWAY, and differs from the cached mode, the
    security service is told current state DISARMED and target state DISARM,
    and no other level state. *)
Theorem setMode_unknown_is_disarmed (mode : string) (svc : Hap.service) (s : P) :
  normalized mode <> "DISARMED"%string ->
  normalized mode <> "STAY"%string ->
  normalized mode <> "AWAY"%string ->
  normalized mode <> cachedMode (fst s) ->
  securityService (fst s) = Some svc ->
  List.filter isSecurityState (emitted (setMode mode s)) =
    [UpdateCharacteristic svc Hap.SecuritySystemCurrentState Hap.DISARMED;
     UpdateCharacteristic svc Hap.SecuritySystemTargetState Hap.DISARM].
Proof.
  intros Hd Hs Ha Hc Hsvc.
  destruct s as [p w]. unfold setMode. fold (normalized mode).
  rewrite (bind_ok getThis _ (p, w) p eq_refl).
  cbn [getThis res post emitted fst snd app].
  apply String.eqb_neq in Hc, Hd, Hs, Ha. cbn [fst] in Hc, Hsvc.
  rewrite Hc, Hsvc, Hd, Hs, Ha.
  destruct (pulseMotion_this (alarmEventService p) "alarm"
              (setCachedMode (normalized mode) p, w)) as (Hok & _ & _ & Hnone).
  erewrite bind_ok by reflexivity. cbn [modifyThis modify res post emitted fst snd].
  erewrite bind_ok by reflexivity. cbn [emit res post emitted fst snd].
  erewrite bind_ok by exact Hok. cbn [res post emitted].
  rewrite !List.filter_app, Hnone. reflexivity.
Qed.

(** The poll cycle, case by case. *)
Lemma pollOnce_cases (s : P) :
  let this := fst s in
  let o := liftXr (XRApi.status (areaIndex this)) s in
  match res o with
  | Throw e => pollOnce s = {| res := Throw e; post := post o; emitted := emitted o |}
  | Ok a =>
      match getField a "bankstates" with
      | Throw e =>
          res (pollOnce s) = Throw e /\ post (pollOnce s) = post o
      | Ok b =>
          match XRApi.decodeAreaModeFromBankstates b (areaIndex this) with
          | Throw e =>
              res (pollOnce s) = Throw e /\ post (pollOnce s) = post o
          | Ok mode =>
              let o2 := setMode mode (post o) in
              if doorConfigured this
              then
                exists isOpen,
                  XRApi.isZoneOpenFromBanks b (rollerDoorZone this)
                    (zoneOpenBank this) (zoneOpenWhenSet this) = Ok isOpen
                  /\ pollOnce s =
                     {| res := Ok tt;
                        post := post (setGarageOpen isOpen (post o2));
                        emitted := emitted o ++ emitted o2
                                   ++ emitted (setGarageOpen isOpen (post o2)) |}
              else
                pollOnce s =
                  {| res := Ok tt; post := post o2;
                     emitted := emitted o ++ emitted o2 |}
          end
      end
  end.
Proof.
  intros this o. unfold pollOnce.
  rewrite (bind_ok getThis _ s (fst s) eq_refl).
  cbn [getThis res post emitted fst snd app]. fold this. fold o.
  destruct (res o) as [a | e] eqn:Ho.
  2: { rewrite (bind_throw _ _ _ _ Ho). reflexivity. }
  rewrite (bind_ok _ _ _ _ Ho). cbn [res post emitted].
  destruct (getField a "bankstates") as [b | e] eqn:Hb.
  2: { cbn. auto. }
  erewrite bind_ok by reflexivity. cbn [liftResult ret res post emitted app].
  destruct (XRApi.decodeAreaModeFromBankstates b (areaIndex this)) as [mode | e] eqn:Hm.
  2: { cbn. auto. }
  erewrite bind_ok by reflexivity. cbn [liftResult ret res post emitted app].
  destruct (setMode_spec mode (post o)) as (Hok & _).
  rewrite (bind_ok _ _ _ _ Hok). cbn [res post emitted].
  destruct (doorConfigured this).
  - destruct (decode_ok_zone_ok b (areaIndex this) (rollerDoorZone this)
                (zoneOpenBank this) (zoneOpenWhenSet this) mode Hm) as [isOpen Hz].
    exists isOpen. split; [assumption |].
    unfold XRApi.getZoneStateBanks. rewrite Hz.
    erewrite bind_ok by reflexivity. cbn [liftResult ret res post emitted app].
    destruct (setGarageOpen_spec isOpen (post (setMode mode (post o)))) as (Hg & _).
    rewrite Hg. reflexivity.
  - cbn. rewrite app_nil_r. reflexivity.
Qed.

Lemma pollOnceSafe_eq : pollOnceSafe = tryCatch pollOnce onPollError.
Proof. reflexivity. Qed.

Lemma pollOnceSafe_ok (s : P) :
  res (pollOnce s) = Ok tt -> pollOnceSafe s = pollOnce s.
Proof.
  intros Hok. rewrite pollOnceSafe_eq. unfold tryCatch. rewrite Hok. reflexivity.
Qed.

(** The catch block drops the token and leaves the snapshot alone. *)
Lemma onPollError_spec (e : error) (s : P) :
  res (onPollError e s) = Ok tt
  /\ snapshot (fst (post (onPollError e s))) = snapshot (fst s)
  /\ XRApi.sess (xr (fst (post (onPollError e s)))) = None.
Proof.
  destruct s as [p w]. unfold onPollError.
  unfold bind, emit, modifyThis, modify, getThis. cbn [res post emitted fst snd].
  destruct (securityService _); cbn; auto.
Qed.

(** A poll that throws is caught: the token goes, the snapshot stays. *)
Lemma pollOnceSafe_caught (s : P) (e : error) :
  res (pollOnce s) = Throw e ->
  res (pollOnceSafe s) = Ok tt
  /\ snapshot (fst (post (pollOnceSafe s))) = snapshot (fst (post (pollOnce s)))
  /\ XRApi.sess (xr (fst (post (pollOnceSafe s)))) = None.
Proof.
  intros Hthrow. rewrite pollOnceSafe_eq.
  destruct (tryCatch_throw pollOnce onPollError s e Hthrow) as [-> ->].
  exact (onPollError_spec e (post (pollOnce s))).
Qed.

(** How a poll ends: thrown before anything was cached, or through with the
    decoded values cached. *)
Lemma pollOnce_ends (s : P) :
  match res (pollOnce s) with
  | Ok _ => decodedInto s (post (pollOnce s))
  | Throw _ => snapshot (fst (post (pollOnce s))) = snapshot (fst s)
  end.
Proof.
  pose proof (pollOnce_cases s) as Hc. cbv zeta in Hc.
  set (o := liftXr (XRApi.status (areaIndex (fst s))) s) in *.
  assert (Hsnap : snapshot (fst (post o)) = snapshot (fst s)) by reflexivity.
  assert (Hsm : cachedMode (fst (post o)) = cachedMode (fst s)) by reflexivity.
  assert (Hsd : cachedDoorOpen (fst (post o)) = cachedDoorOpen (fst s)) by reflexivity.
  destruct (res o) as [a | e] eqn:Ho.
  2: { rewrite Hc. exact Hsnap. }
  destruct (getField a "bankstates") as [b | e] eqn:Hb.
  2: { destruct Hc as [-> ->]. exact Hsnap. }
  destruct (XRApi.decodeAreaModeFromBankstates b (areaIndex (fst s)))
    as [mode | e] eqn:Hm.
  2: { destruct Hc as [-> ->]. exact Hsnap. }
  destruct (setMode_spec mode (post o)) as (_ & Hmode & Hdoor & _ & _).
  destruct (doorConfigured (fst s)) eqn:Hcfg.
  - destruct Hc as (isOpen & Hz & ->). cbn [res post].
    destruct (setGarageOpen_spec isOpen (post (setMode mode (post o))))
      as (_ & Hgm & Hgd & _ & _).
    exists a, b, mode. rewrite Hcfg.
    split; [exact Ho |]. split; [assumption |]. split; [assumption |].
    split; [congruence |]. exists isOpen. auto.
  - rewrite Hc. cbn [res post].
    exists a, b, mode. rewrite Hcfg.
    split; [exact Ho |]. split; [assumption |]. split; [assumption |].
    split; [assumption | congruence].
Qed.

(** C5.  The snapshot follows the poll cycle, step by step.  When the status
    request fails, or its answer has no member to read ([null]), or the blob
    is no string to decode, the cycle raises an error and both cached fields
    stay as they were.  When the status request succeeds and the mode is
    decoded, the cycle gets through, and afterwards the snapshot holds the
    decoded mode and, with a door zone, the decoded door state (once the mode
    is decoded, decoding the door cannot fail).
    And whichever way a cycle raises an error, it leaves both cached fields
    untouched. *)
Theorem snapshot_follows_poll (s : P) :
  let this := fst s in
  let after := fst (post (pollOnceSafe s)) in
  match res (liftXr (XRApi.status (areaIndex this)) s) with
  | Throw e => res (pollOnce s) = Throw e /\ snapshot after = snapshot this
  | Ok a =>
      match getField a "bankstates" with
      | Throw e => res (pollOnce s) = Throw e /\ snapshot after = snapshot this
      | Ok b =>
          match XRApi.decodeAreaModeFromBankstates b (areaIndex this) with
          | Throw e => res (pollOnce s) = Throw e /\ snapshot after = snapshot this
          | Ok mode =>
              res (pollOnce s) = Ok tt
              /\ cachedMode after = normalized mode
              /\ if doorConfigured this
                 then exists isOpen,
                     XRApi.isZoneOpenFromBanks b (rollerDoorZone this)
                       (zoneOpenBank this) (zoneOpenWhenSet this) = Ok isOpen
                     /\ cachedDoorOpen after = Some isOpen
                 else cachedDoorOpen after = cachedDoorOpen this
          end
      end
  end
  /\ match res (pollOnce s) with
     | Ok _ => decodedInto s (post (pollOnceSafe s))
     | Throw _ => snapshot after = snapshot this
     end.
Proof.
  cbv zeta.
  assert (Hsecond : match res (pollOnce s) with
                    | Ok _ => decodedInto s (post (pollOnceSafe s))
                    | Throw _ => snapshot (fst (post (pollOnceSafe s))) = snapshot (fst s)
                    end).
  { pose proof (pollOnce_ends s) as Hends.
    destruct (res (pollOnce s)) as [[] | e] eqn:Hr.
    - rewrite (pollOnceSafe_ok s Hr). exact Hends.
    - destruct (pollOnceSafe_caught s e Hr) as (_ & -> & _). exact Hends. }
  split; [| exact Hsecond].
  pose proof (pollOnce_cases s) as Hc. cbv zeta in Hc.
  assert (Hthrown : forall e, res (pollOnce s) = Throw e ->
            res (pollOnce s) = Throw e
            /\ snapshot (fst (post (pollOnceSafe s))) = snapshot (fst s)).
  { intros e Hr. split; [exact Hr |]. rewrite Hr in Hsecond. exact Hsecond. }
  destruct (res (liftXr (XRApi.status (areaIndex (fst s))) s)) as [a | e] eqn:Ho.
  2: { apply Hthrown. rewrite Hc. reflexivity. }
  destruct (getField a "bankstates") as [b | e] eqn:Hb.
  2: { apply Hthrown. apply Hc. }
  destruct (XRApi.decodeAreaModeFromBankstates b (areaIndex (fst s)))
    as [mode | e] eqn:Hm.
  2: { apply Hthrown. apply Hc. }
  assert (Hok : res (pollOnce s) = Ok tt).
  { destruct (doorConfigured (fst s)).
    - destruct Hc as (isOpen & _ & ->). reflexivity.
    - rewrite Hc. reflexivity. }
  split; [exact Hok |].
  rewrite Hok in Hsecond.
  destruct Hsecond as (a' & b' & mode' & Ho' & Hb' & Hm' & Hmode & Hdoor).
  rewrite Ho in Ho'. injection Ho' as <-.
  rewrite Hb in Hb'. injection Hb' as <-.
  rewrite Hm in Hm'. injection Hm' as <-.
  split; [exact Hmode | exact Hdoor].
Qed.

Lemma settings_fields (p p' : platform) :
  settings p' = settings p ->
  areaIndex p' = areaIndex p /\ rollerDoorZone p' = rollerDoorZone p
  /\ zoneOpenBank p' = zoneOpenBank p /\ zoneOpenWhenSet p' = zoneOpenWhenSet p
  /\ doorConfigured p' = doorConfigured p.
Proof.
  unfold settings, doorConfigured. intros E. injection E as -> -> -> ->. auto.
Qed.

(** A poll that reads a blob gets through; it is silent when the blob
    decodes to what the snapshot holds already. *)
Lemma pollOnce_through (s : P) (a : value) (blob : string) :
  res (liftXr (XRApi.status (areaIndex (fst s))) s) = Ok a ->
  getField a "bankstates" = Ok (VStr blob) ->
  exists mode,
    XRApi.decodeAreaModeFromBankstates (VStr blob) (areaIndex (fst s)) = Ok mode
    /\ res (pollOnce s) = Ok tt
    /\ settings (fst (post (pollOnce s))) = settings (fst s)
    /\ cachedMode (fst (post (pollOnce s))) = normalized mode
    /\ (doorConfigured (fst s) = true ->
        exists isOpen,
          XRApi.isZoneOpenFromBanks (VStr blob) (rollerDoorZone (fst s))
            (zoneOpenBank (fst s)) (zoneOpenWhenSet (fst s)) = Ok isOpen
          /\ cachedDoorOpen (fst (post (pollOnce s))) = Some isOpen)
    /\ (normalized mode = cachedMode (fst s) ->
        (forall isOpen,
            doorConfigured (fst s) = true ->
            XRApi.isZoneOpenFromBanks (VStr blob) (rollerDoorZone (fst s))
              (zoneOpenBank (fst s)) (zoneOpenWhenSet (fst s)) = Ok isOpen ->
            cachedDoorOpen (fst s) = Some isOpen) ->
        List.filter isNotification (emitted (pollOnce s)) = []
        /\ snapshot (fst (post (pollOnce s))) = snapshot (fst s)).
Proof.
  intros Ho Hb.
  pose proof (pollOnce_cases s) as Hc. cbv zeta in Hc.
  rewrite Ho, Hb in Hc.
  destruct (decode_string_ok blob (areaIndex (fst s))) as [mode Hm].
  rewrite Hm in Hc. exists mode. split; [assumption |].
  set (o := liftXr (XRApi.status (areaIndex (fst s))) s) in *.
  assert (Hquiet : List.filter isNotification (emitted o) = [])
    by apply (quiet_status (areaIndex (fst s))).
  assert (Hos : snapshot (fst (post o)) = snapshot (fst s)) by reflexivity.
  assert (Hoc : settings (fst (post o)) = settings (fst s)) by reflexivity.
  destruct (setMode_spec mode (post o)) as (_ & Hmode & Hdoor & Hset & Hsame).
  destruct (doorConfigured (fst s)) eqn:Hcfg.
  - destruct Hc as (isOpen & Hz & Hp). rewrite Hp. cbn [res post emitted].
    destruct (setGarageOpen_spec isOpen (post (setMode mode (post o))))
      as (_ & Hgm & Hgd & Hgs & Hgsame).
    split; [reflexivity |]. split; [congruence |]. split; [congruence |].
    split; [intros _; exists isOpen; auto |].
    intros Hcached Hopen.
    destruct Hsame as [Hpost Hnil]; [exact Hcached |].
    rewrite Hpost in Hgsame.
    destruct Hgsame as [Hpost' Hnil']; [apply (Hopen isOpen eq_refl Hz) |].
    rewrite Hnil, Hpost, Hnil', Hpost', !app_nil_r. auto.
  - rewrite Hc. cbn [res post emitted].
    split; [reflexivity |]. split; [congruence |]. split; [congruence |].
    split; [discriminate |].
    intros Hcached _.
    destruct Hsame as [Hpost Hnil]; [exact Hcached |].
    rewrite Hnil, Hpost, app_nil_r. auto.
Qed.

(** C4.  Whatever the snapshot holds: when two poll cycles in a row read the
    same status blob, the second one sends no notification (no
    characteristic update and no pulse) and leaves the snapshot as the first
    one left it. *)
Theorem second_poll_is_silent (s : P) (a1 a2 : value) (blob : string) :
  let s1 := post (pollOnceSafe s) in
  res (liftXr (XRApi.status (areaIndex (fst s))) s) = Ok a1 ->
  getField a1 "bankstates" = Ok (VStr blob) ->
  res (liftXr (XRApi.status (areaIndex (fst s1))) s1) = Ok a2 ->
  getField a2 "bankstates" = Ok (VStr blob) ->
  List.filter isNotification (emitted (pollOnceSafe s1)) = []
  /\ snapshot (fst (post (pollOnceSafe s1))) = snapshot (fst s1).
Proof.
  intros s1 Ho1 Hb1 Ho2 Hb2.
  destruct (pollOnce_through s a1 blob Ho1 Hb1)
    as (mode & Hm & Hr & Hset & Hmode & Hdoor & _).
  assert (Es1 : s1 = post (pollOnce s))
    by (unfold s1; rewrite (pollOnceSafe_ok s Hr); reflexivity).
  destruct (settings_fields _ _ Hset) as (Ea & Ez & Eb & Ew & Ec).
  rewrite <- Es1 in *.
  destruct (pollOnce_through s1 a2 blob Ho2 Hb2)
    as (mode' & Hm' & Hr' & _ & _ & _ & Hsilent).
  rewrite (pollOnceSafe_ok s1 Hr').
  rewrite Ea, Hm in Hm'. injection Hm' as <-.
  apply Hsilent; [congruence |].
  intros isOpen Hcfg Hz.
  rewrite Ec in Hcfg. destruct (Hdoor Hcfg) as (isOpen' & Hz' & Hcached).
  rewrite Ez, Eb, Ew in Hz. congruence.
Qed.

(** The decoder never answers the empty string. *)
Lemma decoded_is_normal (b : value) (idx : number) (mode : string) :
  XRApi.decodeAreaModeFromBankstates b idx = Ok mode -> normalized mode = mode.
Proof.
  unfold XRApi.decodeAreaModeFromBankstates.
  destruct (negb (truthy b)); [intros [= <-]; reflexivity |].
  destruct (XRApi._hexByteAt b (Int 4)); [| discriminate].
  destruct (XRApi._hexByteAt b (Int 6)); [| discriminate].
  destruct (XRApi._hexByteAt b (Int 8)); [| discriminate].
  destruct (XRApi._hexByteAt b (Int 10)); [| discriminate].
  cbn [XRApi.resultBind].
  repeat match goal with |- context [if ?c then _ else _] => destruct c end;
    intros [= <-]; reflexivity.
Qed.

(** C8, amended.  After a poll cycle that got through, the cached mode is
    UNKNOWN exactly when the status it read carries no blob (a missing,
    empty or otherwise falsy [bankstates]); a cycle that reads a blob that is
    not empty never leaves UNKNOWN, but a later cycle without a blob brings
    UNKNOWN back. *)
Theorem unknown_iff_no_blob (s : P) (a b : value) :
  res (liftXr (XRApi.status (areaIndex (fst s))) s) = Ok a ->
  getField a "bankstates" = Ok b ->
  res (pollOnce s) = Ok tt ->
  (cachedMode (fst (post (pollOnceSafe s))) = "UNKNOWN"%string <-> truthy b = false).
Proof.
  intros Ho Hb Hr. rewrite (pollOnceSafe_ok s Hr).
  pose proof (pollOnce_ends s) as Hends. rewrite Hr in Hends.
  destruct Hends as (a' & b' & mode & Ho' & Hb' & Hm & Hmode & _).
  rewrite Ho in Ho'. injection Ho' as <-.
  rewrite Hb in Hb'. injection Hb' as <-.
  rewrite Hmode, (decoded_is_normal b _ mode Hm).
  exact (decode_unknown_iff b _ mode Hm).
Qed.

End ReconcilerProofs.

Lemma snapshot_follows_poll_witness :
  res (Platform.pollOnce (H := Scenario.runtime)
         (Scenario.launched Scenario.loggedIn, Scenario.armedTwice)) = Ok tt
  /\ Platform.cachedMode
       (fst (post (Platform.pollOnceSafe (H := Scenario.runtime)
                     (Scenario.launched Scenario.loggedIn, Scenario.armedTwice))))
     = "AWAY"%string.
Proof.
  pose proof (proj1 (snapshot_follows_poll (H := Scenario.runtime)
                       (Scenario.launched Scenario.loggedIn, Scenario.armedTwice))) as W.
  vm_compute in W. destruct W as (Hok & Hmode & _).
  split; [vm_compute; exact Hok | vm_compute; exact Hmode].
Defined.

Lemma second_poll_is_silent_witness :
  List.filter Reconciler.isNotification
    (emitted (Platform.pollOnceSafe (H := Scenario.runtime)
                (post (Platform.pollOnceSafe (H := Scenario.runtime)
                         (Scenario.launched Scenario.loggedIn, Scenario.armedTwice)))))
  = []
  /\ Reconciler.snapshot
       (fst (post (Platform.pollOnceSafe (H := Scenario.runtime)
                     (post (Platform.pollOnceSafe (H := Scenario.runtime)
                              (Scenario.launched Scenario.loggedIn,
                               Scenario.armedTwice))))))
     = ("AWAY"%string, Some false).
Proof.
  apply (second_poll_is_silent (H := Scenario.runtime)
           (Scenario.launched Scenario.loggedIn, Scenario.armedTwice)
           (Scenario.statusValue Scenario.armedBlob)
           (Scenario.statusValue Scenario.armedBlob) Scenario.armedBlob);
    vm_compute; reflexivity.
Defined.

(** C8, as it fails: the first poll decodes AWAY from a blob, the second
    gets through on a status without a blob, and UNKNOWN is cached again. *)
Lemma unknown_returns_after_decode :
  Platform.cachedMode
    (fst (post (Platform.pollOnceSafe (H := Scenario.runtime)
                  (Scenario.launched Scenario.loggedIn, Scenario.armedThenBlank))))
  = "AWAY"%string
  /\ res (Platform.pollOnce (H := Scenario.runtime)
            (post (Platform.pollOnceSafe (H := Scenario.runtime)
                     (Scenario.launched Scenario.loggedIn, Scenario.armedThenBlank))))
     = Ok tt
  /\ Platform.cachedMode
       (fst (post (Platform.pollOnceSafe (H := Scenario.runtime)
                     (post (Platform.pollOnceSafe (H := Scenario.runtime)
                              (Scenario.launched Scenario.loggedIn,
                               Scenario.armedThenBlank))))))
     = "UNKNOWN"%string.
Proof. repeat split; vm_compute; reflexivity. Qed.

Lemma unknown_iff_no_blob_witness :
  Platform.cachedMode
    (fst (post (Platform.pollOnceSafe (H := Scenario.runtime)
                  (Scenario.launched Scenario.loggedIn, Scenario.armedTwice))))
  = "UNKNOWN"%string
  <-> truthy (VStr Scenario.armedBlob) = false.
Proof.
  apply (unknown_iff_no_blob (H := Scenario.runtime)
           (Scenario.launched Scenario.loggedIn, Scenario.armedTwice)
           (Scenario.statusValue Scenario.armedBlob) (VStr Scenario.armedBlob));
    vm_compute; reflexivity.
Defined.

Lemma setMode_unknown_is_disarmed_witness :
  List.filter Reconciler.isSecurityState
    (emitted (Platform.setMode "EXIT"
                (Scenario.launched Scenario.loggedIn, Scenario.armedTwice)))
  = [UpdateCharacteristic Hap.SecuritySystem Hap.SecuritySystemCurrentState Hap.DISARMED;
     UpdateCharacteristic Hap.SecuritySystem Hap.SecuritySystemTargetState Hap.DISARM].
Proof.
  apply (setMode_unknown_is_disarmed "EXIT" Hap.SecuritySystem
           (Scenario.launched Scenario.loggedIn, Scenario.armedTwice));
    (reflexivity || (vm_compute; congruence)).
Defined.

(** *** Login under concurrent callers *)

Section SingleFlightProofs.
Import JS XRApi Client Flight SingleFlight.


(** The first caller starts the closure, which sends the login request. *)
Lemma first_call (a : api) :
  hasSess a = false -> truthyStr (host a) = true ->
  ensureLoggedIn (idle a) =
    {| res := Ok tt; post := inFlight a 1; emitted := [Fetch (loginForm a)] |}.
Proof.
  intros Hs Hh. unfold ensureLoggedIn.
  rewrite (bind_silent get _ (idle a) (idle a) (idle a) eq_refl).
  cbn [idle this]. rewrite Hs. cbv iota. unfold login.
  rewrite bind_assoc.
  rewrite (bind_silent get _ _ _ _ eq_refl).
  cbn [idle loggingIn]. rewrite bind_assoc.
  assert (Hon : onThis loginRequest (idle a) =
                {| res := Ok (Ok (loginForm a));
                   post := {| this := setSess None a; loggingIn := None; callers := [] |};
                   emitted := [] |}).
  { unfold onThis. cbn [idle this]. rewrite (loginRequest_ok a Hh). reflexivity. }
  fold (idle a).
  rewrite (bind_silent _ _ _ _ _ Hon). reflexivity.
Qed.

Lemma repeat_snoc {A} (x : A) (k : nat) : repeat x k ++ [x] = repeat x (S k).
Proof. induction k as [| k IH]; cbn; [| rewrite IH]; reflexivity. Qed.

(** A later caller finds the marker and waits for the same promise. *)
Lemma later_call (a : api) (k : nat) :
  ensureLoggedIn (inFlight a (S k)) =
    {| res := Ok tt; post := inFlight a (S (S k)); emitted := [] |}.
Proof.
  unfold ensureLoggedIn, login, bind, inFlight, addCaller.
  cbn [res post emitted get this hasSess setSess sess loggingIn modify ret callers app].
  rewrite (repeat_snoc Waiting (S k)). reflexivity.
Qed.

Lemma calls_in_flight (a : api) (n k : nat) :
  times n ensureLoggedIn (inFlight a (S k)) =
    {| res := Ok tt; post := inFlight a (S k + n); emitted := [] |}.
Proof.
  revert k. induction n as [| n IH]; intros k; cbn [times].
  - unfold ret. rewrite Nat.add_0_r. reflexivity.
  - rewrite (bind_silent _ _ _ _ _ (later_call a k)).
    rewrite (IH (S k)).
    replace (S (S k) + n)%nat with (S k + S n)%nat by lia. reflexivity.
Qed.

Lemma calls_from_idle (a : api) (n : nat) :
  hasSess a = false -> truthyStr (host a) = true ->
  times (S n) ensureLoggedIn (idle a) =
    {| res := Ok tt; post := inFlight a (S n); emitted := [Fetch (loginForm a)] |}.
Proof.
  intros Hs Hh. cbn [times].
  rewrite (bind_ok _ _ _ tt) by (rewrite first_call by assumption; reflexivity).
  rewrite first_call by assumption. cbn [res post emitted].
  rewrite (calls_in_flight a n 0). cbn [res post emitted app Nat.add]. reflexivity.
Qed.

(** One task of [n] calls, [k] callers waiting already. *)
Lemma task_of_calls (a : api) (n k : nat) :
  hasSess a = false -> truthyStr (host a) = true ->
  step (Calls n) (afterCalls a k) =
    {| res := Ok tt; post := afterCalls a (k + n);
       emitted := match k, n with
                  | O, S _ => [Fetch (loginForm a)]
                  | _, _ => []
                  end |}.
Proof.
  intros Hs Hh. cbn [step].
  destruct k as [| k]; cbn [afterCalls].
  - destruct n as [| n].
    + cbn [times]. rewrite bind_ret_l. reflexivity.
    + rewrite (bind_ok _ _ _ tt) by (rewrite calls_from_idle by assumption; reflexivity).
      rewrite calls_from_idle by assumption. reflexivity.
  - rewrite (bind_silent _ _ _ _ _ (calls_in_flight a n k)). reflexivity.
Qed.


Lemma settle_all (r : result unit) (k : nat) :
  map (settle r) (repeat Waiting k) = repeat (Returned r) k.
Proof. induction k as [| k IH]; cbn; [| rewrite IH]; reflexivity. Qed.




(** A single caller goes through the event loop as [XRApi.ensureLoggedIn]
    describes it. *)
Lemma alone_is_sequential (a : api) (w : world) :
  hasSess a = false -> truthyStr (host a) = true ->
  let o := run [Calls 1; Answer (answer w)] (idle a) in
  callers (post o) = [Returned (res (XRApi.ensureLoggedIn (a, w)))]
  /\ this (post o) = fst (post (XRApi.ensureLoggedIn (a, w)))
  /\ emitted o = emitted (XRApi.ensureLoggedIn (a, w)).
Proof.
  intros Hs Hh. cbv zeta.
  assert (Eseq : XRApi.ensureLoggedIn (a, w) = loginOutcome a w).
  { unfold XRApi.ensureLoggedIn.
    rewrite (bind_ok _ _ _ a) by reflexivity.
    cbn [liftApi get res post emitted fst snd]. rewrite Hs.
    rewrite (login_outcome a w Hh). unfold loginOutcome.
    destruct (answer w) as [text | msg]; [| reflexivity].
    destruct (extractSessFromHtml text); reflexivity. }
  rewrite Eseq. cbn [run].
  pose proof (task_of_calls a 1 0 Hs Hh) as Hcall.
  cbn [afterCalls Nat.add] in Hcall.
  rewrite (bind_ok _ _ _ tt) by (rewrite Hcall; reflexivity).
  rewrite Hcall. cbn [res post emitted].
  unfold loginOutcome, step, answerLogin, bind, onThis, loginFinish, drain, loginError.
  cbn [get inFlight loggingIn res post emitted this].
  destruct (answer w) as [text | msg]; [| cbn; auto].
  destruct (extractSessFromHtml text) as [tok |]; [cbn; auto |].
  destruct (looksLikeLoginHtml text); cbn; auto.
Qed.

End SingleFlightProofs.

(** *** Pulses *)

Section PulseProofs.
Import JS Platform Pulse.

Lemma elem_of_cancelOld (old : option nat) (ts : list timer) (t : timer) :
  t ∈ cancelOld old ts <-> t ∈ ts /\ old <> Some (tid t).
Proof.
  destruct old as [id |]; cbn [cancelOld].
  - unfold cancel. rewrite list_elem_of_filter. 
    split; intros [H1 H2]; split; auto; congruence.
  - split; [intros Ht; split; [assumption | discriminate] | tauto].
Qed.

(** [pulseMotion] on an existing service, step by step. *)
Lemma pulseMotion_run (s : P) (svc : Hap.service) (key : string) :
  let old := _eventResetTimers (fst s) !! key in
  let o := pulseMotion (Some svc) key s in
  res o = Ok tt
  /\ emitted o =
     UpdateCharacteristic svc Hap.MotionDetected (Hap.Motion true)
     :: (match old with Some id => [ClearTimeout id] | None => [] end
         ++ [SetTimeout (nextTimer (snd s)) (pulseMs s)])
  /\ pending (snd (post o)) = cancelOld old (pending (snd s)) ++ [pulseTimer s svc key]
  /\ _eventResetTimers (fst (post o)) = <[key := nextTimer (snd s)]> (_eventResetTimers (fst s))
  /\ nextTimer (snd (post o)) = S (nextTimer (snd s))
  /\ now (snd (post o)) = now (snd s)
  /\ eventPulseMs (fst (post o)) = eventPulseMs (fst s).
Proof.
  destruct s as [p w]. cbv zeta. unfold pulseMotion, pulseTimer, pulseMs, bind.
  cbn [emit getThis res post emitted fst snd].
  destruct (_eventResetTimers p !! key) as [id |]; cbn; repeat split; reflexivity.
Qed.

Lemma pulseMotion_registered (s : P) (svc : Hap.service) (key : string) :
  registered s -> registered (post (pulseMotion (Some svc) key s)).
Proof.
  intros [Hp Hi Ho Hh].
  destruct (pulseMotion_run s svc key) as (_ & _ & HT & HM & HN & _ & _).
  cbv zeta in *.
  set (s1 := post (pulseMotion (Some svc) key s)) in *.
  assert (Hfresh : forall t, t ∈ pending (snd s) -> tid t <> nextTimer (snd s)).
  { intros t Ht E. specialize (Ho _ _ (Hp t Ht)). lia. }
  assert (Hkey : forall t, t ∈ cancelOld (_eventResetTimers (fst s) !! key) (pending (snd s)) ->
                           keyOf t <> key).
  { intros t Ht E. apply elem_of_cancelOld in Ht as [Ht Hne].
    apply Hne. rewrite <- E. apply Hp. exact Ht. }
  split.
  - intros t. rewrite HT, HM, elem_of_app, list_elem_of_singleton.
    intros [Ht | ->].
    + rewrite lookup_insert_ne by (intros E; exact (Hkey t Ht (eq_sym E))).
      apply Hp. apply elem_of_cancelOld in Ht. tauto.
    + cbn. apply lookup_insert_eq.
  - intros k k' id. rewrite HM.
    destruct (decide (key = k)) as [<- | Hk], (decide (key = k')) as [<- | Hk'];
      rewrite ?lookup_insert_eq, ?lookup_insert_ne by assumption; auto.
    + intros [= <-] Hl. apply Ho in Hl. lia.
    + intros Hl [= <-]. apply Ho in Hl. lia.
    + apply Hi.
  - intros k id. rewrite HM, HN.
    destruct (decide (key = k)) as [<- | Hk];
      rewrite ?lookup_insert_eq, ?lookup_insert_ne by assumption.
    + intros [= <-]. lia.
    + intros Hl. apply Ho in Hl. lia.
  - intros t t'. rewrite HT, !elem_of_app, !list_elem_of_singleton.
    intros [Ht | ->] [Ht' | ->]; auto.
    + apply elem_of_cancelOld in Ht, Ht'. apply Hh; tauto.
    + apply elem_of_cancelOld in Ht as [Ht _]. intros E. cbn in E.
      exfalso. exact (Hfresh t Ht E).
    + apply elem_of_cancelOld in Ht' as [Ht' _]. intros E. cbn in E.
      exfalso. exact (Hfresh t' Ht' (eq_sym E)).
Qed.


Lemma earliest_elem (ts : list timer) (t : timer) :
  earliest ts = Some t -> t ∈ ts /\ forall t', t' ∈ ts -> due t <= due t'.
Proof.
  revert t. induction ts as [| t0 ts IH]; intros t E; [discriminate |].
  cbn [earliest] in E.
  destruct (earliest ts) as [t1 |] eqn:E1.
  - destruct (IH t1 eq_refl) as [Hin Hmin].
    destruct (Z.ltb_spec (due t1) (due t0)); injection E as <-.
    + split; [right; assumption |].
      intros t' Ht'. apply elem_of_cons in Ht' as [-> | Ht']; [lia | auto].
    + split; [left |].
      intros t' Ht'. apply elem_of_cons in Ht' as [-> | Ht']; [lia |].
      specialize (Hmin t' Ht'). lia.
  - injection E as <-. destruct ts as [| t2 ts]; [| cbn in E1; destruct (earliest ts) as [t3 |];
      [destruct (due t3 <? due t2) |]; discriminate].
    split; [left |]. intros t' Ht'. apply list_elem_of_singleton in Ht' as ->. lia.
Qed.

Lemma earliest_none (ts : list timer) : earliest ts = None -> ts = [].
Proof.
  destruct ts as [| t ts]; [reflexivity |]. cbn.
  destruct (earliest ts) as [t' |]; [destruct (due t' <? due t) |]; discriminate.
Qed.

Lemma fired_run (t : timer) (s : P) :
  pending (snd (fired t s)) = cancel (tid t) (pending (snd s))
  /\ _eventResetTimers (fst (fired t s)) = delete (keyOf t) (_eventResetTimers (fst s))
  /\ nextTimer (snd (fired t s)) = nextTimer (snd s)
  /\ eventPulseMs (fst (fired t s)) = eventPulseMs (fst s).
Proof.
  destruct s as [p w]. unfold fired, keyOf. destruct (action t) as [svc key].
  repeat split; reflexivity.
Qed.

Lemma fired_registered (t : timer) (s : P) :
  registered s -> t ∈ pending (snd s) -> registered (fired t s).
Proof.
  intros [Hp Hi Ho Hh] Ht.
  destruct (fired_run t s) as (HT & HM & HN & _).
  split.
  - intros t'. rewrite HT, HM. unfold cancel. rewrite list_elem_of_filter.
    intros [Hne Ht'].
    rewrite lookup_delete_ne; [apply Hp; assumption |].
    intros E. apply Hne.
    pose proof (Hp t Ht) as H1. pose proof (Hp t' Ht') as H2.
    rewrite E in H1. congruence.
  - intros k k' id. rewrite HM. intros H1 H2.
    apply lookup_delete_Some in H1 as [_ H1], H2 as [_ H2]. eapply Hi; eassumption.
  - intros k id. rewrite HM, HN. intros H1.
    apply lookup_delete_Some in H1 as [_ H1]. eapply Ho; eassumption.
  - intros t1 t2. rewrite HT. unfold cancel. rewrite !list_elem_of_filter.
    intros [_ H1] [_ H2]. apply Hh; assumption.
Qed.

(** One round of [runTimers]. *)
Lemma runTimers_step (fuel : nat) (until : Z) (s : P) (t : timer) :
  earliest (pending (snd s)) = Some t -> due t <= until ->
  runTimers (S fuel) until s =
    {| res := res (runTimers fuel until (fired t s));
       post := post (runTimers fuel until (fired t s));
       emitted := resetOf t :: emitted (runTimers fuel until (fired t s)) |}.
Proof.
  intros E Hdue. destruct s as [p w]. cbn [runTimers fst snd] in *.
  rewrite E. destruct (Z.leb_spec (due t) until); [| lia].
  unfold fired, resetOf, signalOf, runCallback, bind.
  destruct (action t) as [svc key]. cbn. reflexivity.
Qed.

Lemma runTimers_stop (fuel : nat) (until : Z) (s : P) :
  (fuel = O \/ forall t, earliest (pending (snd s)) = Some t -> until < due t) ->
  runTimers fuel until s =
    {| res := Ok tt;
       post := (fst s, setClock until (pending (snd s)) (snd s));
       emitted := [] |}.
Proof.
  intros Hstop. destruct s as [p w]. cbn [fst snd] in *.
  destruct fuel as [| fuel]; [reflexivity |]. cbn [runTimers fst snd].
  destruct Hstop as [? | Hstop]; [discriminate |].
  destruct (earliest (pending w)) as [t |]; [| reflexivity].
  specialize (Hstop t eq_refl).
  destruct (Z.leb_spec (due t) until); [lia | reflexivity].
Qed.

Lemma setClock_registered (time : Z) (s : P) :
  registered s -> registered (fst s, setClock time (pending (snd s)) (snd s)).
Proof. intros [Hp Hi Ho Hh]. split; assumption. Qed.

(** Time passing keeps the registry in order, fires nothing that is not yet
    due, and resets only the signals of timers that were due. *)
Lemma runTimers_spec (fuel : nat) (until : Z) (s : P) :
  registered s ->
  let o := runTimers fuel until s in
  res o = Ok tt
  /\ registered (post o)
  /\ now (snd (post o)) = until
  /\ nextTimer (snd (post o)) = nextTimer (snd s)
  /\ eventPulseMs (fst (post o)) = eventPulseMs (fst s)
  /\ (forall t, t ∈ pending (snd (post o)) -> t ∈ pending (snd s))
  /\ (forall t, t ∈ pending (snd s) -> until < due t -> t ∈ pending (snd (post o)))
  /\ (forall e, e ∈ emitted o ->
        exists t, t ∈ pending (snd s) /\ due t <= until /\ e = resetOf t).
Proof.
  revert s. induction fuel as [| fuel IH]; intros s Hreg; cbv zeta.
  { rewrite runTimers_stop by auto. cbn [res post emitted fst snd setClock pending now nextTimer].
    split; [reflexivity |]. split; [apply setClock_registered; assumption |].
    repeat split; auto. intros e He. exfalso. exact (not_elem_of_nil e He). }
  destruct (earliest (pending (snd s))) as [t |] eqn:E.
  2: { rewrite runTimers_stop by (right; intros t Ht; congruence).
       cbn [res post emitted fst snd setClock pending now nextTimer].
       split; [reflexivity |]. split; [apply setClock_registered; assumption |].
       repeat split; auto. intros e He. exfalso. exact (not_elem_of_nil e He). }
  destruct (Z.leb_spec (due t) until) as [Hdue | Hdue].
  2: { rewrite runTimers_stop by (right; intros t' Ht'; congruence).
       cbn [res post emitted fst snd setClock pending now nextTimer].
       split; [reflexivity |]. split; [apply setClock_registered; assumption |].
       repeat split; auto. intros e He. exfalso. exact (not_elem_of_nil e He). }
  destruct (earliest_elem _ _ E) as [Hin Hmin].
  rewrite (runTimers_step fuel until s t E Hdue). cbn [res post emitted].
  destruct (fired_run t s) as (HT & HM & HN & HP).
  destruct (IH (fired t s) (fired_registered t s Hreg Hin))
    as (Hr & Hreg' & Hnow & Hnext & Hms & Hsub & Hkeep & Hem).
  split; [assumption |]. split; [assumption |]. split; [assumption |].
  split; [congruence |]. split; [congruence |].
  split; [| split].
  - intros t' Ht'. apply Hsub in Ht'. rewrite HT in Ht'.
    unfold cancel in Ht'. apply list_elem_of_filter in Ht'. tauto.
  - intros t' Ht' Hlate. apply Hkeep; [| assumption].
    rewrite HT. unfold cancel. apply list_elem_of_filter. split; [| assumption].
    intros Eid. destruct Hreg as [_ _ _ Hh].
    rewrite (Hh t' t Ht' Hin Eid) in Hlate. lia.
  - intros e He. apply elem_of_cons in He as [-> | He].
    + exists t. auto.
    + destruct (Hem e He) as (t' & Ht' & Hd & ->).
      exists t'. split; [| auto].
      rewrite HT in Ht'. unfold cancel in Ht'. apply list_elem_of_filter in Ht'. tauto.
Qed.

Lemma filter_none {A} (Q : A -> Prop) `{forall x, Decision (Q x)} (l : list A) :
  (forall x, x ∈ l -> ~ Q x) -> filter Q l = [].
Proof.
  induction l as [| x l IH]; intros Hl; [reflexivity |].
  rewrite filter_cons_False by (apply Hl; left).
  apply IH. intros y Hy. apply Hl. right. exact Hy.
Qed.

Lemma filter_within {A} (Q R : A -> Prop) `{forall x, Decision (Q x)}
    `{forall x, Decision (R x)} (l : list A) :
  (forall x, x ∈ l -> Q x -> R x) -> filter Q (filter R l) = filter Q l.
Proof.
  induction l as [| x l IH]; intros Hl; [reflexivity |].
  assert (IH' : filter Q (filter R l) = filter Q l)
    by (apply IH; intros y Hy; apply Hl; right; exact Hy).
  destruct (decide (Q x)) as [Hq | Hq].
  - rewrite (filter_cons_True R) by (apply Hl; [left | exact Hq]).
    rewrite !(filter_cons_True Q) by exact Hq. rewrite IH'. reflexivity.
  - rewrite (filter_cons_False Q x l) by exact Hq.
    destruct (decide (R x)) as [Hr | Hr].
    + rewrite (filter_cons_True R) by exact Hr.
      rewrite (filter_cons_False Q) by exact Hq. exact IH'.
    + rewrite (filter_cons_False R) by exact Hr. exact IH'.
Qed.

(** After a pulse the key has exactly the new reset pending, and the other
    keys have what they had. *)
Lemma pulseMotion_timers (s : P) (svc : Hap.service) (key : string) :
  registered s ->
  let s1 := post (pulseMotion (Some svc) key s) in
  timersFor key (pending (snd s1)) = [pulseTimer s svc key]
  /\ forall key', key' <> key ->
       timersFor key' (pending (snd s1)) = timersFor key' (pending (snd s))
       /\ _eventResetTimers (fst s1) !! key' = _eventResetTimers (fst s) !! key'.
Proof.
  intros Hreg. destruct (pulseMotion_run s svc key) as (_ & _ & HT & HM & _).
  cbv zeta in *. rewrite HT, HM. unfold timersFor. split.
  - rewrite filter_app, filter_none.
    + rewrite filter_cons_True by reflexivity. reflexivity.
    + intros t Ht E. apply elem_of_cancelOld in Ht as [Ht Hne].
      apply Hne. rewrite <- E. apply (reg_pending s Hreg). exact Ht.
  - intros key' Hne. split; [| apply lookup_insert_ne; congruence].
    rewrite filter_app, (filter_cons_False _ (pulseTimer s svc key))
      by (cbn; congruence).
    rewrite filter_nil, app_nil_r.
    destruct (_eventResetTimers (fst s) !! key) as [old |] eqn:Hold;
      cbn [cancelOld]; [| reflexivity].
    unfold cancel. apply filter_within.
    intros t Ht Hk Eid. apply Hne. rewrite <- Hk.
    apply (reg_inj s Hreg _ _ old); [| exact Hold].
    rewrite <- Eid. apply (reg_pending s Hreg). exact Ht.
Qed.

(** With enough rounds, a timer that is due fires and is gone. *)
Lemma runTimers_fires (fuel : nat) (until : Z) (s : P) (t : timer) :
  registered s -> (length (pending (snd s)) <= fuel)%nat ->
  t ∈ pending (snd s) -> due t <= until ->
  resetOf t ∈ emitted (runTimers fuel until s)
  /\ t ∉ pending (snd (post (runTimers fuel until s))).
Proof.
  revert s. induction fuel as [| fuel IH]; intros s Hreg Hlen Ht Hdue.
  { destruct (pending (snd s)); [exfalso; exact (not_elem_of_nil t Ht) | cbn in Hlen; lia]. }
  destruct (earliest (pending (snd s))) as [t0 |] eqn:E.
  2: { apply earliest_none in E. rewrite E in Ht. exfalso. exact (not_elem_of_nil t Ht). }
  destruct (earliest_elem _ _ E) as [Hin Hmin].
  assert (Hdue0 : due t0 <= until) by (specialize (Hmin t Ht); lia).
  rewrite (runTimers_step fuel until s t0 E Hdue0). cbn [res post emitted].
  destruct (fired_run t0 s) as (HT & _).
  pose proof (fired_registered t0 s Hreg Hin) as Hreg0.
  destruct (runTimers_spec fuel until (fired t0 s) Hreg0)
    as (_ & _ & _ & _ & _ & Hsub & _).
  destruct (decide (tid t = tid t0)) as [Eid | Nid].
  - rewrite (reg_handle s Hreg t t0 Ht Hin Eid). split; [left |].
    intros Hpost. apply Hsub in Hpost. rewrite HT in Hpost.
    unfold cancel in Hpost. apply list_elem_of_filter in Hpost as [Hne _].
    apply Hne. reflexivity.
  - assert (Ht' : t ∈ pending (snd (fired t0 s))).
    { rewrite HT. unfold cancel. apply list_elem_of_filter. auto. }
    assert (Hlen' : (length (pending (snd (fired t0 s))) <= fuel)%nat).
    { rewrite HT. unfold cancel.
      pose proof (length_filter_lt (fun x => tid x <> tid t0) (pending (snd s)) t0 Hin) as Hlt.
      cbv beta in Hlt. lia. }
    destruct (IH (fired t0 s) Hreg0 Hlen' Ht' Hdue) as [Hem Hgone].
    split; [right; exact Hem | exact Hgone].
Qed.

(** C9.  In a state whose registry is in order and in which the signal is
    pulsed under this key only: [pulseMotion] sets the signal active at
    once and leaves exactly one reset pending for the key, due one pulse
    duration later.  When it is called again before that, the signal has not
    gone inactive in between and the first reset is still pending; the call
    cancels it and leaves exactly one reset pending, due one pulse duration
    after the second call, which then fires and leaves none.  The pending
    resets and registry entries of every other key are untouched. *)
Theorem pulse_coalesces (s : P) (svc : Hap.service) (key : string) (dt : Z) :
  registered s -> ownSignal s svc key -> 0 <= dt < pulseMs s ->
  let first := pulseMotion (Some svc) key s in
  let between := advance dt (post first) in
  let second := pulseMotion (Some svc) key (post between) in
  let later := advance (pulseMs s) (post second) in
  let active := UpdateCharacteristic svc Hap.MotionDetected (Hap.Motion true) in
  let inactive := UpdateCharacteristic svc Hap.MotionDetected (Hap.Motion false) in
  let reset1 := {| tid := nextTimer (snd s); due := now (snd s) + pulseMs s;
                   action := ResetMotion svc key |} in
  let reset2 := {| tid := S (nextTimer (snd s)); due := now (snd s) + dt + pulseMs s;
                   action := ResetMotion svc key |} in
  head (emitted first) = Some active
  /\ timersFor key (pending (snd (post first))) = [reset1]
  /\ (inactive ∉ emitted between)
  /\ (reset1 ∈ pending (snd (post between)))
  /\ emitted second = [active; ClearTimeout (tid reset1); SetTimeout (tid reset2) (pulseMs s)]
  /\ timersFor key (pending (snd (post second))) = [reset2]
  /\ (inactive ∈ emitted later)
  /\ timersFor key (pending (snd (post later))) = []
  /\ (forall key', key' <> key ->
        timersFor key' (pending (snd (post first))) = timersFor key' (pending (snd s))
        /\ _eventResetTimers (fst (post first)) !! key'
           = _eventResetTimers (fst s) !! key')
  /\ registered (post second).
Proof.
  intros Hreg Hown Hdt. cbv zeta.
  destruct (pulseMotion_run s svc key) as (_ & Hem1 & HT1 & HM1 & HN1 & Hnow1 & Hms1).
  destruct (pulseMotion_timers s svc key Hreg) as (Hfor1 & Hother).
  pose proof (pulseMotion_registered s svc key Hreg) as Hreg1.
  cbv zeta in *.
  set (s1 := post (pulseMotion (Some svc) key s)) in *.
  assert (Hin1 : pulseTimer s svc key ∈ pending (snd s1))
    by (rewrite HT1, elem_of_app, list_elem_of_singleton; auto).
  unfold advance at 2 3.
  destruct (runTimers_spec (length (pending (snd s1))) (now (snd s1) + dt) s1 Hreg1)
    as (_ & Hreg' & Hnow' & Hnext' & Hms' & Hsub' & Hkeep' & Hem').
  cbv zeta in *.
  set (s' := post (runTimers _ _ s1)) in *.
  assert (Hin' : pulseTimer s svc key ∈ pending (snd s')).
  { apply Hkeep'; [exact Hin1 |]. cbn [pulseTimer due]. lia. }
  assert (Hold' : _eventResetTimers (fst s') !! key = Some (nextTimer (snd s)))
    by exact (reg_pending s' Hreg' _ Hin').
  destruct (pulseMotion_run s' svc key) as (_ & Hem2 & _ & _ & _ & Hnow2 & Hms2).
  destruct (pulseMotion_timers s' svc key Hreg') as (Hfor2 & _).
  pose proof (pulseMotion_registered s' svc key Hreg') as Hreg2.
  cbv zeta in *.
  set (s2 := post (pulseMotion (Some svc) key s')) in *.
  assert (Hms : pulseMs s' = pulseMs s) by (unfold pulseMs; congruence).
  assert (Ereset2 : pulseTimer s' svc key =
                    {| tid := S (nextTimer (snd s)); due := now (snd s) + dt + pulseMs s;
                       action := ResetMotion svc key |}).
  { unfold pulseTimer. rewrite Hms, Hnow', Hnext', HN1, Hnow1. reflexivity. }
  rewrite Ereset2 in Hfor2.
  assert (Hin2 : {| tid := S (nextTimer (snd s)); due := now (snd s) + dt + pulseMs s;
                    action := ResetMotion svc key |} ∈ pending (snd s2)).
  { assert (Hx : {| tid := S (nextTimer (snd s)); due := now (snd s) + dt + pulseMs s;
                    action := ResetMotion svc key |} ∈ timersFor key (pending (snd s2)))
      by (rewrite Hfor2; left).
    unfold timersFor in Hx. apply list_elem_of_filter in Hx. tauto. }
  destruct (runTimers_fires (length (pending (snd s2))) (now (snd s2) + pulseMs s) s2 _
              Hreg2 (Nat.le_refl _) Hin2) as [Hfire Hgone].
  { cbn [due]. rewrite Hnow2, Hnow', Hnow1. lia. }
  destruct (runTimers_spec (length (pending (snd s2))) (now (snd s2) + pulseMs s) s2 Hreg2)
    as (_ & _ & _ & _ & _ & Hsub3 & _).
  cbv zeta in *.
  split; [rewrite Hem1; reflexivity |].
  split; [exact Hfor1 |].
  split.
  { intros He. destruct (Hem' _ He) as (t & Ht & Hdue & Et).
    injection Et as Esvc.
    rewrite HT1, elem_of_app, list_elem_of_singleton in Ht.
    destruct Ht as [Ht | ->].
    - apply elem_of_cancelOld in Ht as [Ht Hne].
      apply Hne. rewrite <- (Hown t Ht (eq_sym Esvc)).
      apply (reg_pending s Hreg). exact Ht.
    - cbn [pulseTimer due] in Hdue. lia. }
  split; [exact Hin' |].
  split; [rewrite Hem2, Hold', Hnext', HN1, Hms; reflexivity |].
  split; [exact Hfor2 |].
  split; [exact Hfire |].
  split.
  { unfold advance. apply filter_none. intros t Ht Hk.
    apply Hsub3 in Ht as Ht2.
    assert (Hx : t ∈ timersFor key (pending (snd s2)))
      by (unfold timersFor; apply list_elem_of_filter; auto).
    rewrite Hfor2 in Hx. apply list_elem_of_singleton in Hx. subst t.
    exact (Hgone Ht). }
  split; [exact Hother |].
  exact Hreg2.
Qed.

(** The wiring of signals to keys survives a pulse and the passing of time. *)
Lemma pulseMotion_ownSignal (s : P) (svc svc' : Hap.service) (key key' : string) :
  ownSignal s svc' key' -> (svc' = svc -> key' = key) ->
  ownSignal (post (pulseMotion (Some svc) key s)) svc' key'.
Proof.
  intros Hown Hsame t.
  destruct (pulseMotion_run s svc key) as (_ & _ & HT & _). cbv zeta in HT.
  rewrite HT, elem_of_app, list_elem_of_singleton.
  intros [Ht | ->].
  - apply elem_of_cancelOld in Ht as [Ht _]. apply Hown. exact Ht.
  - cbn. intros <-. symmetry. apply Hsame. reflexivity.
Qed.

Lemma advance_ownSignal (s : P) (svc : Hap.service) (key : string) (dt : Z) :
  registered s -> ownSignal s svc key -> ownSignal (post (advance dt s)) svc key.
Proof.
  intros Hreg Hown t Ht. unfold advance in Ht.
  destruct (runTimers_spec (length (pending (snd s))) (now (snd s) + dt) s Hreg)
    as (_ & _ & _ & _ & _ & Hsub & _).
  apply Hown. apply Hsub. exact Ht.
Qed.

End PulseProofs.

(** A platform that has just been set up has no timers: its registry is in
    order. *)
Lemma launched_registered (a : XRApi.api) (w : world) :
  pending w = [] ->
  Pulse.registered (Scenario.launched a, w).
Proof.
  intros Hw. split; cbn [fst snd Scenario.launched Platform._eventResetTimers].
  - intros t Ht. rewrite Hw in Ht. exfalso. exact (not_elem_of_nil t Ht).
  - intros k k' id Hk. rewrite lookup_empty in Hk. discriminate.
  - intros k id Hk. rewrite lookup_empty in Hk. discriminate.
  - intros t t' Ht. rewrite Hw in Ht. exfalso. exact (not_elem_of_nil t Ht).
Qed.

Lemma pulse_coalesces_witness :
  Pulse.timersFor "alarm"
    (pending (snd (post
       (Platform.pulseMotion (Some Hap.AlarmEvents) "alarm"
          (post (Platform.advance 1000
                   (post (Platform.pulseMotion (Some Hap.AlarmEvents) "alarm"
                            Scenario.atRest))))))))
  = [{| tid := 1; due := 2500; action := ResetMotion Hap.AlarmEvents "alarm" |}].
Proof.
  destruct (pulse_coalesces Scenario.atRest Hap.AlarmEvents "alarm" 1000)
    as (_ & _ & _ & _ & _ & Hone & _).
  - apply launched_registered. reflexivity.
  - intros t Ht. exfalso. exact (not_elem_of_nil t Ht).
  - change (0 <= 1000 < 1500). lia.
  - exact Hone.
Defined.

(** [setupAccessories] takes the platform from its constructor to the state
    the polls start from. *)
Example setupAccessories_launches :
  fst (post (Platform.setupAccessories
               (Scenario.constructed Scenario.loggedOut, Scenario.panel [])))
  = Scenario.launched Scenario.loggedOut.
Proof. reflexivity. Qed.

(* ===================================================================== *)
(** ** Further properties *)
(* ===================================================================== *)

(** *** Bits and bytes of the blob *)

Section BitProofs.
Import JS XRApi Decoder Bytes.

(** X1.  The decoder reads bit [areaIndex % 8] of the two arm bytes, the full-arm
    byte first.  A negative remainder masks a bit above the byte, and the
    area reads DISARMED. *)
Theorem decode_reads_arm_bits (blob : string) (i stpartial starm : Z) :
  byteOf blob 4 = Some stpartial ->
  byteOf blob 6 = Some starm ->
  decodeAreaModeFromBankstates (VStr blob) (Int i) =
    Ok (if Z.ltb (Z.rem i 8) 0 then "DISARMED"
        else if Z.testbit starm (Z.rem i 8) then "AWAY"
        else if Z.testbit stpartial (Z.rem i 8) then "STAY"
        else "DISARMED")%string.
Proof.
  intros Hp Ha.
  assert (Hne : blob <> EmptyString).
  { intros ->. discriminate. }
  rewrite (decode_nonempty blob (Int i) Hne).
  unfold fullArmBit, partialArmBit.
  change 6 with (Z.of_nat 6). change 4 with (Z.of_nat 4).
  rewrite (bitAt_byte blob 6 starm i Ha), (bitAt_byte blob 4 stpartial i Hp).
  destruct (Z.rem i 8 <? 0); reflexivity.
Qed.

Lemma decode_reads_arm_bits_witness :
  decodeAreaModeFromBankstates (VStr "000002010000") (Int 9) = Ok "STAY"%string.
Proof.
  apply (decode_reads_arm_bits "000002010000" 9 2 1); reflexivity.
Defined.

(** X2.  A zone reads bit [(z - 1) % 8] of byte [(z - 1) / 8] of the blob,
    whatever [zoneOpenBank] is; a zone whose byte lies outside the blob
    (zone 0 and below included) reads as a clear bit. *)
Theorem zone_reads_its_bit (blob : string) (z bank : Z) (pol : bool) :
  (forall byte,
      1 <= z ->
      byteOf blob (Z.to_nat (2 * ((z - 1) / 8))) = Some byte ->
      isZoneOpenFromBanks (VStr blob) (Int z) (Int bank) pol =
        Ok (if pol then Z.testbit byte ((z - 1) mod 8)
            else negb (Z.testbit byte ((z - 1) mod 8))))
  /\ (blob <> EmptyString ->
      outOfRange blob (Int (2 * ((z - 1) / 8))) ->
      isZoneOpenFromBanks (VStr blob) (Int z) (Int bank) pol = Ok (negb pol)).
Proof.
  split.
  - intros byte Hz Hb.
    assert (Hne : blob <> EmptyString) by (intros ->; discriminate).
    apply byteOf_read in Hb as [Hread Hrange].
    rewrite Z2Nat.id in Hread by (apply Z.mul_nonneg_nonneg; [lia | apply Z.div_pos; lia]).
    unfold isZoneOpenFromBanks. rewrite (truthy_nonempty blob Hne).
    cbn [negb sub mul floorDiv add rem Z.eqb].
    replace (2 * ((z - 1) / 8) + bank * 0) with (2 * ((z - 1) / 8)) by lia.
    rewrite Hread. cbn [resultBind].
    rewrite mask_of_remainder;
      [| assumption | pose proof (Z.rem_bound_abs (z - 1) 8); lia].
    rewrite Z.rem_mod_nonneg by lia.
    destruct (Z.ltb_spec ((z - 1) mod 8) 0) as [Hneg | _].
    + pose proof (Z.mod_pos_bound (z - 1) 8). lia.
    + reflexivity.
  - intros Hne Hout.
    unfold isZoneOpenFromBanks. rewrite (truthy_nonempty blob Hne).
    cbn [negb sub mul floorDiv add rem Z.eqb].
    replace (2 * ((z - 1) / 8) + bank * 0) with (2 * ((z - 1) / 8)) by lia.
    apply slice_out_of_range in Hout.
    unfold _hexByteAt.
    destruct (Nat.eqb_spec
                (String.length (substring blob (Int (2 * ((z - 1) / 8)))
                                  (add (Int (2 * ((z - 1) / 8))) (Int 2)))) 2)
      as [E | E]; [contradiction |].
    rewrite orb_true_r. cbn [resultBind].
    destruct pol; reflexivity.
Qed.

Lemma zone_reads_its_bit_witness :
  isZoneOpenFromBanks (VStr "0004") (Int 11) (Int 5) true = Ok true
  /\ isZoneOpenFromBanks (VStr "0004") (Int 0) (Int 5) false = Ok true.
Proof.
  split.
  - apply (proj1 (zone_reads_its_bit "0004" 11 5 true) 4); [lia | reflexivity].
  - apply (proj2 (zone_reads_its_bit "0004" 0 5 false)); [discriminate |].
    left. reflexivity.
Defined.


(** *** What the decoder looks at *)

Lemma substring_none (s : string) (n : nat) : String.substring n 0 s = EmptyString.
Proof.
  revert n. induction s as [| c s IH]; intros [| n]; cbn [String.substring];
    auto.
Qed.

Lemma substring_clip (s : string) (n m : nat) :
  (String.length s - n <= m)%nat ->
  String.substring n m s = String.substring n (String.length s - n) s.
Proof.
  revert n m. induction s as [| c s IH]; intros n m Hm.
  - destruct n, m; reflexivity.
  - destruct n as [| n].
    + cbn [String.length Nat.sub] in *. destruct m as [| m]; [lia |].
      cbn [String.substring]. f_equal.
      rewrite (IH 0%nat m) by lia. rewrite Nat.sub_0_r.
      rewrite (IH 0%nat (String.length s)) by lia. rewrite Nat.sub_0_r. reflexivity.
    + cbn [String.length Nat.sub String.substring] in *. apply IH. exact Hm.
Qed.

(** The slice [_hexByteAt] takes at an offset that is not negative. *)
Lemma slice_at (s : string) (z : Z) :
  0 <= z ->
  substring s (Int z) (add (Int z) (Int 2)) = String.substring (Z.to_nat z) 2 s.
Proof.
  intros Hz.
  destruct (Z_le_gt_dec (z + 2) (strlen s)) as [Hin | Hout];
    [apply slice_in_range; assumption |].
  unfold substring, add, clampIndex, strlen in *.
  set (len := String.length s) in *.
  destruct (Z_le_gt_dec z (Z.of_nat len)) as [Hle | Hgt].
  - replace (Z.min (Z.max 0 (Z.min z (Z.of_nat len)))
               (Z.max 0 (Z.min (z + 2) (Z.of_nat len)))) with z by lia.
    replace (Z.max (Z.max 0 (Z.min z (Z.of_nat len)))
               (Z.max 0 (Z.min (z + 2) (Z.of_nat len)))) with (Z.of_nat len) by lia.
    rewrite (substring_clip s (Z.to_nat z) 2) by (subst len; lia).
    f_equal. subst len. lia.
  - replace (Z.min (Z.max 0 (Z.min z (Z.of_nat len)))
               (Z.max 0 (Z.min (z + 2) (Z.of_nat len)))) with (Z.of_nat len) by lia.
    replace (Z.max (Z.max 0 (Z.min z (Z.of_nat len)))
               (Z.max 0 (Z.min (z + 2) (Z.of_nat len)))) with (Z.of_nat len) by lia.
    rewrite Z.sub_diag. cbn [Z.to_nat]. rewrite substring_none.
    rewrite (substring_clip s (Z.to_nat z) 2) by (subst len; lia).
    replace (String.length s - Z.to_nat z)%nat with 0%nat by (subst len; lia).
    rewrite substring_none. reflexivity.
Qed.

Lemma substring_head (s : string) (j m w : nat) :
  (j + m <= w)%nat ->
  String.substring j m (String.substring 0 w s) = String.substring j m s.
Proof.
  revert s m w. induction j as [| j IH]; intros s m w Hw.
  - cbn [Nat.add] in Hw. revert s w Hw. induction m as [| m IHm]; intros s w Hw.
    + rewrite !substring_none. reflexivity.
    + destruct w as [| w]; [lia |].
      destruct s as [| c s]; [reflexivity |].
      cbn [String.substring]. f_equal. apply IHm. lia.
  - destruct w as [| w]; [lia |].
    destruct s as [| c s]; [reflexivity |].
    cbn [String.substring]. apply IH. lia.
Qed.

Lemma substring_window (s : string) (n j m w : nat) :
  (j + m <= w)%nat ->
  String.substring j m (String.substring n w s) = String.substring (n + j) m s.
Proof.
  intros Hw. revert s. induction n as [| n IH]; intros s.
  - apply substring_head, Hw.
  - destruct s as [| c s].
    + cbn [String.substring Nat.add]. destruct j, m; reflexivity.
    + cbn [String.substring Nat.add]. apply IH.
Qed.

(** The two arm bytes are read from the characters 4 to 7 of the blob. *)
Lemma arm_bytes_window (blob : string) (k : nat) :
  (k = 0 \/ k = 2)%nat ->
  _hexByteAt (VStr blob) (Int (Z.of_nat (4 + k))) =
    let hex := String.substring k 2 (String.substring 4 4 blob) in
    if negb (truthyStr hex) || negb (String.length hex =? 2)%nat
    then Ok (Int 0) else Ok (parseInt16 hex).
Proof.
  intros Hk. unfold _hexByteAt.
  rewrite slice_at by lia. rewrite Nat2Z.id.
  assert (Hw : String.substring k 2 (String.substring 4 4 blob)
               = String.substring (4 + k) 2 blob).
  { apply substring_window. lia. }
  cbv zeta. rewrite Hw. reflexivity.
Qed.


(** X3.  The decoded mode hangs on the characters 4 to 7 of the blob and on the
    area index modulo 8, and on nothing else: two blobs that agree on those
    four characters decode alike, whatever the exit-delay bytes and the rest
    of the blob hold, and so do two area indices with the same remainder. *)
Theorem decode_looks_at_the_arm_bytes (blob blob' : string) (i i' : number) :
  blob <> EmptyString -> blob' <> EmptyString ->
  String.substring 4 4 blob = String.substring 4 4 blob' ->
  rem i (Int 8) = rem i' (Int 8) ->
  decodeAreaModeFromBankstates (VStr blob) i
  = decodeAreaModeFromBankstates (VStr blob') i'.
Proof.
  intros Hne Hne' Hchars Hrem.
  rewrite (decode_nonempty blob i Hne), (decode_nonempty blob' i' Hne').
  unfold fullArmBit, partialArmBit, bitAt, areaMask.
  change (Int 6) with (Int (Z.of_nat (4 + 2))).
  change (Int 4) with (Int (Z.of_nat (4 + 0))).
  rewrite !arm_bytes_window by auto.
  rewrite Hchars, Hrem. reflexivity.
Qed.

Lemma decode_looks_at_the_arm_bytes_witness :
  decodeAreaModeFromBankstates (VStr "00000001000000000000") (Int 0)
  = decodeAreaModeFromBankstates (VStr "zzzz0001ff") (Int 8).
Proof.
  apply decode_looks_at_the_arm_bytes; (discriminate || reflexivity).
Defined.

End BitProofs.

(** *** The protocol client *)

Section ProtocolProofs.
Import JS XRApi Client Protocol.

Lemma untouched_refl (x : X) : untouched x x.
Proof. unfold untouched. repeat split; reflexivity. Qed.

Lemma untouched_trans (x y z : X) : untouched x y -> untouched y z -> untouched x z.
Proof.
  unfold untouched. intros (?&?&?&?&?&?&?&?) (?&?&?&?&?&?&?&?).
  repeat split; try congruence. lia.
Qed.

Lemma steady_ret {A} (a : A) : steady (ret a).
Proof. intros x. apply untouched_refl. Qed.

Lemma steady_throw {A} (e : error) : steady (throw (A := A) e).
Proof. intros x. apply untouched_refl. Qed.

Lemma steady_emit (e : effect) : steady (emit e).
Proof. intros x. apply untouched_refl. Qed.

Lemma steady_liftResult {A} (r : result A) : steady (liftResult r).
Proof. destruct r; [apply steady_ret | apply steady_throw]. Qed.

Lemma steady_bind {A B} (m : M X A) (k : A -> M X B) :
  steady m -> (forall a, steady (k a)) -> steady (bind m k).
Proof.
  intros Hm Hk x. unfold bind.
  destruct (res (m x)) as [a | e]; cbn [post].
  - eapply untouched_trans; [apply Hm | apply Hk].
  - apply Hm.
Qed.

Lemma steady_fetch (req : httpRequest) : steady (fetch req).
Proof.
  intros x. unfold fetch, untouched. cbn. repeat split; lia.
Qed.

Lemma steady_get : steady (liftApi get).
Proof. intros x. destruct x. apply untouched_refl. Qed.

Lemma steady_baseUrl (path : string) : steady (liftApi (baseUrl path)).
Proof.
  intros [a w]. unfold liftApi, baseUrl, bind, get. cbn.
  destruct (negb (truthyStr (host a))); apply untouched_refl.
Qed.

Lemma steady_loginRequest : steady (liftApi loginRequest).
Proof.
  intros [a w]. unfold liftApi, loginRequest, baseUrl, bind, get, modify. cbn.
  destruct (negb (truthyStr (host a))); cbn; unfold untouched; cbn;
    repeat split; lia.
Qed.

Lemma steady_loginFinish (text : string) : steady (liftApi (loginFinish text)).
Proof.
  intros [a w]. unfold liftApi, loginFinish.
  destruct (extractSessFromHtml text) as [tok |].
  - unfold bind, modify, emit, untouched. cbn. repeat split; lia.
  - destruct (looksLikeLoginHtml text); apply untouched_refl.
Qed.

Lemma steady_login : steady login.
Proof.
  unfold login.
  apply steady_bind; [apply steady_loginRequest | intros req].
  apply steady_bind; [apply steady_fetch | intros text].
  apply steady_loginFinish.
Qed.

Lemma steady_ensureLoggedIn : steady ensureLoggedIn.
Proof.
  unfold ensureLoggedIn.
  apply steady_bind; [apply steady_get | intros a].
  destruct (hasSess a); [apply steady_ret | apply steady_login].
Qed.

Context `{Runtime}.

Lemma steady_parseResponse (path text : string) (expectJson : bool) :
  steady (parseResponse path text expectJson).
Proof.
  intros x. destruct (parseResponse_pure path text expectJson x) as (-> & _).
  apply untouched_refl.
Qed.

Lemma steady_requestN (retries : nat) (path method : string) (data : option string)
    (expectJson : bool) :
  steady (requestN retries path method data expectJson).
Proof.
  induction retries as [| r IH]; cbn [requestN].
  - apply steady_bind; [apply steady_ensureLoggedIn | intros _].
    apply steady_bind; [apply steady_baseUrl | intros url].
    apply steady_bind; [apply steady_get | intros a].
    apply steady_bind; [apply steady_fetch | intros text].
    apply steady_parseResponse.
  - apply steady_bind; [apply steady_ensureLoggedIn | intros _].
    apply steady_bind; [apply steady_baseUrl | intros url].
    apply steady_bind; [apply steady_get | intros a].
    apply steady_bind; [apply steady_fetch | intros text].
    destruct (looksLikeLoginHtml text); [| apply steady_parseResponse].
    apply steady_bind; [apply steady_emit | intros _].
    apply steady_bind; [apply steady_emit | intros _].
    apply steady_bind; [apply steady_login | intros _].
    apply IH.
Qed.

Lemma steady_status (areaIndex : number) : steady (status areaIndex).
Proof. apply steady_requestN. Qed.

Lemma steady_keyFunction (fnum areaIndex : number) : steady (keyFunction fnum areaIndex).
Proof. apply steady_requestN. Qed.

Lemma reading_parseResponse (path text : string) (expectJson : bool) (x : X) :
  res (parseResponse path text expectJson x) = reading path text expectJson.
Proof.
  unfold parseResponse, reading, slice0.
  destruct expectJson; cbn [negb]; [| reflexivity].
  destruct (JSON_parse text) as [parsed |]; [| reflexivity].
  destruct parsed as [| | b | n | s | items | fields]; cbn [truthy panelError];
    try reflexivity.
  - destruct b; reflexivity.
  - destruct n as [| z]; [reflexivity |]. destruct (negb (z =? 0)); reflexivity.
  - destruct (truthyStr s); reflexivity.
  - unfold bind. cbn. destruct (truthy (lookupField "error" fields)); reflexivity.
Qed.


(** X4.  With a session and a host, a call whose first answer is no login page
    sends one request and nothing else: no login, no retry, the session as
    it was.  A transport failure is raised as it is; a response is returned
    as text, or parsed, a document with a truthy [error] member being raised
    as a panel error and a text that is no JSON as an invalid-JSON error
    quoting its first 120 characters. *)
Theorem request_with_session_is_one_round_trip (a : api) (w : world)
    (path method : string) (data : option string) (expectJson retry : bool) :
  hasSess a = true -> truthyStr (host a) = true ->
  let o := request path method data expectJson retry (a, w) in
  match answer w with
  | Unreachable msg =>
      emitted o = [Fetch (frame a (urlOf a path) method data)]
      /\ post o = (a, consume w)
      /\ res o = Throw (TransportError msg)
  | Body text =>
      looksLikeLoginHtml text = false ->
      emitted o = [Fetch (frame a (urlOf a path) method data)]
      /\ post o = (a, consume w)
      /\ res o = reading path text expectJson
  end.
Proof.
  intros Hs Hh o. subst o. unfold request.
  rewrite (requestN_with_session _ a w path method data expectJson Hs Hh).
  destruct (answer w) as [text | msg] eqn:Hanswer.
  - intros Hlogin.
    assert (Hfetch : fetch (frame a (urlOf a path) method data) (a, w) =
                     {| res := Ok text; post := (a, consume w);
                        emitted := [Fetch (frame a (urlOf a path) method data)] |}).
    { unfold fetch. cbn [fst snd]. rewrite Hanswer. reflexivity. }
    rewrite (bind_ok _ _ _ text) by (rewrite Hfetch; reflexivity).
    rewrite Hfetch, Hlogin. cbn [res post emitted].
    assert (Hfinal : (match (if retry then 1%nat else 0%nat) with
                      | S _ => parseResponse path text expectJson
                      | O => parseResponse path text expectJson
                      end) = parseResponse path text expectJson)
      by (destruct retry; reflexivity).
    rewrite Hfinal.
    destruct (parseResponse_pure path text expectJson (a, consume w)) as (-> & -> & _).
    rewrite reading_parseResponse. auto.
  - assert (Hfetch : fetch (frame a (urlOf a path) method data) (a, w) =
                     {| res := Throw (TransportError msg); post := (a, consume w);
                        emitted := [Fetch (frame a (urlOf a path) method data)] |}).
    { unfold fetch. cbn [fst snd]. rewrite Hanswer. reflexivity. }
    rewrite (bind_throw _ _ _ (TransportError msg)) by (rewrite Hfetch; reflexivity).
    rewrite Hfetch. auto.
Qed.



Lemma baseUrl_without_host (a : api) (w : world) (path : string) :
  truthyStr (host a) = false ->
  liftApi (baseUrl path) (a, w) =
    {| res := Throw HostUndefined; post := (a, w); emitted := [] |}.
Proof.
  intros Hh. unfold liftApi, baseUrl, bind. cbn. rewrite Hh. reflexivity.
Qed.

Lemma login_without_host (a : api) (w : world) :
  truthyStr (host a) = false ->
  login (a, w) =
    {| res := Throw HostUndefined; post := (setSess None a, w); emitted := [] |}.
Proof.
  intros Hh.
  assert (Hreq : liftApi loginRequest (a, w) =
                 {| res := Throw HostUndefined; post := (setSess None a, w);
                    emitted := [] |}).
  { unfold liftApi, loginRequest, baseUrl, bind. cbn. rewrite Hh. reflexivity. }
  unfold login.
  rewrite (bind_throw _ _ _ HostUndefined) by (rewrite Hreq; reflexivity).
  rewrite Hreq. reflexivity.
Qed.

(** X5.  With no host configured nothing reaches the network: a call and a login
    both fail with the host error before any request is sent, with or
    without a session. *)
Theorem nothing_is_sent_without_host (a : api) (w : world)
    (path method : string) (data : option string) (expectJson retry : bool) :
  truthyStr (host a) = false ->
  (res (request path method data expectJson retry (a, w)) = Throw HostUndefined
   /\ emitted (request path method data expectJson retry (a, w)) = []
   /\ snd (post (request path method data expectJson retry (a, w))) = w)
  /\ (res (login (a, w)) = Throw HostUndefined
      /\ emitted (login (a, w)) = []
      /\ snd (post (login (a, w))) = w).
Proof.
  intros Hh.
  pose proof (login_without_host a w Hh) as Hlogin.
  split; [| rewrite Hlogin; auto].
  unfold request.
  assert (Hcall : forall r, exists a',
             requestN r path method data expectJson (a, w) =
             {| res := Throw HostUndefined; post := (a', w); emitted := [] |}).
  { intros r. destruct (hasSess a) eqn:Hs.
    - exists a. pose proof (baseUrl_without_host a w path Hh) as Hb.
      destruct r; cbn [requestN];
        rewrite (bind_silent _ _ _ _ _ (ensureLoggedIn_skips a w Hs));
        rewrite (bind_throw _ _ _ HostUndefined) by (rewrite Hb; reflexivity);
        rewrite Hb; reflexivity.
    - exists (setSess None a).
      assert (He : ensureLoggedIn (a, w) =
                   {| res := Throw HostUndefined; post := (setSess None a, w);
                      emitted := [] |}).
      { unfold ensureLoggedIn.
        rewrite (bind_silent (liftApi get) _ (a, w) (a, w) a eq_refl).
        rewrite Hs. exact Hlogin. }
      destruct r; cbn [requestN];
        rewrite (bind_throw _ _ _ HostUndefined) by (rewrite He; reflexivity);
        rewrite He; reflexivity. }
  destruct (Hcall (if retry then 1%nat else 0%nat)) as [a' ->]. auto.
Qed.



(** *** Tokens and form fields *)

Lemma hexDigit_unreserved (c : ascii) : isHexDigit c = true -> isUnreserved c = true.
Proof.
  destruct c as [[] [] [] [] [] [] [] []]; vm_compute; congruence.
Qed.

Lemma encode_unreserved (s : string) :
  List.forallb isUnreserved (list_ascii_of_string s) = true ->
  encodeURIComponent s = s.
Proof.
  induction s as [| c s IH]; [reflexivity |].
  cbn [list_ascii_of_string List.forallb encodeURIComponent].
  intros [Hc Hs]%andb_prop. rewrite Hc, (IH Hs). reflexivity.
Qed.

Lemma eatHex_digits (n : nat) (s tok rest : string) :
  eatHex n s = Some (tok, rest) ->
  List.forallb isHexDigit (list_ascii_of_string tok) = true /\ s = (tok ++ rest)%string.
Proof.
  revert s tok rest. induction n as [| n IH]; intros s tok rest E.
  - cbn in E. injection E as <- <-. split; reflexivity.
  - cbn [eatHex] in E. destruct s as [| c s]; [discriminate |].
    destruct (isHexDigit c) eqn:Hc; [| discriminate].
    destruct (eatHex n s) as [[d r] |] eqn:En; [| discriminate].
    cbn in E. injection E as <- <-.
    destruct (IH _ _ _ En) as [Hd ->].
    cbn [list_ascii_of_string List.forallb].
    split; [apply andb_true_intro; split; assumption | reflexivity].
Qed.

Lemma eatHex_token (tok rest : string) :
  List.forallb isHexDigit (list_ascii_of_string tok) = true ->
  eatHex (String.length tok) (tok ++ rest) = Some (tok, rest).
Proof.
  induction tok as [| c tok IH]; [reflexivity |].
  cbn [list_ascii_of_string List.forallb String.length eatHex String.append].
  intros [Hc Ht]%andb_prop.
  change (String c tok +:+ rest) with (String c (tok +:+ rest)).
  cbn iota. rewrite Hc, (IH Ht). reflexivity.
Qed.

Lemma matchGetSession_token (s tok : string) :
  matchGetSession s = Some tok -> isToken tok = true.
Proof.
  unfold matchGetSession. intros E. peel E.
  destruct p as [t r]. peel E. injection E as <-.
  unfold isToken. rewrite (eatHex_length _ _ _ _ F3).
  apply eatHex_digits in F3 as [-> _]. reflexivity.
Qed.

Lemma matchSessAssign_token (s tok : string) :
  matchSessAssign s = Some tok -> isToken tok = true.
Proof.
  unfold matchSessAssign. intros E. peel E.
  destruct p as [t r]. injection E as <-.
  unfold isToken. rewrite (eatHex_length _ _ _ _ F1).
  apply eatHex_digits in F1 as [-> _]. reflexivity.
Qed.

Lemma token_encodes_as_itself (tok : string) :
  isToken tok = true -> encodeURIComponent tok = tok.
Proof.
  unfold isToken. intros [_ Hd]%andb_prop.
  apply encode_unreserved.
  rewrite List.forallb_forall in *. intros c Hc.
  apply hexDigit_unreserved, Hd, Hc.
Qed.

Lemma search_here (anchored : string -> option string) (s tok : string) :
  anchored s = Some tok -> search anchored s = Some tok.
Proof. intros E. destruct s; cbn [search]; rewrite E; reflexivity. Qed.

Lemma search_later (anchored : string -> option string) (pre s tok : string) :
  anchored s = Some tok -> exists tok', search anchored (pre ++ s) = Some tok'.
Proof.
  intros E. induction pre as [| c pre IH].
  - exists tok. apply search_here, E.
  - change (String c pre +:+ s) with (String c (pre +:+ s)). cbn [search].
    destruct (anchored (String c (pre +:+ s))) as [t |]; [eauto | exact IH].
Qed.

(** X6.  A token that [extractSessFromHtml] returns is sixteen hexadecimal
    digits, so it is truthy and goes into a form as it is. *)
Theorem extracted_token_is_well_formed (html tok : string) :
  extractSessFromHtml html = Some tok ->
  isToken tok = true
  /\ truthyStr tok = true
  /\ encodeURIComponent tok = tok.
Proof.
  intros E.
  assert (Ht : isToken tok = true).
  { unfold extractSessFromHtml in E.
    destruct (negb (truthyStr html)); [discriminate |].
    destruct (search matchGetSession html) as [m1 |] eqn:E1.
    - injection E as <-. apply search_found in E1 as [s' E1].
      eapply matchGetSession_token; eassumption.
    - destruct (search matchSessAssign html) as [m2 |] eqn:E2; [| discriminate].
      injection E as <-. apply search_found in E2 as [s' E2].
      eapply matchSessAssign_token; eassumption. }
  split; [exact Ht |]. split; [| apply token_encodes_as_itself, Ht].
  apply extractSess_length in E. destruct tok; [discriminate | reflexivity].
Qed.


Lemma hexDigit_plain (c : ascii) :
  isHexDigit c = true -> isWhiteSpace c = false /\ Ascii.eqb (foldCase c) (foldCase dquote) = false.
Proof.
  destruct c as [[] [] [] [] [] [] [] []]; vm_compute; intros E;
    try discriminate; split; reflexivity.
Qed.

Lemma matchGetSession_script (tok rest : string) :
  isToken tok = true ->
  matchGetSession ("getSession(){return " +:+ String dquote (tok +:+ String dquote (";}" +:+ rest)))
  = Some tok.
Proof.
  unfold isToken. intros [Hlen Hd]%andb_prop. apply Nat.eqb_eq in Hlen.
  assert (E : forall text,
             matchGetSession ("getSession(){return " +:+ String dquote text) =
             '(tok, s) ← eatHex 16 text;
             s ← eatChar dquote s;
             s ← eatLit ";" (trimStart s);
             _ ← eatLit "}" (trimStart s);
             Some tok) by reflexivity.
  rewrite E, <- Hlen, (eatHex_token tok _ Hd). reflexivity.
Qed.

Lemma matchSessAssign_field (tok rest : string) :
  isToken tok = true ->
  matchSessAssign ("sess=" +:+ tok +:+ rest) = Some tok.
Proof.
  unfold isToken. intros [Hlen Hd]%andb_prop. apply Nat.eqb_eq in Hlen.
  assert (E : forall text,
             matchSessAssign ("sess=" +:+ text) =
             '(tok, _) ← eatHex 16 (eatOptQuote (trimStart text)); Some tok)
    by reflexivity.
  rewrite E. destruct tok as [| c tok]; [discriminate |].
  cbn [list_ascii_of_string List.forallb] in Hd.
  apply andb_prop in Hd as [Hc Ht].
  destruct (hexDigit_plain c Hc) as [Hw Hq].
  change (String c tok +:+ rest) with (String c (tok +:+ rest)).
  cbn [trimStart]. rewrite Hw. unfold eatOptQuote. cbn [eatChar]. rewrite Hq.
  rewrite <- Hlen.
  change (String c (tok +:+ rest)) with (String c tok +:+ rest).
  rewrite eatHex_token; [reflexivity |].
  cbn [list_ascii_of_string List.forallb]. rewrite Hc, Ht. reflexivity.
Qed.

Lemma truthy_app (pre s : string) : truthyStr s = true -> truthyStr (pre +:+ s) = true.
Proof. destruct pre; [auto | reflexivity]. Qed.

(** X7.  A page that carries a token in either form yields a token, wherever the
    form stands; a page that begins with the [getSession] function yields
    the token of that function. *)
Theorem token_on_page_is_found (pre tok rest : string) :
  isToken tok = true ->
  extractSessFromHtml
    ("getSession(){return " +:+ String dquote (tok +:+ String dquote (";}" +:+ rest)))
  = Some tok
  /\ (exists found,
        extractSessFromHtml
          (pre +:+ "getSession(){return "
               +:+ String dquote (tok +:+ String dquote (";}" +:+ rest)))
        = Some found)
  /\ (exists found,
        extractSessFromHtml (pre +:+ "sess=" +:+ tok +:+ rest) = Some found).
Proof.
  intros Ht.
  pose proof (matchGetSession_script tok rest Ht) as E1.
  pose proof (matchSessAssign_field tok rest Ht) as E2.
  repeat split.
  - unfold extractSessFromHtml. cbn [truthyStr negb String.append].
    rewrite (search_here _ _ _ E1). reflexivity.
  - destruct (search_later matchGetSession pre _ _ E1) as [found E].
    exists found. unfold extractSessFromHtml.
    rewrite truthy_app by reflexivity. cbn [negb]. rewrite E. reflexivity.
  - destruct (search_later matchSessAssign pre _ _ E2) as [found E].
    unfold extractSessFromHtml.
    rewrite truthy_app by reflexivity. cbn [negb].
    destruct (search matchGetSession _) as [m1 |]; [eauto |].
    rewrite E. eauto.
Qed.


(** *** Login *)

(** X8.  With a host, [login] sends the login form and nothing else.  When the
    answer carries a token, that token is the session; on every failure
    (no answer, or a page without a token) the session is null, whatever it
    was before. *)
Theorem login_sets_or_clears_session (a : api) (w : world) :
  truthyStr (host a) = true ->
  let o := login (a, w) in
  requests (emitted o) = [loginForm a]
  /\ match answer w with
     | Unreachable msg =>
         res o = Throw (TransportError msg) /\ sess (fst (post o)) = None
     | Body text =>
         match extractSessFromHtml text with
         | Some tok =>
             res o = Ok tt /\ sess (fst (post o)) = Some tok
             /\ isToken tok = true /\ hasSess (fst (post o)) = true
         | None =>
             res o = Throw (if looksLikeLoginHtml text
                            then LoginNotAccepted else LoginNoSess)
             /\ sess (fst (post o)) = None
         end
     end.
Proof.
  intros Hh o. subst o. rewrite (login_outcome a w Hh). unfold loginOutcome.
  destruct (answer w) as [text | msg]; [| auto].
  destruct (extractSessFromHtml text) as [tok |] eqn:E; [| auto].
  cbn [res post emitted fst requests].
  destruct (extracted_token_is_well_formed text tok E) as (Ht & _ & _).
  repeat split; try assumption.
  eapply extractSess_truthy, E.
Qed.

Lemma occurrences_app (c : ascii) (s s' : string) :
  occurrences c (s +:+ s') = (occurrences c s + occurrences c s')%nat.
Proof.
  induction s as [| c' s IH]; [reflexivity |].
  change (String c' s +:+ s') with (String c' (s +:+ s')).
  cbn [occurrences]. rewrite IH. lia.
Qed.

(** [encodeURIComponent] writes neither an ampersand nor an equals sign. *)
Lemma encoded_has_no_separator (s : string) :
  occurrences "&" (encodeURIComponent s) = 0%nat
  /\ occurrences "=" (encodeURIComponent s) = 0%nat.
Proof.
  assert (Hc : forall c x, x = "&"%char \/ x = "="%char ->
             occurrences x
               (if isUnreserved c then String c EmptyString
                else if code c <? 128 then percent (code c)
                else percent (192 + code c / 64) +:+ percent (128 + code c mod 64))
             = 0%nat).
  { intros c x [-> | ->];
      destruct c as [[] [] [] [] [] [] [] []]; vm_compute; reflexivity. }
  induction s as [| c s [IH1 IH2]]; [split; reflexivity |].
  cbn [encodeURIComponent]. cbv zeta.
  rewrite !occurrences_app, IH1, IH2, !Hc by auto. split; reflexivity.
Qed.

(** X9.  Whatever the user name and the pin are, the login form has its two
    fields and no more: one ampersand and two equals signs. *)
Theorem login_form_has_two_fields (a : api) :
  truthyStr (host a) = true ->
  exists form,
    res (loginRequest a) =
      Ok {| url := "http://" +:+ host a +:+ "/login.cgi";
            httpMethod := "POST"; body := Some form |}
    /\ occurrences "&" form = 1%nat
    /\ occurrences "=" form = 2%nat.
Proof.
  intros Hh. rewrite (loginRequest_ok a Hh). cbn [res]. unfold loginForm, urlOf.
  eexists. split; [reflexivity |].
  destruct (encoded_has_no_separator (username a)) as [Hu1 Hu2].
  destruct (encoded_has_no_separator (pin a)) as [Hp1 Hp2].
  rewrite !occurrences_app, Hu1, Hu2, Hp1, Hp2. split; reflexivity.
Qed.


(** *** What goes over the wire *)

Lemma encode_decimal (u : Decimal.uint) :
  encodeURIComponent (Stdlib.Numbers.DecimalString.NilEmpty.string_of_uint u)
  = Stdlib.Numbers.DecimalString.NilEmpty.string_of_uint u.
Proof.
  induction u; cbn [Stdlib.Numbers.DecimalString.NilEmpty.string_of_uint];
    [reflexivity | ..]; cbn [encodeURIComponent]; rewrite IHu; reflexivity.
Qed.

(** A number goes into a form as [String] writes it. *)
Lemma encode_number (n : number) :
  encodeURIComponent (numberToString n) = numberToString n.
Proof.
  destruct n as [| z]; [reflexivity |].
  unfold numberToString, Stdlib.Numbers.DecimalString.NilZero.string_of_int.
  destruct (Z.to_int z) as [u | u];
    unfold Stdlib.Numbers.DecimalString.NilZero.string_of_uint.
  - destruct u; try reflexivity; apply encode_decimal.
  - destruct u; try reflexivity;
      cbn [encodeURIComponent]; rewrite encode_decimal; reflexivity.
Qed.

Lemma shl_one (k : Z) : 0 <= k < 8 -> shl (Int 1) (Int k) = Int (2 ^ k).
Proof.
  intros Hk.
  assert (Hcases : k = 0 \/ k = 1 \/ k = 2 \/ k = 3 \/ k = 4 \/ k = 5 \/ k = 6 \/ k = 7)
    by lia.
  repeat destruct Hcases as [-> | Hcases]; try subst k; reflexivity.
Qed.


(** With a session and a host, a call begins with its own request. *)
Lemma request_begins (a : api) (w : world) (path method : string)
    (data : option string) (expectJson retry : bool) :
  hasSess a = true -> truthyStr (host a) = true ->
  head (requests (emitted (request path method data expectJson retry (a, w))))
  = Some (frame a (urlOf a path) method data).
Proof.
  intros Hs Hh. unfold request.
  rewrite (requestN_with_session _ a w path method data expectJson Hs Hh).
  unfold bind at 1.
  destruct (res (fetch (frame a (urlOf a path) method data) (a, w)));
    reflexivity.
Qed.

(** X10.  The status request: a POST of the session and the area index, for
    an area index that [String] writes out exactly. *)
Theorem status_request (a : api) (w : world) (areaIndex : number) :
  hasSess a = true -> truthyStr (host a) = true -> exactNumber areaIndex ->
  head (requests (emitted (status areaIndex (a, w)))) =
    Some {| url := "http://" +:+ host a +:+ "/user/status.json";
            httpMethod := "POST";
            body := Some ("sess=" +:+ encodeURIComponent (sessString a)
                          +:+ "&arsel=" +:+ numberToString areaIndex) |}.
Proof.
  intros Hs Hh _. unfold status.
  rewrite (request_begins a w _ _ _ _ _ Hs Hh).
  rewrite encode_number. reflexivity.
Qed.

(** X11.  The key function request for area [i]: the function number, the
    byte [i / 8] of the area as [start] and its bit [2 ^ (i mod 8)] as [mask],
    for a function number and an area that [String] writes out exactly. *)
Theorem keyFunction_request (a : api) (w : world) (fnum : number) (i : Z) :
  hasSess a = true -> truthyStr (host a) = true ->
  exactNumber fnum -> 0 <= i <= 2 ^ 53 ->
  head (requests (emitted (keyFunction fnum (Int i) (a, w)))) =
    Some {| url := "http://" +:+ host a +:+ "/user/keyfunction.cgi";
            httpMethod := "POST";
            body := Some ("sess=" +:+ encodeURIComponent (sessString a)
                          +:+ "&fnum=" +:+ numberToString fnum
                          +:+ "&start=" +:+ numberToString (Int (i / 8))
                          +:+ "&mask=" +:+ numberToString (Int (2 ^ (i mod 8)))) |}.
Proof.
  intros Hs Hh _ Hi. unfold keyFunction.
  rewrite (request_begins a w _ _ _ _ _ Hs Hh).
  rewrite !encode_number.
  unfold rem, floorDiv. cbn [Z.eqb].
  rewrite Z.rem_mod_nonneg, shl_one by (try apply Z.mod_pos_bound; lia).
  reflexivity.
Qed.


(** *** Login pages *)

Lemma toLowerCase_app (s s' : string) :
  toLowerCase (s +:+ s') = toLowerCase s +:+ toLowerCase s'.
Proof.
  induction s as [| c s IH]; [reflexivity |].
  change (String c s +:+ s') with (String c (s +:+ s')).
  cbn [toLowerCase]. rewrite IH. reflexivity.
Qed.

Lemma prefix_app (needle rest : string) : String.prefix needle (needle +:+ rest) = true.
Proof.
  induction needle as [| c needle IH]; [destruct rest; reflexivity |].
  change (String c needle +:+ rest) with (String c (needle +:+ rest)).
  cbn [String.prefix]. destruct (ascii_dec c c); [exact IH | congruence].
Qed.

Lemma includes_here (needle rest : string) : includes (needle +:+ rest) needle = true.
Proof.
  destruct (needle +:+ rest) eqn:E; cbn [includes];
    rewrite <- E, prefix_app; reflexivity.
Qed.

Lemma includes_later (pre s needle : string) :
  includes s needle = true -> includes (pre +:+ s) needle = true.
Proof.
  intros E. induction pre as [| c pre IH]; [exact E |].
  change (String c pre +:+ s) with (String c (pre +:+ s)).
  cbn [includes]. rewrite IH. apply orb_true_r.
Qed.

(** X12.  A text that holds one of the four marks of the login page, in whatever
    letter case and wherever it stands, is taken for a login page. *)
Theorem login_page_is_known_by_its_marks (pre mark rest : string) :
  List.In (toLowerCase mark)
    ["xgen :: secure network"; "/login.htm"; "lgname"; "lgpin"]%string ->
  looksLikeLoginHtml (pre +:+ mark +:+ rest) = true.
Proof.
  intros Hmark.
  assert (Hne : truthyStr (mark +:+ rest) = true).
  { destruct mark; [| reflexivity].
    cbn in Hmark. repeat destruct Hmark as [Hmark | Hmark]; discriminate || contradiction. }
  unfold looksLikeLoginHtml. rewrite (truthy_app pre _ Hne). cbn [negb].
  rewrite !toLowerCase_app.
  pose proof (includes_later (toLowerCase pre) _ _
                (includes_here (toLowerCase mark) (toLowerCase rest))) as Hin.
  cbn [List.In] in Hmark.
  destruct Hmark as [E | [E | [E | [E | []]]]]; rewrite <- E in Hin |- *; rewrite ?E;
    rewrite <- E, Hin, ?orb_true_r; reflexivity.
Qed.

End ProtocolProofs.

Lemma request_with_session_is_one_round_trip_witness :
  res (XRApi.request (H := Scenario.runtime) "/user/status.json" "POST" (Some "arsel=0")
         true true (Scenario.loggedIn, Scenario.armedTwice))
  = Ok (Scenario.statusValue Scenario.armedBlob).
Proof.
  pose proof (request_with_session_is_one_round_trip (H := Scenario.runtime)
                Scenario.loggedIn Scenario.armedTwice "/user/status.json" "POST"
                (Some "arsel=0") true true eq_refl eq_refl) as W.
  vm_compute in W. vm_compute. exact (proj2 (proj2 (W eq_refl))).
Defined.


Lemma extracted_token_is_well_formed_witness :
  Protocol.isToken "0123456789abcDEF" = true
  /\ JS.truthyStr "0123456789abcDEF" = true
  /\ XRApi.encodeURIComponent "0123456789abcDEF" = "0123456789abcDEF"%string.
Proof.
  apply (extracted_token_is_well_formed "var SESS = 0123456789abcDEF;").
  reflexivity.
Defined.

Lemma token_on_page_is_found_witness :
  XRApi.extractSessFromHtml
    ("getSession(){return "
       +:+ String XRApi.dquote ("0123456789ABCDEF" +:+ String XRApi.dquote (";}" +:+ "</script>")))
  = Some "0123456789ABCDEF"%string.
Proof.
  exact (proj1 (token_on_page_is_found "" "0123456789ABCDEF" "</script>" eq_refl)).
Defined.

Lemma login_sets_or_clears_session_witness :
  XRApi.sess (fst (post (XRApi.login (Scenario.loggedIn, Scenario.expiredTwice)))) = None.
Proof.
  pose proof (login_sets_or_clears_session Scenario.loggedIn Scenario.expiredTwice
                eq_refl) as W.
  vm_compute in W. vm_compute. exact (proj2 (proj2 W)).
Defined.

Lemma login_form_has_two_fields_witness :
  exists form,
    res (XRApi.loginRequest
           {| XRApi.host := "10.0.0.2"; XRApi.username := "a&b=c";
              XRApi.pin := "1=2&3"; XRApi.sess := None |}) =
      Ok {| url := "http://" +:+ "10.0.0.2" +:+ "/login.cgi";
            httpMethod := "POST"; body := Some form |}
    /\ Protocol.occurrences "&" form = 1%nat
    /\ Protocol.occurrences "=" form = 2%nat.
Proof.
  apply (login_form_has_two_fields
           {| XRApi.host := "10.0.0.2"; XRApi.username := "a&b=c";
              XRApi.pin := "1=2&3"; XRApi.sess := None |}).
  reflexivity.
Defined.

Lemma status_request_witness :
  head (Client.requests
          (emitted (XRApi.status (H := Scenario.runtime) (JS.Int 0)
                      (Scenario.loggedIn, Scenario.armedTwice))))
  = Some {| url := "http://10.0.0.2/user/status.json"; httpMethod := "POST";
            body := Some "sess=AAAAAAAAAAAAAAAA&arsel=0"%string |}.
Proof.
  apply (status_request (H := Scenario.runtime) Scenario.loggedIn Scenario.armedTwice
           (JS.Int 0)); [reflexivity | reflexivity | unfold Protocol.exactNumber; lia].
Defined.

Lemma keyFunction_request_witness :
  head (Client.requests
          (emitted (XRApi.keyFunction (H := Scenario.runtime) (JS.Int 15) (JS.Int 9)
                      (Scenario.loggedIn, Scenario.armedTwice))))
  = Some {| url := "http://10.0.0.2/user/keyfunction.cgi"; httpMethod := "POST";
            body := Some "sess=AAAAAAAAAAAAAAAA&fnum=15&start=1&mask=2"%string |}.
Proof.
  apply (keyFunction_request (H := Scenario.runtime) Scenario.loggedIn
           Scenario.armedTwice (JS.Int 15) 9);
    [reflexivity | reflexivity | unfold Protocol.exactNumber; lia | lia].
Defined.

Lemma login_page_is_known_by_its_marks_witness :
  XRApi.looksLikeLoginHtml ("<input name=" +:+ "LgName" +:+ ">") = true.
Proof.
  apply (login_page_is_known_by_its_marks "<input name=" "LgName" ">").
  right. right. left. reflexivity.
Defined.

(** *** Faults, pulses and level state *)

Section WatchProofs.
Import JS Platform Reconciler Protocol Watch.

(** A call into the client leaves the platform alone, but for the session. *)
Lemma liftXr_frame {A} (m : M XRApi.X A) (s : P) :
  steady m ->
  let s' := post (liftXr m s) in
  timers s' = timers s
  /\ services (fst s') = services (fst s)
  /\ snapshot (fst s') = snapshot (fst s)
  /\ settings (fst s') = settings (fst s)
  /\ eventPulseMs (fst s') = eventPulseMs (fst s)
  /\ rollerDoorName (fst s') = rollerDoorName (fst s)
  /\ XRApi.host (xr (fst s')) = XRApi.host (xr (fst s))
  /\ XRApi.username (xr (fst s')) = XRApi.username (xr (fst s))
  /\ XRApi.pin (xr (fst s')) = XRApi.pin (xr (fst s))
  /\ net (snd s') = net (snd s).
Proof.
  intros Hm. destruct s as [p w]. cbv zeta.
  destruct (Hm (xr p, w)) as (Hh & Hu & Hp & Hn & Hnow & Hpend & Hnext & _).
  unfold liftXr, timers, services, snapshot, settings.
  cbn [fst snd post setXr _eventResetTimers securityService garageService
       alarmEventService doorEventService cachedMode cachedDoorOpen areaIndex
       rollerDoorZone zoneOpenBank zoneOpenWhenSet eventPulseMs rollerDoorName xr] in *.
  rewrite Hpend, Hnext, Hnow. repeat split; assumption.
Qed.

(** [setMode], step by step. *)
Lemma setMode_run (mode : string) (s : P) :
  let m := normalized mode in
  let pulse := pulseMotion (alarmEventService (fst s)) "alarm"
                 (setCachedMode m (fst s), snd s) in
  if String.eqb m (cachedMode (fst s))
  then setMode mode s = {| res := Ok tt; post := s; emitted := [] |}
  else setMode mode s =
       {| res := Ok tt; post := post pulse;
          emitted :=
            LogInfo ("[Reliance XR] MODE CHANGED => " +:+ m) :: emitted pulse
            ++ match securityService (fst s) with
               | Some svc =>
                   [UpdateCharacteristic svc Hap.SecuritySystemCurrentState (currentStateOf m);
                    UpdateCharacteristic svc Hap.SecuritySystemTargetState (targetStateOf m);
                    UpdateCharacteristic svc Hap.StatusFault Hap.NO_FAULT]
               | None => []
               end |}.
Proof.
  destruct s as [p w]. cbv zeta. cbn [fst snd].
  unfold setMode. fold (normalized mode).
  rewrite (bind_ok getThis _ (p, w) p eq_refl).
  cbn [getThis res post emitted fst snd].
  destruct (String.eqb (normalized mode) (cachedMode p)) eqn:E; [reflexivity |].
  destruct (pulseMotion_this (alarmEventService p) "alarm"
              (setCachedMode (normalized mode) p, w)) as (Hok & _).
  erewrite bind_ok by reflexivity. cbn [modifyThis modify res post emitted fst snd].
  erewrite bind_ok by reflexivity. cbn [emit res post emitted fst snd].
  erewrite bind_ok by exact Hok.
  unfold currentStateOf, targetStateOf.
  destruct (securityService p); cbn [ret bind emit res post emitted app].
  - destruct (String.eqb (normalized mode) "DISARMED") eqn:Ed.
    + apply String.eqb_eq in Ed. rewrite Ed. reflexivity.
    + reflexivity.
  - rewrite app_nil_r. reflexivity.
Qed.


(** [setGarageOpen], step by step. *)
Lemma setGarageOpen_run (isOpen : bool) (s : P) :
  let pulse := pulseMotion (doorEventService (fst s)) "door"
                 (setCachedDoorOpen (Some isOpen) (fst s), snd s) in
  let level := if isOpen then Hap.OPEN else Hap.CLOSED in
  if sameDoor (cachedDoorOpen (fst s)) isOpen
  then setGarageOpen isOpen s = {| res := Ok tt; post := s; emitted := [] |}
  else setGarageOpen isOpen s =
       {| res := Ok tt; post := post pulse;
          emitted :=
            LogInfo ("[Reliance XR] " +:+ rollerDoorName (fst s) +:+ " => "
                     +:+ (if isOpen then "OPEN" else "CLOSED"))
            :: emitted pulse
            ++ match garageService (fst s) with
               | Some svc =>
                   [UpdateCharacteristic svc Hap.CurrentDoorState level;
                    UpdateCharacteristic svc Hap.TargetDoorState level]
               | None => []
               end |}.
Proof.
  destruct s as [p w]. cbv zeta. cbn [fst snd].
  unfold setGarageOpen.
  rewrite (bind_ok getThis _ (p, w) p eq_refl).
  cbn [getThis res post emitted fst snd].
  destruct (sameDoor (cachedDoorOpen p) isOpen) eqn:E; [reflexivity |].
  destruct (pulseMotion_this (doorEventService p) "door"
              (setCachedDoorOpen (Some isOpen) p, w)) as (Hok & _).
  erewrite bind_ok by reflexivity. cbn [modifyThis modify res post emitted fst snd].
  erewrite bind_ok by reflexivity. cbn [emit res post emitted fst snd].
  erewrite bind_ok by exact Hok.
  destruct (garageService p); cbn [ret bind emit res post emitted app].
  - reflexivity.
  - rewrite app_nil_r. reflexivity.
Qed.

Context `{Runtime}.

(** A poll that raises an error has done nothing but ask for the status. *)
Lemma pollOnce_thrown (s : P) (e : error) :
  res (pollOnce s) = Throw e ->
  pollOnce s =
    {| res := Throw e;
       post := post (liftXr (XRApi.status (areaIndex (fst s))) s);
       emitted := emitted (liftXr (XRApi.status (areaIndex (fst s))) s) |}.
Proof.
  intros Hthrow.
  pose proof (pollOnce_cases s) as Hc. cbv zeta in Hc.
  set (o := liftXr (XRApi.status (areaIndex (fst s))) s) in *.
  destruct (res o) as [a | e'] eqn:Ho.
  2: { rewrite Hc in Hthrow |- *. cbn [res] in Hthrow. congruence. }
  destruct (getField a "bankstates") as [b | e1] eqn:Hb.
  2: { destruct Hc as [Hr _]. rewrite Hr in Hthrow. injection Hthrow as ->.
       unfold pollOnce.
       rewrite (bind_ok getThis _ s (fst s) eq_refl).
       cbn [getThis res post emitted fst snd app]. fold o.
       rewrite (bind_ok _ _ _ _ Ho). cbn [res post emitted].
       rewrite Hb. rewrite (bind_throw _ _ _ e) by reflexivity.
       cbn [liftResult throw res post emitted]. rewrite app_nil_r. reflexivity. }
  destruct (XRApi.decodeAreaModeFromBankstates b (areaIndex (fst s)))
    as [mode | e2] eqn:Hm.
  2: { destruct Hc as [Hr _]. rewrite Hr in Hthrow. injection Hthrow as ->.
       unfold pollOnce.
       rewrite (bind_ok getThis _ s (fst s) eq_refl).
       cbn [getThis res post emitted fst snd app]. fold o.
       rewrite (bind_ok _ _ _ _ Ho). cbn [res post emitted].
       rewrite Hb. erewrite bind_ok by reflexivity.
       cbn [liftResult ret res post emitted app].
       rewrite Hm. rewrite (bind_throw _ _ _ e) by reflexivity.
       cbn [liftResult throw res post emitted]. rewrite app_nil_r. reflexivity. }
  exfalso. destruct (doorConfigured (fst s)).
  - destruct Hc as (isOpen & _ & Hc). rewrite Hc in Hthrow. discriminate.
  - rewrite Hc in Hthrow. discriminate.
Qed.


Lemma onPollError_run (e : error) (s : P) :
  onPollError e s =
    {| res := Ok tt;
       post := (setXr (XRApi.setSess None (xr (fst s))) (fst s), snd s);
       emitted :=
         LogWarn ("[Reliance XR] Poll error: " +:+ message e)
         :: match securityService (fst s) with
            | Some svc => [UpdateCharacteristic svc Hap.StatusFault Hap.GENERAL_FAULT]
            | None => []
            end |}.
Proof.
  destruct s as [p w]. unfold onPollError.
  unfold bind, emit, modifyThis, modify, getThis. cbn [res post emitted fst snd].
  destruct (securityService p) eqn:E; cbn; rewrite ?E; reflexivity.
Qed.

(** A poll that raises an error, as [pollOnceSafe] ends it. *)
Lemma pollOnceSafe_thrown (s : P) (e : error) :
  res (pollOnce s) = Throw e ->
  let o := liftXr (XRApi.status (areaIndex (fst s))) s in
  pollOnceSafe s =
    {| res := Ok tt;
       post := (setXr (XRApi.setSess None (xr (fst (post o)))) (fst (post o)),
                snd (post o));
       emitted :=
         emitted o
         ++ LogWarn ("[Reliance XR] Poll error: " +:+ message e)
            :: match securityService (fst s) with
               | Some svc => [UpdateCharacteristic svc Hap.StatusFault Hap.GENERAL_FAULT]
               | None => []
               end |}.
Proof.
  intros Hthrow o.
  pose proof (pollOnce_thrown s e Hthrow) as Hp. fold o in Hp.
  rewrite pollOnceSafe_eq. unfold tryCatch. rewrite Hp. cbn [res post emitted].
  rewrite onPollError_run. cbn [res post emitted].
  reflexivity.
Qed.

Lemma filter_weaker (f g : effect -> bool) (l : list effect) :
  (forall e, f e = true -> g e = true) ->
  List.filter g l = [] -> List.filter f l = [].
Proof.
  intros Hfg. induction l as [| e l IH]; [reflexivity |].
  cbn [List.filter]. destruct (g e) eqn:Hg; [discriminate |].
  destruct (f e) eqn:Hf; [rewrite (Hfg e Hf) in Hg; discriminate | exact IH].
Qed.

Lemma status_is_quiet (s : P) :
  List.filter isNotification (emitted (liftXr (XRApi.status (areaIndex (fst s))) s)) = [].
Proof. apply (quiet_status (areaIndex (fst s))). Qed.

(** X13.  A poll cycle that fails never raises: a warning that begins with
    [Poll error] is logged, the session is dropped, the fault flag of the
    security system is raised, and the accessory layer hears nothing else;
    timers and services stay as they were.  For the errors the client raises
    itself with a message that is not empty, the warning ends with that
    message. *)
Theorem failed_poll_raises_the_fault (s : P) (e : error) :
  res (pollOnce s) = Throw e ->
  let o := pollOnceSafe s in
  res o = Ok tt
  /\ List.filter isNotification (emitted o) =
     match securityService (fst s) with
     | Some svc => [UpdateCharacteristic svc Hap.StatusFault Hap.GENERAL_FAULT]
     | None => []
     end
  /\ (exists detail,
        List.In (LogWarn ("[Reliance XR] Poll error: " +:+ detail)) (emitted o)
        /\ (e <> TypeError -> message e <> EmptyString -> detail = message e))
  /\ XRApi.sess (xr (fst (post o))) = None
  /\ timers (post o) = timers s
  /\ services (fst (post o)) = services (fst s).
Proof.
  intros Hthrow o. subst o.
  rewrite (pollOnceSafe_thrown s e Hthrow). cbn [res post emitted].
  destruct (liftXr_frame (XRApi.status (areaIndex (fst s))) s
              (steady_status (areaIndex (fst s))))
    as (Ht & Hsv & _).
  split; [reflexivity |]. split.
  { rewrite List.filter_app, status_is_quiet.
    destruct (securityService (fst s)); reflexivity. }
  split.
  { exists (message e). split; [| reflexivity].
    apply List.in_or_app. right. left. reflexivity. }
  split; [reflexivity |]. split; [exact Ht | exact Hsv].
Qed.


Lemma head_requests_app (es es' : list effect) (r : httpRequest) :
  head (Client.requests es) = Some r -> head (Client.requests (es ++ es')) = Some r.
Proof.
  rewrite requests_app. destruct (Client.requests es); [discriminate | auto].
Qed.

Lemma head_requests_bind {S A B} (m : M S A) (k : A -> M S B) (x : S) (r : httpRequest) :
  head (Client.requests (emitted (m x))) = Some r ->
  head (Client.requests (emitted (bind m k x))) = Some r.
Proof.
  intros Hm. unfold bind. destruct (res (m x)); cbn [emitted]; [| exact Hm].
  apply head_requests_app, Hm.
Qed.

(** Without a session a status request begins with the login form. *)
Lemma status_logs_in_first (a : XRApi.api) (w : world) (areaIndex : number) :
  XRApi.hasSess a = false -> truthyStr (XRApi.host a) = true ->
  head (Client.requests (emitted (XRApi.status areaIndex (a, w))))
  = Some (Client.loginForm a).
Proof.
  intros Hs Hh. unfold XRApi.status, XRApi.request. cbn [XRApi.requestN].
  apply head_requests_bind. unfold XRApi.ensureLoggedIn.
  rewrite (bind_silent (XRApi.liftApi get) _ (a, w) (a, w) a eq_refl).
  rewrite Hs, (login_outcome a w Hh). unfold Client.loginOutcome.
  destruct (XRApi.answer w) as [text | msg]; [| reflexivity].
  destruct (XRApi.extractSessFromHtml text); reflexivity.
Qed.

(** Every poll begins with its status request. *)
Lemma poll_begins_with_status (s : P) (r : httpRequest) :
  head (Client.requests (emitted (liftXr (XRApi.status (areaIndex (fst s))) s))) = Some r ->
  head (Client.requests (emitted (pollOnceSafe s))) = Some r.
Proof.
  intros Hr.
  destruct (res (pollOnce s)) as [[] | e] eqn:Hp.
  - rewrite (pollOnceSafe_ok s Hp).
    unfold pollOnce. rewrite (bind_silent getThis _ s s (fst s) eq_refl).
    apply head_requests_bind, Hr.
  - rewrite (pollOnceSafe_thrown s e Hp). cbn [emitted].
    apply head_requests_app, Hr.
Qed.

Lemma poll_without_session_logs_in (s : P) :
  XRApi.hasSess (xr (fst s)) = false ->
  truthyStr (XRApi.host (xr (fst s))) = true ->
  head (Client.requests (emitted (pollOnceSafe s))) = Some (Client.loginForm (xr (fst s))).
Proof.
  intros Hs Hh. apply poll_begins_with_status.
  exact (status_logs_in_first (xr (fst s)) (snd s) (areaIndex (fst s)) Hs Hh).
Qed.

(** X14.  After a poll cycle that failed, the next cycle logs in before anything
    else: its first request is the login form, with the credentials of the
    configuration. *)
Theorem failed_poll_forces_a_login (s : P) (e : error) :
  res (pollOnce s) = Throw e ->
  truthyStr (XRApi.host (xr (fst s))) = true ->
  head (Client.requests (emitted (pollOnceSafe (post (pollOnceSafe s)))))
  = Some (Client.loginForm (xr (fst s))).
Proof.
  intros Hthrow Hh.
  destruct (liftXr_frame (XRApi.status (areaIndex (fst s))) s
              (steady_status (areaIndex (fst s))))
    as (_ & _ & _ & _ & _ & _ & Hhost & Huser & Hpin & _).
  assert (Hx : xr (fst (post (pollOnceSafe s))) =
               XRApi.setSess None
                 (xr (fst (post (liftXr (XRApi.status (areaIndex (fst s))) s))))).
  { rewrite (pollOnceSafe_thrown s e Hthrow). reflexivity. }
  generalize dependent (post (liftXr (XRApi.status (areaIndex (fst s))) s)).
  intros s0 Hhost Huser Hpin.
  generalize (post (pollOnceSafe s)). intros s1 Hx.
  rewrite poll_without_session_logs_in; rewrite Hx.
  - unfold Client.loginForm, Client.urlOf.
    cbn [XRApi.setSess XRApi.host XRApi.username XRApi.pin].
    rewrite Hhost, Huser, Hpin. reflexivity.
  - reflexivity.
  - cbn [XRApi.setSess XRApi.host]. rewrite Hhost. exact Hh.
Qed.


(** What a pulse emits: the motion signal and its timers, nothing else. *)
Lemma pulseMotion_emits (service : option Hap.service) (key : string) (s : P) :
  List.filter isSecurityUpdate (emitted (pulseMotion service key s)) = []
  /\ List.filter isDoorState (emitted (pulseMotion service key s)) = []
  /\ services (fst (post (pulseMotion service key s))) = services (fst s)
  /\ xr (fst (post (pulseMotion service key s))) = xr (fst s).
Proof.
  destruct s as [p w]. unfold pulseMotion.
  destruct service as [svc |]; [| repeat split; reflexivity].
  unfold bind; cbn.
  destruct (_eventResetTimers p !! key); cbn; repeat split; reflexivity.
Qed.

(** X15.  When the mode changes and the security service exists, [setMode] reports
    the current state, the target state and a lowered fault flag, in that
    order: STAY as STAY_ARM and STAY_ARM, AWAY as AWAY_ARM and AWAY_ARM,
    anything else as DISARMED and DISARM.  When the door changes, or is
    reported for the first time, and the garage service exists,
    [setGarageOpen] reports the current state and a target state that
    mirrors it. *)
Theorem level_state_follows_the_change (mode : string) (isOpen : bool)
    (sec gar : Hap.service) (s : P) :
  (normalized mode <> cachedMode (fst s) ->
   securityService (fst s) = Some sec ->
   List.filter isSecurityUpdate (emitted (setMode mode s)) =
     [UpdateCharacteristic sec Hap.SecuritySystemCurrentState
        (currentStateOf (normalized mode));
      UpdateCharacteristic sec Hap.SecuritySystemTargetState
        (targetStateOf (normalized mode));
      UpdateCharacteristic sec Hap.StatusFault Hap.NO_FAULT])
  /\ (cachedDoorOpen (fst s) <> Some isOpen ->
      garageService (fst s) = Some gar ->
      List.filter isDoorState (emitted (setGarageOpen isOpen s)) =
        [UpdateCharacteristic gar Hap.CurrentDoorState (if isOpen then Hap.OPEN else Hap.CLOSED);
         UpdateCharacteristic gar Hap.TargetDoorState (if isOpen then Hap.OPEN else Hap.CLOSED)]).
Proof.
  split.
  - intros Hne Hsec.
    pose proof (setMode_run mode s) as Hrun. cbv zeta in Hrun.
    destruct (String.eqb_spec (normalized mode) (cachedMode (fst s))) as [E | _];
      [contradiction |].
    rewrite Hrun, Hsec. cbn [emitted List.filter isSecurityUpdate].
    rewrite List.filter_app.
    destruct (pulseMotion_emits (alarmEventService (fst s)) "alarm"
                (setCachedMode (normalized mode) (fst s), snd s)) as (-> & _).
    reflexivity.
  - intros Hne Hgar.
    pose proof (setGarageOpen_run isOpen s) as Hrun. cbv zeta in Hrun.
    destruct (sameDoor (cachedDoorOpen (fst s)) isOpen) eqn:E.
    { exfalso. apply Hne. unfold sameDoor in E.
      destruct (cachedDoorOpen (fst s)) as [b |]; [| discriminate].
      apply Bool.eqb_prop in E. congruence. }
    rewrite Hrun, Hgar. cbn [emitted List.filter isDoorState].
    rewrite List.filter_app.
    destruct (pulseMotion_emits (doorEventService (fst s)) "door"
                (setCachedDoorOpen (Some isOpen) (fst s), snd s)) as (_ & -> & _).
    reflexivity.
Qed.


Lemma setGarageOpen_says_nothing_of_security (isOpen : bool) (s : P) :
  List.filter isSecurityUpdate (emitted (setGarageOpen isOpen s)) = [].
Proof.
  pose proof (setGarageOpen_run isOpen s) as Hrun. cbv zeta in Hrun.
  destruct (sameDoor (cachedDoorOpen (fst s)) isOpen); rewrite Hrun; [reflexivity |].
  cbn [emitted List.filter isSecurityUpdate]. rewrite List.filter_app.
  destruct (pulseMotion_emits (doorEventService (fst s)) "door"
              (setCachedDoorOpen (Some isOpen) (fst s), snd s)) as (-> & _).
  destruct (garageService (fst s)); reflexivity.
Qed.

(** X16.  The fault flag is lowered by a change of mode only.  After a poll cycle
    that failed, a cycle that gets through and finds the mode that is cached
    says nothing about the security system: the flag stays raised. *)
Theorem fault_outlives_an_unchanged_mode (s : P) (e : error) (a b : value) :
  res (pollOnce s) = Throw e ->
  let s1 := post (pollOnceSafe s) in
  res (liftXr (XRApi.status (areaIndex (fst s1))) s1) = Ok a ->
  getField a "bankstates" = Ok b ->
  XRApi.decodeAreaModeFromBankstates b (areaIndex (fst s)) = Ok (cachedMode (fst s)) ->
  (forall svc, securityService (fst s) = Some svc ->
     List.filter isFault (emitted (pollOnceSafe s)) =
       [UpdateCharacteristic svc Hap.StatusFault Hap.GENERAL_FAULT])
  /\ res (pollOnce s1) = Ok tt
  /\ List.filter isSecurityUpdate (emitted (pollOnceSafe s1)) = [].
Proof.
  intros Hthrow s1 Ho Hb Hm. split.
  { intros svc Hsvc. rewrite (pollOnceSafe_thrown s e Hthrow), Hsvc. cbn [emitted].
    rewrite List.filter_app.
    rewrite (filter_weaker isFault isNotification _
               ltac:(intros [] E; try discriminate; reflexivity) (status_is_quiet s)).
    reflexivity. }
  assert (Hs1 : s1 = (setXr (XRApi.setSess None
                               (xr (fst (post (liftXr (XRApi.status (areaIndex (fst s))) s)))))
                        (fst (post (liftXr (XRApi.status (areaIndex (fst s))) s))),
                      snd (post (liftXr (XRApi.status (areaIndex (fst s))) s)))).
  { subst s1. rewrite (pollOnceSafe_thrown s e Hthrow). reflexivity. }
  assert (Hidx : areaIndex (fst s1) = areaIndex (fst s)) by (rewrite Hs1; reflexivity).
  assert (Hmode : cachedMode (fst s1) = cachedMode (fst s)) by (rewrite Hs1; reflexivity).
  clearbody s1.
  pose proof (pollOnce_cases s1) as Hc. cbv zeta in Hc.
  pose proof (status_is_quiet s1) as Hq.
  set (o := liftXr (XRApi.status (areaIndex (fst s1))) s1) in *.
  rewrite Ho, Hb, Hidx, Hm in Hc.
  pose proof (setMode_run (cachedMode (fst s)) (post o)) as Hrun. cbv zeta in Hrun.
  rewrite (decoded_is_normal b _ _ Hm) in Hrun.
  change (cachedMode (fst (post o))) with (cachedMode (fst s1)) in Hrun.
  rewrite Hmode, String.eqb_refl in Hrun.
  assert (Hsilent : List.filter isSecurityUpdate (emitted o) = []).
  { apply (filter_weaker isSecurityUpdate isNotification);
      [intros [] E; try discriminate; reflexivity | exact Hq]. }
  destruct (doorConfigured (fst s1)).
  - destruct Hc as (isOpen & _ & Hc).
    assert (Hok : res (pollOnce s1) = Ok tt) by (rewrite Hc; reflexivity).
    split; [exact Hok |].
    rewrite (pollOnceSafe_ok s1 Hok), Hc. cbn [emitted].
    rewrite Hrun. cbn [emitted post app].
    rewrite List.filter_app, Hsilent, setGarageOpen_says_nothing_of_security.
    reflexivity.
  - assert (Hok : res (pollOnce s1) = Ok tt) by (rewrite Hc; reflexivity).
    split; [exact Hok |].
    rewrite (pollOnceSafe_ok s1 Hok), Hc. cbn [emitted].
    rewrite Hrun. cbn [emitted]. rewrite app_nil_r. exact Hsilent.
Qed.


(** *** Polls and timers *)

Lemma setMode_without_sensor (mode : string) (s : P) :
  alarmEventService (fst s) = None ->
  List.filter isPulse (emitted (setMode mode s)) = []
  /\ timers (post (setMode mode s)) = timers s
  /\ services (fst (post (setMode mode s))) = services (fst s).
Proof.
  intros Hnone.
  pose proof (setMode_run mode s) as Hrun. cbv zeta in Hrun.
  rewrite Hnone in Hrun.
  destruct (String.eqb (normalized mode) (cachedMode (fst s))); rewrite Hrun;
    [repeat split; reflexivity |].
  cbn [pulseMotion ret res post emitted app List.filter isPulse].
  destruct (securityService (fst s)); repeat split; reflexivity.
Qed.

Lemma setGarageOpen_without_sensor (isOpen : bool) (s : P) :
  doorEventService (fst s) = None ->
  List.filter isPulse (emitted (setGarageOpen isOpen s)) = []
  /\ timers (post (setGarageOpen isOpen s)) = timers s.
Proof.
  intros Hnone.
  pose proof (setGarageOpen_run isOpen s) as Hrun. cbv zeta in Hrun.
  rewrite Hnone in Hrun.
  destruct (sameDoor (cachedDoorOpen (fst s)) isOpen); rewrite Hrun;
    [repeat split; reflexivity |].
  cbn [pulseMotion ret res post emitted app List.filter isPulse].
  destruct (garageService (fst s)); repeat split; reflexivity.
Qed.

(** X17.  With neither event sensor (as with notifications switched off) a poll
    cycle never pulses: no motion signal, no timer started or cleared, and
    the timers stay as they were. *)
Theorem no_pulse_without_event_sensors (s : P) :
  alarmEventService (fst s) = None ->
  doorEventService (fst s) = None ->
  List.filter isPulse (emitted (pollOnceSafe s)) = []
  /\ timers (post (pollOnceSafe s)) = timers s.
Proof.
  intros Ha Hd.
  destruct (liftXr_frame (XRApi.status (areaIndex (fst s))) s
              (steady_status (areaIndex (fst s))))
    as (Ht & Hsv & _).
  assert (Hsilent : List.filter isPulse
                      (emitted (liftXr (XRApi.status (areaIndex (fst s))) s)) = []).
  { apply (filter_weaker isPulse isNotification);
      [intros [] E; try discriminate; reflexivity | apply status_is_quiet]. }
  destruct (res (pollOnce s)) as [[] | e] eqn:Hp.
  2: { rewrite (pollOnceSafe_thrown s e Hp). cbn [post emitted].
       rewrite List.filter_app, Hsilent.
       split; [destruct (securityService (fst s)); reflexivity | exact Ht]. }
  rewrite (pollOnceSafe_ok s Hp).
  pose proof (pollOnce_cases s) as Hc. cbv zeta in Hc.
  set (o := liftXr (XRApi.status (areaIndex (fst s))) s) in *.
  assert (Ha' : alarmEventService (fst (post o)) = None) by exact Ha.
  assert (Hd' : doorEventService (fst (post o)) = None) by exact Hd.
  destruct (res o) as [a |] eqn:Ho; [| rewrite Hc in Hp; discriminate].
  destruct (getField a "bankstates") as [b |];
    [| destruct Hc as [Hc _]; rewrite Hc in Hp; discriminate].
  destruct (XRApi.decodeAreaModeFromBankstates b (areaIndex (fst s))) as [mode |];
    [| destruct Hc as [Hc _]; rewrite Hc in Hp; discriminate].
  destruct (setMode_without_sensor mode (post o) Ha') as (Hm1 & Hm2 & Hm3).
  destruct (doorConfigured (fst s)).
  - destruct Hc as (isOpen & _ & Hc). rewrite Hc. cbn [post emitted].
    assert (Hd'' : doorEventService (fst (post (setMode mode (post o)))) = None).
    { pose proof (f_equal snd Hm3) as Hd3. unfold services in Hd3.
      cbn [snd] in Hd3. rewrite Hd3. exact Hd'. }
    destruct (setGarageOpen_without_sensor isOpen _ Hd'') as (Hg1 & Hg2).
    rewrite !List.filter_app, Hsilent, Hm1, Hg1, Hg2, Hm2.
    split; [reflexivity | exact Ht].
  - rewrite Hc. cbn [post emitted].
    rewrite List.filter_app, Hsilent, Hm1, Hm2. split; [reflexivity | exact Ht].
Qed.

Lemma registered_timers (s s' : P) :
  timers s' = timers s -> Pulse.registered s -> Pulse.registered s'.
Proof.
  unfold timers. intros [= Hr Hp Hn _] [H1 H2 H3 H4].
  split; rewrite ?Hr, ?Hp, ?Hn; assumption.
Qed.

Lemma pulseMotion_keeps_registered (service : option Hap.service) (key : string) (s : P) :
  Pulse.registered s -> Pulse.registered (post (pulseMotion service key s)).
Proof.
  destruct service as [svc |]; [apply pulseMotion_registered | auto].
Qed.

Lemma setMode_keeps_registered (mode : string) (s : P) :
  Pulse.registered s -> Pulse.registered (post (setMode mode s)).
Proof.
  intros Hreg.
  pose proof (setMode_run mode s) as Hrun. cbv zeta in Hrun.
  destruct (String.eqb (normalized mode) (cachedMode (fst s))); rewrite Hrun;
    [exact Hreg |].
  cbn [post]. apply pulseMotion_keeps_registered.
  apply (registered_timers s); [reflexivity | exact Hreg].
Qed.

Lemma setGarageOpen_keeps_registered (isOpen : bool) (s : P) :
  Pulse.registered s -> Pulse.registered (post (setGarageOpen isOpen s)).
Proof.
  intros Hreg.
  pose proof (setGarageOpen_run isOpen s) as Hrun. cbv zeta in Hrun.
  destruct (sameDoor (cachedDoorOpen (fst s)) isOpen); rewrite Hrun;
    [exact Hreg |].
  cbn [post]. apply pulseMotion_keeps_registered.
  apply (registered_timers s); [reflexivity | exact Hreg].
Qed.

(** X18.  The registry of reset timers and the timers Node holds stay in step:
    a poll cycle keeps their agreement, and so does the passing of time.
    Under it no key has two resets pending. *)
Theorem registry_stays_in_step (s : P) (dt : Z) :
  Pulse.registered s ->
  Pulse.registered (post (pollOnceSafe s))
  /\ Pulse.registered (post (advance dt s))
  /\ (forall t t', t ∈ pending (snd s) -> t' ∈ pending (snd s) ->
        Pulse.keyOf t = Pulse.keyOf t' -> t = t').
Proof.
  intros Hreg. split; [| split].
  - destruct (liftXr_frame (XRApi.status (areaIndex (fst s))) s
                (steady_status (areaIndex (fst s))))
      as (Ht & _).
    destruct (res (pollOnce s)) as [[] | e] eqn:Hp.
    2: { rewrite (pollOnceSafe_thrown s e Hp). cbn [post].
         apply (registered_timers s); [exact Ht | exact Hreg]. }
    rewrite (pollOnceSafe_ok s Hp).
    pose proof (pollOnce_cases s) as Hc. cbv zeta in Hc.
    set (o := liftXr (XRApi.status (areaIndex (fst s))) s) in *.
    assert (Hreg' : Pulse.registered (post o))
      by (apply (registered_timers s); [exact Ht | exact Hreg]).
    destruct (res o) as [a |] eqn:Ho; [| rewrite Hc in Hp; discriminate].
    destruct (getField a "bankstates") as [b |];
      [| destruct Hc as [Hc _]; rewrite Hc in Hp; discriminate].
    destruct (XRApi.decodeAreaModeFromBankstates b (areaIndex (fst s))) as [mode |];
      [| destruct Hc as [Hc _]; rewrite Hc in Hp; discriminate].
    destruct (doorConfigured (fst s)).
    + destruct Hc as (isOpen & _ & Hc). rewrite Hc. cbn [post].
      apply setGarageOpen_keeps_registered, setMode_keeps_registered, Hreg'.
    + rewrite Hc. cbn [post]. apply setMode_keeps_registered, Hreg'.
  - apply (runTimers_spec _ _ s Hreg).
  - intros t t' Ht Ht' Hkey. destruct Hreg as [Hp _ _ Hh].
    apply Hh; [assumption | assumption |].
    pose proof (Hp t Ht) as E. pose proof (Hp t' Ht') as E'.
    rewrite Hkey in E. congruence.
Qed.



End WatchProofs.

Lemma level_state_follows_the_change_witness :
  List.filter Watch.isSecurityUpdate
    (emitted (Platform.setMode "STAY" Scenario.atRest)) =
    [UpdateCharacteristic Hap.SecuritySystem Hap.SecuritySystemCurrentState Hap.STAY_ARM;
     UpdateCharacteristic Hap.SecuritySystem Hap.SecuritySystemTargetState Hap.STAY_ARM;
     UpdateCharacteristic Hap.SecuritySystem Hap.StatusFault Hap.NO_FAULT]
  /\ List.filter Watch.isDoorState
       (emitted (Platform.setGarageOpen true Scenario.atRest)) =
     [UpdateCharacteristic Hap.GarageDoorOpener Hap.CurrentDoorState Hap.OPEN;
      UpdateCharacteristic Hap.GarageDoorOpener Hap.TargetDoorState Hap.OPEN].
Proof.
  split.
  - apply (proj1 (level_state_follows_the_change "STAY" true Hap.SecuritySystem
                    Hap.GarageDoorOpener Scenario.atRest));
      [discriminate | reflexivity].
  - apply (proj2 (level_state_follows_the_change "STAY" true Hap.SecuritySystem
                    Hap.GarageDoorOpener Scenario.atRest));
      [discriminate | reflexivity].
Defined.

(** *** The accessory cache *)

Section AccessoryProofs.
Import Accessories.
Variable generate : string -> string.

Lemma find_some (uuid : string) (accs : list accessory) (i : nat) :
  find uuid accs = Some i ->
  (exists a, accs !! i = Some a /\ UUID a = uuid)
  /\ (forall j a, (j < i)%nat -> accs !! j = Some a -> UUID a <> uuid).
Proof.
  revert i. induction accs as [| a accs IH]; intros i; cbn [find]; [discriminate |].
  destruct (String.eqb_spec (UUID a) uuid) as [E | E].
  - intros [= <-]. split; [exists a; auto |]. intros j b Hj. lia.
  - destruct (find uuid accs) as [k |]; [| discriminate].
    cbn. intros [= <-]. destruct (IH k eq_refl) as [(b & Hb & Hu) Hbefore].
    split; [exists b; auto |].
    intros [| j] c Hj; cbn; [intros [= <-]; exact E |].
    apply Hbefore. lia.
Qed.

Lemma find_none (uuid : string) (accs : list accessory) :
  find uuid accs = None <-> (forall a, a ∈ accs -> UUID a <> uuid).
Proof.
  induction accs as [| a accs IH]; cbn [find].
  - split; [intros _ b Hb; inversion Hb | reflexivity].
  - destruct (String.eqb_spec (UUID a) uuid) as [E | E].
    + split; [discriminate |]. intros Hall. exfalso. apply (Hall a); [left | exact E].
    + destruct (find uuid accs) as [k |]; cbn.
      * split; [discriminate |]. intros Hall.
        assert (Hnone : @None nat = None) by reflexivity.
        exfalso. destruct IH as [_ IH].
        discriminate IH. intros b Hb. apply Hall. right. exact Hb.
      * split; [| reflexivity]. intros _ b Hb.
        apply elem_of_cons in Hb as [-> | Hb]; [exact E |].
        apply IH; [reflexivity | exact Hb].
Qed.


Lemma rename_keeps_uuids (name : string) (i : nat) (accs : list accessory) :
  UUID <$> alter (rename name) i accs = UUID <$> accs.
Proof.
  revert i. induction accs as [| a accs IH]; intros [| i]; cbn; try reflexivity.
  f_equal. apply IH.
Qed.

Lemma getOrCreateAccessory_run (name stableId : string) (accs : list accessory) :
  getOrCreateAccessory generate name stableId accs =
    match find (generate stableId) accs with
    | Some i =>
        {| res := Ok (i, false); post := alter (rename name) i accs; emitted := [] |}
    | None =>
        {| res := Ok (length accs, true);
           post := accs ++ [{| UUID := generate stableId; displayName := name |}];
           emitted := [] |}
    end.
Proof.
  unfold getOrCreateAccessory.
  rewrite (bind_silent get _ accs accs accs eq_refl).
  destruct (find (generate stableId) accs); reflexivity.
Qed.

Lemma find_after_rename (name uuid : string) (accs : list accessory) (i : nat) :
  find uuid accs = Some i -> find uuid (alter (rename name) i accs) = Some i.
Proof.
  revert i. induction accs as [| b accs IH]; intros i; cbn [find]; [discriminate |].
  destruct (String.eqb_spec (UUID b) uuid) as [E | E].
  - intros [= <-]. cbn. rewrite E, String.eqb_refl. reflexivity.
  - destruct (find uuid accs) as [k |] eqn:Hk; [| discriminate].
    cbn. intros [= <-]. cbn.
    destruct (String.eqb_spec (UUID b) uuid); [contradiction |].
    rewrite (IH k eq_refl). reflexivity.
Qed.

Lemma find_after_push (name uuid : string) (accs : list accessory) :
  find uuid accs = None ->
  find uuid (accs ++ [{| UUID := uuid; displayName := name |}]) = Some (length accs).
Proof.
  induction accs as [| b accs IH]; cbn [find app length].
  - intros _. cbn. rewrite String.eqb_refl. reflexivity.
  - destruct (String.eqb (UUID b) uuid); [discriminate |].
    destruct (find uuid accs); [discriminate |].
    intros _. rewrite IH by reflexivity. reflexivity.
Qed.

(** X19.  [getOrCreateAccessory] returns an accessory that is in the cache under
    the identifier generated for [stableId] and carries the display name
    asked for.  It is new exactly when no cached accessory had that
    identifier, and only then the cache grows, by that one accessory; the
    other accessories are left as they were, and identifiers that were
    distinct stay distinct. *)
Theorem accessory_is_found_or_created (name stableId : string) (accs : list accessory) :
  let o := getOrCreateAccessory generate name stableId accs in
  exists i isNew,
    res o = Ok (i, isNew)
    /\ post o !! i = Some {| UUID := generate stableId; displayName := name |}
    /\ (isNew = true <-> forall a, a ∈ accs -> UUID a <> generate stableId)
    /\ length (post o) = (if isNew then S (length accs) else length accs)
    /\ (forall j a, j <> i -> accs !! j = Some a -> post o !! j = Some a)
    /\ (NoDup (UUID <$> accs) -> NoDup (UUID <$> post o)).
Proof.
  cbv zeta. rewrite getOrCreateAccessory_run.
  destruct (find (generate stableId) accs) as [i |] eqn:Hfind; cbn [res post].
  - destruct (find_some _ _ _ Hfind) as [(a & Ha & Hu) _].
    exists i, false.
    split; [reflexivity |]. split.
    { rewrite list_lookup_alter_eq, Ha. cbn. unfold rename. rewrite Hu. reflexivity. }
    split.
    { split; [discriminate |]. intros Hall. exfalso.
      apply (Hall a); [eapply list_elem_of_lookup_2; eassumption | exact Hu]. }
    split; [apply length_alter |]. split.
    { intros j b Hj Hb. rewrite list_lookup_alter_ne by congruence. exact Hb. }
    rewrite rename_keeps_uuids. auto.
  - exists (length accs), true.
    pose proof (proj1 (find_none _ _) Hfind) as Hall.
    split; [reflexivity |]. split.
    { rewrite lookup_app_r, Nat.sub_diag by lia. reflexivity. }
    split; [split; auto |]. split.
    { rewrite length_app. cbn. lia. }
    split.
    { intros j b _ Hb. apply lookup_app_l_Some, Hb. }
    intros Hnd. rewrite fmap_app. apply NoDup_app. split; [exact Hnd |]. split.
    + intros u Hu Hin. apply list_elem_of_fmap in Hu as (a & -> & Ha).
      apply list_elem_of_singleton in Hin. exact (Hall a Ha Hin).
    + apply NoDup_singleton.
Qed.

(** X20.  Asking again for the same [stableId] yields the same accessory, not a
    new one, with the display name of the second call; so does asking for an
    accessory that [configureAccessory] has put into the cache. *)
Theorem accessory_is_created_once (name name' stableId : string)
    (accs : list accessory) (restored : accessory) :
  (let o1 := getOrCreateAccessory generate name stableId accs in
   let o2 := getOrCreateAccessory generate name' stableId (post o1) in
   exists i isNew,
     res o1 = Ok (i, isNew)
     /\ res o2 = Ok (i, false)
     /\ length (post o2) = length (post o1)
     /\ post o2 !! i = Some {| UUID := generate stableId; displayName := name' |})
  /\ (UUID restored = generate stableId ->
      let o := getOrCreateAccessory generate name stableId
                 (post (configureAccessory restored accs)) in
      exists i, res o = Ok (i, false) /\ length (post o) = S (length accs)).
Proof.
  split.
  - cbv zeta. rewrite (getOrCreateAccessory_run name).
    destruct (find (generate stableId) accs) as [i |] eqn:Hfind; cbn [res post].
    + destruct (find_some _ _ _ Hfind) as [(a & Ha & Hu) _].
      exists i, false. rewrite getOrCreateAccessory_run.
      rewrite (find_after_rename name _ _ _ Hfind). cbn [res post].
      split; [reflexivity |]. split; [reflexivity |].
      split; [apply length_alter |].
      rewrite !list_lookup_alter_eq, Ha. cbn. unfold rename. cbn. rewrite Hu.
      reflexivity.
    + exists (length accs), true. rewrite getOrCreateAccessory_run.
      rewrite (find_after_push name _ _ Hfind). cbn [res post].
      split; [reflexivity |]. split; [reflexivity |].
      split; [apply length_alter |].
      rewrite list_lookup_alter_eq, lookup_app_r, Nat.sub_diag by lia. reflexivity.
  - intros Hu. cbv zeta. rewrite getOrCreateAccessory_run.
    unfold configureAccessory, modify. cbn [post].
    destruct (find (generate stableId) (accs ++ [restored])) as [i |] eqn:Hfind.
    + exists i. cbn [res post]. split; [reflexivity |].
      rewrite length_alter, length_app. cbn. lia.
    + exfalso. apply (proj1 (find_none _ _) Hfind restored); [| exact Hu].
      apply elem_of_app. right. apply list_elem_of_singleton. reflexivity.
Qed.

End AccessoryProofs.

(** *** Start-up and the target state handler *)

Section LifecycleProofs.
Import JS Platform Reconciler Protocol Watch Lifecycle.
Context `{Runtime}.
Variable target : SecuritySystemTargetState.

Lemma keyFunction_is_quiet (fnum : number) (s : P) :
  List.filter isNotification
    (emitted (liftXr (XRApi.keyFunction fnum (areaIndex (fst s))) s)) = [].
Proof.
  unfold liftXr. cbn [emitted].
  unfold XRApi.keyFunction, XRApi.request.
  exact (quiet_requestN 1 _ _ _ _ (xr (fst s), snd s)).
Qed.

(** The handler with the key function [fnum] sent. *)
Lemma key_function_sent (fnum : Z) (s : P) :
  let k := liftXr (XRApi.keyFunction (Int fnum) (areaIndex (fst s))) s in
  let line := "[Reliance XR] Sending keyFunction fnum=" +:+ XRApi.numberToString (Int fnum) in
  bind (emit (LogInfo line))
    (fun _ => bind (liftXr (XRApi.keyFunction (Int fnum) (areaIndex (fst s))))
                (fun _ => ret tt)) s =
    {| res := match res k with Ok _ => Ok tt | Throw e => Throw e end;
       post := post k;
       emitted := LogInfo line :: emitted k |}.
Proof.
  cbv zeta. rewrite (bind_ok _ _ _ tt) by reflexivity.
  cbn [emit res post emitted app].
  destruct (res (liftXr (XRApi.keyFunction (Int fnum) (areaIndex (fst s))) s))
    as [a | e] eqn:Hk.
  - rewrite (bind_ok _ _ _ a Hk). cbn [ret res post emitted].
    rewrite app_nil_r. reflexivity.
  - rewrite (bind_throw _ _ _ e Hk). reflexivity.
Qed.


Lemma handler_outcome (v : value) (s : P) :
  let call := handleSecurityTargetSet target v s in
  let sent (fnum : Z) :=
    {| res := match res (liftXr (XRApi.keyFunction (Int fnum) (areaIndex (fst s))) s) with
              | Ok _ => Ok tt
              | Throw e => Throw e
              end;
       post := post (liftXr (XRApi.keyFunction (Int fnum) (areaIndex (fst s))) s);
       emitted :=
         LogInfo ("[Reliance XR] Sending keyFunction fnum=" +:+ XRApi.numberToString (Int fnum))
         :: emitted (liftXr (XRApi.keyFunction (Int fnum) (areaIndex (fst s))) s) |} in
  call = if strictEq v (DISARM target) then sent 0
         else if strictEq v (STAY_ARM target) then sent 1
         else if strictEq v (AWAY_ARM target) then sent 15
         else {| res := Ok tt; post := s; emitted := [] |}.
Proof.
  cbv zeta. unfold handleSecurityTargetSet.
  rewrite (bind_silent getThis _ s s (fst s) eq_refl).
  destruct (strictEq v (DISARM target)); [exact (key_function_sent 0 s) |].
  destruct (strictEq v (STAY_ARM target)); [exact (key_function_sent 1 s) |].
  destruct (strictEq v (AWAY_ARM target)); [exact (key_function_sent 15 s) |].
  reflexivity.
Qed.

(** X21.  A target state set from HomeKit is passed on as a key function: 0 to
    disarm, 1 to arm in stay mode, 15 to arm in away mode; any other value
    does nothing at all.  The handler itself changes neither the snapshot
    nor what HomeKit shows: that is left to the next poll. *)
Theorem target_state_is_sent_as_key_function (s : P) :
  DISARM target <> STAY_ARM target ->
  DISARM target <> AWAY_ARM target ->
  STAY_ARM target <> AWAY_ARM target ->
  let call v := handleSecurityTargetSet target v s in
  let sent (fnum : Z) (line : string) (o : outcome P unit) :=
    emitted o = LogInfo line
                :: emitted (liftXr (XRApi.keyFunction (Int fnum) (areaIndex (fst s))) s)
    /\ post o = post (liftXr (XRApi.keyFunction (Int fnum) (areaIndex (fst s))) s)
    /\ isOk (res o) = isOk (res (liftXr (XRApi.keyFunction (Int fnum) (areaIndex (fst s))) s)) in
  sent 0 "[Reliance XR] Sending keyFunction fnum=0" (call (VNum (Int (DISARM target))))
  /\ sent 1 "[Reliance XR] Sending keyFunction fnum=1" (call (VNum (Int (STAY_ARM target))))
  /\ sent 15 "[Reliance XR] Sending keyFunction fnum=15" (call (VNum (Int (AWAY_ARM target))))
  /\ (forall v,
        strictEq v (DISARM target) = false ->
        strictEq v (STAY_ARM target) = false ->
        strictEq v (AWAY_ARM target) = false ->
        call v = {| res := Ok tt; post := s; emitted := [] |})
  /\ (forall v,
        snapshot (fst (post (call v))) = snapshot (fst s)
        /\ List.filter isNotification (emitted (call v)) = []
        /\ timers (post (call v)) = timers s
        /\ services (fst (post (call v))) = services (fst s)).
Proof.
  intros Hds Hda Hsa. cbv zeta.
  assert (Hne : forall x y : Z, x <> y -> strictEq (VNum (Int x)) y = false).
  { intros x y Hxy. cbn. apply Z.eqb_neq, Hxy. }
  assert (Heq : forall x : Z, strictEq (VNum (Int x)) x = true).
  { intros x. cbn. apply Z.eqb_refl. }
  split; [| split; [| split; [| split]]].
  - pose proof (handler_outcome (VNum (Int (DISARM target))) s) as Ho.
    cbv zeta in Ho. rewrite Heq in Ho. rewrite Ho. cbn [res post emitted].
    repeat split. destruct (res _); reflexivity.
  - pose proof (handler_outcome (VNum (Int (STAY_ARM target))) s) as Ho.
    cbv zeta in Ho. rewrite Heq, Hne in Ho by congruence. rewrite Ho.
    cbn [res post emitted]. repeat split. destruct (res _); reflexivity.
  - pose proof (handler_outcome (VNum (Int (AWAY_ARM target))) s) as Ho.
    cbv zeta in Ho. rewrite Heq, !Hne in Ho by congruence. rewrite Ho.
    cbn [res post emitted]. repeat split. destruct (res _); reflexivity.
  - intros v H1 H2 H3.
    pose proof (handler_outcome v s) as Ho. cbv zeta in Ho.
    rewrite H1, H2, H3 in Ho. exact Ho.
  - intros v.
    pose proof (handler_outcome v s) as Ho. cbv zeta in Ho.
    assert (Hk : forall fnum,
               snapshot (fst (post (liftXr (XRApi.keyFunction (Int fnum) (areaIndex (fst s))) s)))
               = snapshot (fst s)
               /\ List.filter isNotification
                    (emitted (liftXr (XRApi.keyFunction (Int fnum) (areaIndex (fst s))) s)) = []
               /\ timers (post (liftXr (XRApi.keyFunction (Int fnum) (areaIndex (fst s))) s))
                  = timers s
               /\ services (fst (post (liftXr (XRApi.keyFunction (Int fnum)
                                                  (areaIndex (fst s))) s)))
                  = services (fst s)).
    { intros fnum.
      destruct (liftXr_frame (XRApi.keyFunction (Int fnum) (areaIndex (fst s))) s
                  (steady_keyFunction (Int fnum) (areaIndex (fst s))))
        as (Ht & Hsv & Hsn & _).
      pose proof (keyFunction_is_quiet (Int fnum) s). auto. }
    rewrite Ho.
    destruct (strictEq v (DISARM target)); [exact (Hk 0) |].
    destruct (strictEq v (STAY_ARM target)); [exact (Hk 1) |].
    destruct (strictEq v (AWAY_ARM target)); [exact (Hk 15) |].
    repeat split; reflexivity.
Qed.









End LifecycleProofs.

(** *** Rounds of login *)

Section RoundProofs.
Import JS XRApi Client Flight SingleFlight.

(** One call of [ensureLoggedIn], by the state it finds. *)
Lemma call_with_session (l : loop) :
  hasSess (this l) = true ->
  ensureLoggedIn l =
    {| res := Ok tt; post := addCaller (Returned (Ok tt)) l; emitted := [] |}.
Proof.
  intros Hs. unfold ensureLoggedIn.
  rewrite (bind_silent get _ l l l eq_refl). rewrite Hs. reflexivity.
Qed.

Lemma calls_with_session (n : nat) (l : loop) :
  hasSess (this l) = true ->
  times n ensureLoggedIn l =
    {| res := Ok tt;
       post := {| this := this l; loggingIn := loggingIn l;
                  callers := callers l ++ repeat (Returned (Ok tt)) n |};
       emitted := [] |}.
Proof.
  revert l. induction n as [| n IH]; intros l Hs; cbn [times repeat].
  - unfold ret. rewrite app_nil_r. destruct l; reflexivity.
  - rewrite (bind_silent _ _ _ _ _ (call_with_session l Hs)).
    rewrite IH by exact Hs.
    unfold addCaller. cbn [this loggingIn callers].
    rewrite <- app_assoc. reflexivity.
Qed.

Lemma call_starts_login (l : loop) :
  hasSess (this l) = false -> truthyStr (host (this l)) = true ->
  loggingIn l = None ->
  ensureLoggedIn l =
    {| res := Ok tt;
       post := {| this := setSess None (this l); loggingIn := Some Pending;
                  callers := callers l ++ [Waiting] |};
       emitted := [Fetch (loginForm (this l))] |}.
Proof.
  intros Hs Hh Hl. unfold ensureLoggedIn.
  rewrite (bind_silent get _ l l l eq_refl). rewrite Hs. cbv iota.
  unfold login. rewrite bind_assoc.
  rewrite (bind_silent get _ l l l eq_refl). rewrite Hl. rewrite bind_assoc.
  assert (Hon : onThis loginRequest l =
                {| res := Ok (Ok (loginForm (this l)));
                   post := setThis (setSess None (this l)) l;
                   emitted := [] |}).
  { unfold onThis. rewrite (loginRequest_ok (this l) Hh). reflexivity. }
  rewrite (bind_silent _ _ _ _ _ Hon).
  unfold bind, emit, modify, setThis, setLoggingIn, addCaller.
  cbn [res post emitted this loggingIn callers app]. reflexivity.
Qed.

Lemma call_joins_login (l : loop) (p : promise) :
  hasSess (this l) = false -> loggingIn l = Some p ->
  ensureLoggedIn l =
    {| res := Ok tt; post := addCaller Waiting l; emitted := [] |}.
Proof.
  intros Hs Hl. unfold ensureLoggedIn.
  rewrite (bind_silent get _ l l l eq_refl). rewrite Hs. cbv iota.
  unfold login. rewrite bind_assoc.
  rewrite (bind_silent get _ l l l eq_refl). rewrite Hl.
  unfold bind, ret, modify. cbn [res post emitted]. reflexivity.
Qed.

Lemma calls_join_login (n : nat) (l : loop) (p : promise) :
  hasSess (this l) = false -> loggingIn l = Some p ->
  times n ensureLoggedIn l =
    {| res := Ok tt;
       post := {| this := this l; loggingIn := loggingIn l;
                  callers := callers l ++ repeat Waiting n |};
       emitted := [] |}.
Proof.
  revert l. induction n as [| n IH]; intros l Hs Hl; cbn [times repeat].
  - unfold ret. rewrite app_nil_r. destruct l; reflexivity.
  - rewrite (bind_silent _ _ _ _ _ (call_joins_login l p Hs Hl)).
    rewrite IH by assumption.
    unfold addCaller. cbn [this loggingIn callers].
    rewrite <- app_assoc. reflexivity.
Qed.


(** The task that brings the answer, in full. *)
Lemma answer_settles (a : api) (k : nat) (r : reply) :
  exists a' es,
    step (Answer r) (inFlight a k) =
      {| res := Ok tt;
         post := {| this := a'; loggingIn := None;
                    callers := repeat (Returned (verdict r)) k |};
         emitted := es |}
    /\ host a' = host a
    /\ loginForm a' = loginForm a
    /\ hasSess a' = isOk (verdict r)
    /\ attempts es = 0%nat.
Proof.
  cbn [step]. unfold answerLogin, verdict, loginError.
  destruct r as [text | msg].
  - unfold bind, onThis, loginFinish, drain.
    cbn [get inFlight loggingIn res post emitted this].
    destruct (extractSessFromHtml text) as [tok |] eqn:E.
    + exists (setSess (Some tok) a). eexists. cbn. rewrite settle_all.
      split; [reflexivity |]. repeat split.
      exact (extractSess_truthy text tok a E).
    + exists (setSess None a). eexists.
      destruct (looksLikeLoginHtml text); cbn; rewrite settle_all;
        (split; [reflexivity |]); repeat split.
  - exists (setSess None a). eexists. unfold bind, drain. cbn. rewrite settle_all.
    split; [reflexivity |]. repeat split.
Qed.

(** A task of calls made when no login is under way. *)
Lemma calls_at_rest (m : nat) (l : loop) :
  truthyStr (host (this l)) = true -> loggingIn l = None ->
  exists l',
    step (Calls (S m)) l =
      {| res := Ok tt; post := l';
         emitted := if hasSess (this l) then [] else [Fetch (loginForm (this l))] |}
    /\ callers l' = callers l
                    ++ repeat (if hasSess (this l) then Returned (Ok tt) else Waiting) (S m)
    /\ loggingIn l' = if hasSess (this l) then None else Some Pending.
Proof.
  intros Hh Hl. cbn [step].
  destruct (hasSess (this l)) eqn:Hs.
  - eexists. rewrite (bind_silent _ _ _ _ _ (calls_with_session (S m) l Hs)).
    unfold drain. rewrite (bind_silent get _ _ _ _ eq_refl).
    cbn [loggingIn]. rewrite Hl. split; [reflexivity |]. split; reflexivity.
  - eexists. cbn [times].
    rewrite bind_assoc.
    rewrite (bind_ok _ _ _ tt)
      by (rewrite (call_starts_login l Hs Hh Hl); reflexivity).
    rewrite (call_starts_login l Hs Hh Hl). cbn [res post emitted].
    rewrite (bind_silent _ _ _ _ _
               (calls_join_login m
                  {| this := setSess None (this l); loggingIn := Some Pending;
                     callers := callers l ++ [Waiting] |}
                  Pending eq_refl eq_refl)).
    unfold drain. rewrite (bind_silent get _ _ _ _ eq_refl).
    cbn [loggingIn this callers ret res post emitted app].
    split; [reflexivity |]. split; [| reflexivity].
    rewrite <- app_assoc. reflexivity.
Qed.

(** X23.  The in-flight marker does not outlive its login.  Calls made after a
    login that failed start one new attempt and wait for it; calls made
    after a login that succeeded return at once and send nothing. *)
Theorem login_is_tried_again (a : api) (n m : nat) (r : reply) :
  hasSess a = false -> truthyStr (host a) = true ->
  let o := run [Calls (S n); Answer r; Calls (S m)] (idle a) in
  attempts (emitted o) = (if isOk (verdict r) then 1 else 2)%nat
  /\ callers (post o) =
     repeat (Returned (verdict r)) (S n)
     ++ repeat (if isOk (verdict r) then Returned (Ok tt) else Waiting) (S m)
  /\ loggingIn (post o) = (if isOk (verdict r) then None else Some Pending).
Proof.
  intros Hs Hh. cbv zeta. cbn [run].
  pose proof (task_of_calls a (S n) 0 Hs Hh) as H1.
  cbn [afterCalls Nat.add] in H1.
  rewrite (bind_ok _ _ _ tt) by (rewrite H1; reflexivity).
  rewrite H1. cbn [res post emitted].
  destruct (answer_settles a (S n) r) as (a' & es & H2 & Hhost & Hform & Hsess & Hes).
  rewrite (bind_ok _ _ _ tt) by (rewrite H2; reflexivity).
  rewrite H2. cbn [res post emitted].
  destruct (calls_at_rest m
              {| this := a'; loggingIn := None;
                 callers := repeat (Returned (verdict r)) (S n) |})
    as (l' & H3 & Hc & Hl); [cbn [this]; congruence | reflexivity |].
  cbn [this callers] in H3, Hc, Hl.
  rewrite (bind_ok _ _ _ tt) by (rewrite H3; reflexivity).
  rewrite H3. cbn [res post emitted ret]. rewrite app_nil_r.
  rewrite Hsess in *.
  split; [| split; assumption].
  unfold attempts in *.
  rewrite !filter_app, !length_app, Hes.
  destruct (isOk (verdict r)); reflexivity.
Qed.

End RoundProofs.

(** *** Instances *)

Lemma failed_poll_raises_the_fault_witness :
  List.filter Reconciler.isNotification
    (emitted (Platform.pollOnceSafe (H := Scenario.runtime) Scenario.atRest))
  = [UpdateCharacteristic Hap.SecuritySystem Hap.StatusFault Hap.GENERAL_FAULT].
Proof.
  apply (failed_poll_raises_the_fault (H := Scenario.runtime) Scenario.atRest
           (TransportError "ETIMEDOUT")).
  vm_compute. reflexivity.
Defined.

Lemma failed_poll_forces_a_login_witness :
  head (Client.requests
          (emitted (Platform.pollOnceSafe (H := Scenario.runtime)
                      (post (Platform.pollOnceSafe (H := Scenario.runtime)
                               Scenario.atRest)))))
  = Some (Client.loginForm Scenario.loggedIn).
Proof.
  apply (failed_poll_forces_a_login (H := Scenario.runtime) Scenario.atRest
           (TransportError "ETIMEDOUT")); vm_compute; reflexivity.
Defined.

Lemma fault_outlives_an_unchanged_mode_witness :
  List.filter Watch.isSecurityUpdate
    (emitted (Platform.pollOnceSafe (H := Scenario.runtime)
                (post (Platform.pollOnceSafe (H := Scenario.runtime)
                         Cases.afterFirstPoll))))
  = [].
Proof.
  apply (fault_outlives_an_unchanged_mode (H := Scenario.runtime) Cases.afterFirstPoll
           (TransportError "ECONNRESET") (Scenario.statusValue Scenario.armedBlob)
           (VStr Scenario.armedBlob)); vm_compute; reflexivity.
Defined.

Lemma no_pulse_without_event_sensors_witness :
  List.filter Watch.isPulse
    (emitted (Platform.pollOnceSafe (H := Scenario.runtime)
                (Cases.withoutSensors Scenario.loggedIn, Scenario.armedTwice)))
  = [].
Proof.
  apply (no_pulse_without_event_sensors (H := Scenario.runtime)
           (Cases.withoutSensors Scenario.loggedIn, Scenario.armedTwice));
    reflexivity.
Defined.

Lemma registry_stays_in_step_witness :
  Pulse.registered
    (post (Platform.pollOnceSafe (H := Scenario.runtime)
             (Scenario.launched Scenario.loggedIn, Scenario.armedTwice))).
Proof.
  apply (registry_stays_in_step (H := Scenario.runtime)
           (Scenario.launched Scenario.loggedIn, Scenario.armedTwice) 0).
  apply launched_registered. reflexivity.
Defined.


Lemma target_state_is_sent_as_key_function_witness :
  head (emitted (Lifecycle.handleSecurityTargetSet (H := Scenario.runtime) Cases.hap
                   (VNum (JS.Int 1)) Scenario.atRest))
  = Some (LogInfo "[Reliance XR] Sending keyFunction fnum=15").
Proof.
  destruct (target_state_is_sent_as_key_function (H := Scenario.runtime) Cases.hap
              Scenario.atRest)
    as (_ & _ & (Hsent & _) & _); [discriminate | discriminate | discriminate |].
  change (Lifecycle.AWAY_ARM Cases.hap) with 1 in Hsent.
  rewrite Hsent. reflexivity.
Defined.

Lemma login_is_tried_again_witness :
  Flight.attempts
    (emitted (Flight.run [Flight.Calls 2; Flight.Answer (Body Scenario.loginPage);
                          Flight.Calls 1]
                (SingleFlight.idle Scenario.loggedOut)))
  = 2%nat.
Proof.
  apply (login_is_tried_again Scenario.loggedOut 1 0 (Body Scenario.loginPage));
    reflexivity.
Defined.

Lemma accessory_is_created_once_witness :
  exists i,
    res (Accessories.getOrCreateAccessory (fun id => id) "Alarm" "xr-alarm-10.0.0.2-a0"
           (post (Accessories.configureAccessory
                    {| Accessories.UUID := "xr-alarm-10.0.0.2-a0";
                       Accessories.displayName := "Old name" |} [])))
    = Ok (i, false)
    /\ length (post (Accessories.getOrCreateAccessory (fun id => id) "Alarm"
                       "xr-alarm-10.0.0.2-a0"
                       (post (Accessories.configureAccessory
                                {| Accessories.UUID := "xr-alarm-10.0.0.2-a0";
                                   Accessories.displayName := "Old name" |} []))))
       = 1%nat.
Proof.
  apply (proj2 (accessory_is_created_once (fun id => id) "Alarm" "Alarm"
                  "xr-alarm-10.0.0.2-a0" []
                  {| Accessories.UUID := "xr-alarm-10.0.0.2-a0";
                     Accessories.displayName := "Old name" |})).
  reflexivity.
Defined.

Lemma nothing_is_sent_without_host_witness :
  res (XRApi.login (Cases.noHost, Scenario.armedTwice)) = Throw HostUndefined.
Proof.
  apply (nothing_is_sent_without_host (H := Scenario.runtime) Cases.noHost
           Scenario.armedTwice "/" "GET" None true true).
  reflexivity.
Defined.

